(** * Users domain of go-ddd-clean-starter: a shallow embedding

    The first half holds the program, layer by layer:

    - [GoString], [Regexp], [GoErrors], [GoInt]: the byte strings, the
      regular expressions, the error values ([errors.New], [fmt.Errorf] with
      [%w], [errors.Is]) and the machine integers the program computes with;
    - [Domain]: [internal/domains/users/domain] (the [Email] value object
      with its regular expression, the [User] entity, the repository
      interface);
    - [Postgres]: the [users] table of the migration and the seven queries
      of the queries file, with the constraints the table declares;
    - [Persistence]: the SQLC-backed repository;
    - [Application]: the use cases of [UserService];
    - [Handler]: the HTTP handlers and their error-to-status mapping;
    - [Database]: the transaction manager;
    - [Routes]: the routes of [handler/routes.go], each with its handler;
    - [Entity]: the entity's own [Validate];
    - [Strconv], [Config]: [internal/platform/config], with the decimal
      parser of the standard library it relies on;
    - [Fixtures], [TableConditions], [ServiceInterface], [Confidentiality],
      [RegexpSemantics], [AddressBytes], [Outcomes], [PageOrder],
      [StoredRows], [Columns], [UnicodeCase], [HashSecrecy]: sample inputs
      and the notions the properties are stated with.

    A Go string is modelled as its bytes.  [GoString.ToLower] and
    [GoString.TrimSpace] are [strings.ToLower] and [strings.TrimSpace] on
    texts whose bytes are all below 128; on other texts Go's functions also
    look at letters and spaces from 128 on, and the properties that take an
    arbitrary text say so in a hypothesis ([Columns.ascii_text]).

    The second half holds the properties.

    What a call reads from outside the program ([uuid.New], [time.Now], the
    randomness of bcrypt, the answers of the connection pool) is an argument
    of its model.  Go's [int] is taken to be 64 bits wide (as on amd64 and
    arm64); its arithmetic is written on [Z] with the wrap-around spelled
    out. *)

From Stdlib Require Import ZArith List String Ascii Bool Lia DecimalString Sorted.
Import ListNotations.

Local Open Scope string_scope.
Local Open Scope Z_scope.

(* ------------------------------------------------------------------ *)
(** ** Go strings *)

Module GoString.

(** A Go string is a sequence of bytes; [len] counts bytes. *)
Definition len (s : string) : Z := Z.of_nat (String.length s).

Definition byte_in (lo hi c : ascii) : bool :=
  (nat_of_ascii lo <=? nat_of_ascii c)%nat && (nat_of_ascii c <=? nat_of_ascii hi)%nat.

Definition is_upper (c : ascii) : bool := byte_in "A" "Z" c.
Definition is_lower (c : ascii) : bool := byte_in "a" "z" c.
Definition is_digit (c : ascii) : bool := byte_in "0" "9" c.

(** The white space [strings.TrimSpace] cuts, on the bytes below 128: tab,
    line feed, vertical tab, form feed, carriage return and space. *)
Definition is_space (c : ascii) : bool :=
  byte_in "009" "013" c || Ascii.eqb c " ".

Definition lower_byte (c : ascii) : ascii :=
  if is_upper c then ascii_of_nat (nat_of_ascii c + 32) else c.

(** [strings.ToLower].  On text below byte 128 Go maps ['A'..'Z'] to
    ['a'..'z'] and leaves every other byte alone; this is that map.  Bytes
    from 128 on, which Go reads as UTF-8 and maps by the Unicode tables, are
    left alone here. *)
Fixpoint ToLower (s : string) : string :=
  match s with
  | EmptyString => EmptyString
  | String c r => String (lower_byte c) (ToLower r)
  end.

Fixpoint TrimLeft (s : string) : string :=
  match s with
  | EmptyString => EmptyString
  | String c r => if is_space c then TrimLeft r else s
  end.

Fixpoint TrimRight (s : string) : string :=
  match s with
  | EmptyString => EmptyString
  | String c r =>
      match TrimRight r with
      | EmptyString => if is_space c then EmptyString else String c EmptyString
      | r' => String c r'
      end
  end.

(** [strings.TrimSpace]: leading and trailing white space removed. *)
Definition TrimSpace (s : string) : string := TrimRight (TrimLeft s).

Fixpoint all_space (s : string) : bool :=
  match s with
  | EmptyString => true
  | String c r => is_space c && all_space r
  end.

(** Equality up to the case of letters, byte by byte (what
    [strings.EqualFold] decides on text below byte 128). *)
Fixpoint EqualFold (s t : string) : bool :=
  match s, t with
  | EmptyString, EmptyString => true
  | String c r, String d u => Ascii.eqb (lower_byte c) (lower_byte d) && EqualFold r u
  | _, _ => false
  end.

(** Two texts that differ only in the case of letters and in the white
    space around them: each is a core between two runs of white space, and
    the cores are equal up to case. *)
Definition differ_only_in_case_and_space (a b : string) : Prop :=
  exists la ca ra lb cb rb,
    a = la ++ ca ++ ra /\ b = lb ++ cb ++ rb /\
    all_space la = true /\ all_space ra = true /\
    all_space lb = true /\ all_space rb = true /\
    EqualFold ca cb = true.

(** Slices [s[i:]] and [s[:n]] and their composition [s[i:j]]. *)
Fixpoint drop (i : nat) (s : string) : string :=
  match i, s with
  | O, _ => s
  | S i', String _ r => drop i' r
  | S _, EmptyString => EmptyString
  end.

Fixpoint take (n : nat) (s : string) : string :=
  match n, s with
  | O, _ => EmptyString
  | S n', String c r => String c (take n' r)
  | S _, EmptyString => EmptyString
  end.

Definition slice (i j : nat) (s : string) : string := take (j - i) (drop i s).

(** The double quote character. *)
Definition dquote : string := String "034" EmptyString.

End GoString.

(* ------------------------------------------------------------------ *)
(** ** Regular expressions (the fragment [regexp] needs for [emailRegex]) *)

Module Regexp.

Inductive regex : Type :=
| Void : regex                       (* matches nothing *)
| Eps : regex                        (* matches the empty string *)
| Class : (ascii -> bool) -> regex   (* one byte of a character class *)
| Cat : regex -> regex -> regex
| Alt : regex -> regex -> regex
| Star : regex -> regex.

Definition Plus (r : regex) : regex := Cat r (Star r).
Definition Lit (c : ascii) : regex := Class (Ascii.eqb c).

(** [r{2,}] *)
Definition AtLeast2 (r : regex) : regex := Cat r (Cat r (Star r)).

Fixpoint nullable (r : regex) : bool :=
  match r with
  | Void => false
  | Eps => true
  | Class _ => false
  | Cat a b => nullable a && nullable b
  | Alt a b => nullable a || nullable b
  | Star _ => true
  end.

(** Brzozowski derivative of [r] by the byte [c]. *)
Fixpoint deriv (c : ascii) (r : regex) : regex :=
  match r with
  | Void => Void
  | Eps => Void
  | Class p => if p c then Eps else Void
  | Cat a b =>
      if nullable a then Alt (Cat (deriv c a) b) (deriv c b)
      else Cat (deriv c a) b
  | Alt a b => Alt (deriv c a) (deriv c b)
  | Star a => Cat (deriv c a) (Star a)
  end.

(** [MatchString] for a pattern anchored with [^] and [$] (without the
    multi-line flag [$] is the end of the text): the whole text matches. *)
Fixpoint MatchString (r : regex) (s : string) : bool :=
  match s with
  | EmptyString => nullable r
  | String c rest => MatchString (deriv c r) rest
  end.

End Regexp.

(* ------------------------------------------------------------------ *)
(** ** Go error values *)

Module GoErrors.

(** The error values the program creates or receives.  The first six are the
    package-level sentinels of [domain/errors.go]; [pgx_ErrNoRows] is the
    driver's sentinel.  [errors_New] is an error made on the spot by
    [errors.New] (a fresh value, identical to no sentinel); [fmt_Errorf] is
    [fmt.Errorf] with one [%w] verb: the text before it, the wrapped error and
    the text after it.  [PgError] is an error reported by the database
    server, [lib_error] one reported by a library (bcrypt, the pool). *)
Inductive error : Type :=
| ErrUserNotFound
| ErrEmailAlreadyExists
| ErrInvalidEmail
| ErrInvalidPassword
| ErrUserInactive
| ErrUnauthorized
| pgx_ErrNoRows
| errors_New (text : string)
| fmt_Errorf (before : string) (wrapped : error) (after : string)
| PgError (severity message code : string)
| lib_error (text : string).

(** The [Error()] method. *)
Fixpoint Error (e : error) : string :=
  match e with
  | ErrUserNotFound => "user not found"
  | ErrEmailAlreadyExists => "email already exists"
  | ErrInvalidEmail => "invalid email format"
  | ErrInvalidPassword => "invalid password"
  | ErrUserInactive => "user is inactive"
  | ErrUnauthorized => "unauthorized"
  | pgx_ErrNoRows => "no rows in result set"
  | errors_New t => t
  | fmt_Errorf b w a => b ++ Error w ++ a
  | PgError sev msg code => sev ++ ": " ++ msg ++ " (SQLSTATE " ++ code ++ ")"
  | lib_error t => t
  end.

(** Identity of error values, as [==] on the interface sees it: a sentinel is
    identical to itself only; values made by [errors.New], [fmt.Errorf], the
    server or a library are identical to no sentinel. *)
Definition same (e target : error) : bool :=
  match e, target with
  | ErrUserNotFound, ErrUserNotFound
  | ErrEmailAlreadyExists, ErrEmailAlreadyExists
  | ErrInvalidEmail, ErrInvalidEmail
  | ErrInvalidPassword, ErrInvalidPassword
  | ErrUserInactive, ErrUserInactive
  | ErrUnauthorized, ErrUnauthorized
  | pgx_ErrNoRows, pgx_ErrNoRows => true
  | _, _ => false
  end.

(** [errors.Is]: walks the [Unwrap] chain looking for the target. *)
Fixpoint errors_Is (e target : error) : bool :=
  same e target ||
  match e with
  | fmt_Errorf _ w _ => errors_Is w target
  | _ => false
  end.

(** A call that returns [(T, error)]: either the value or a non-nil error. *)
Inductive result (T : Type) : Type :=
| Ok (v : T)
| Err (e : error).
Arguments Ok {T} v.
Arguments Err {T} e.

Definition bind {A B : Type} (r : result A) (k : A -> result B) : result B :=
  match r with
  | Ok v => k v
  | Err e => Err e
  end.

End GoErrors.

(* ------------------------------------------------------------------ *)
(** ** The domain layer: [domain/user.go] *)

Module Domain.
Import GoString Regexp GoErrors.

(** [uuid.UUID] is sixteen bytes; read as a number below [2^128]. *)
Definition UUID : Type := N.
(** [time.Time], as an instant on a line. *)
Definition Timestamp : Type := Z.

(** [[a-zA-Z0-9._%+\-]] *)
Definition local_class (c : ascii) : bool :=
  is_lower c || is_upper c || is_digit c ||
  Ascii.eqb c "." || Ascii.eqb c "_" || Ascii.eqb c "%" || Ascii.eqb c "+" || Ascii.eqb c "-".

(** [[a-zA-Z0-9.\-]] *)
Definition domain_class (c : ascii) : bool :=
  is_lower c || is_upper c || is_digit c || Ascii.eqb c "." || Ascii.eqb c "-".

(** [[a-zA-Z]] *)
Definition alpha_class (c : ascii) : bool := is_lower c || is_upper c.

(** [^[a-zA-Z0-9._%+\-]+@[a-zA-Z0-9.\-]+\.[a-zA-Z]{2,}$] *)
Definition emailRegex : regex :=
  Cat (Plus (Class local_class))
   (Cat (Lit "@")
    (Cat (Plus (Class domain_class))
     (Cat (Lit ".")
      (AtLeast2 (Class alpha_class))))).

Record Email : Type := mkEmail { value : string }.

Definition NewEmail (email : string) : result Email :=
  let email := TrimSpace (ToLower email) in
  if String.eqb email EmptyString then Err ErrInvalidEmail
  else if negb (MatchString emailRegex email) then Err ErrInvalidEmail
  else Ok (mkEmail email).

Definition Value (e : Email) : string := value e.

Record User : Type := mkUser {
  ID : UUID;
  Email_ : Email;
  Name : string;
  PasswordHash : string;
  IsActive : bool;
  CreatedAt : Timestamp;
  UpdatedAt : Timestamp
}.

(** [NewUser]; [id] is what [uuid.New()] returns and [now] what [time.Now()]
    returns in this call. *)
Definition NewUser (id : UUID) (now : Timestamp)
    (email : Email) (name passwordHash : string) : result User :=
  if String.eqb name EmptyString then Err (errors_New "name cannot be empty")
  else if String.eqb passwordHash EmptyString then
    Err (errors_New "password hash cannot be empty")
  else Ok (mkUser id email name passwordHash true now now).

Definition UpdateProfile (now : Timestamp) (u : User) (name : string) (email : Email)
  : result User :=
  if String.eqb name EmptyString then Err (errors_New "name cannot be empty")
  else Ok (mkUser (ID u) email name (PasswordHash u) (IsActive u) (CreatedAt u) now).

Definition Deactivate (now : Timestamp) (u : User) : User :=
  mkUser (ID u) (Email_ u) (Name u) (PasswordHash u) false (CreatedAt u) now.

Definition Activate (now : Timestamp) (u : User) : User :=
  mkUser (ID u) (Email_ u) (Name u) (PasswordHash u) true (CreatedAt u) now.

Definition ChangePassword (now : Timestamp) (u : User) (passwordHash : string)
  : result User :=
  if String.eqb passwordHash EmptyString then
    Err (errors_New "password hash cannot be empty")
  else Ok (mkUser (ID u) (Email_ u) (Name u) passwordHash (IsActive u) (CreatedAt u) now).

(** [domain/repository.go]: the persistence operations the domain asks for.
    [R] is the state of the store behind an implementation; an operation that
    writes returns the new state.  [Delete] reads the clock, so it is given
    the instant. *)
Class UserRepository (R : Type) : Type := {
  Save : R -> User -> R * option error;
  FindByID : R -> UUID -> result User;
  FindByEmail : R -> Email -> result User;
  Update : R -> User -> R * option error;
  Delete : R -> Timestamp -> UUID -> R * option error;
  List_ : R -> Z -> Z -> result (list User);
  Count : R -> result Z
}.

End Domain.

(* ------------------------------------------------------------------ *)
(** ** Machine integers *)

Module GoInt.

Definition int_min : Z := - 2 ^ 63.
Definition int_max : Z := 2 ^ 63 - 1.
Definition is_int (z : Z) : Prop := int_min <= z <= int_max.

(** The value a 64-bit signed computation leaves: the result modulo [2^64],
    read as a signed number. *)
Definition wrap64 (z : Z) : Z := (z + 2 ^ 63) mod 2 ^ 64 - 2 ^ 63.

(** The conversion [int32(x)]: the low 32 bits, read as a signed number. *)
Definition int32 (z : Z) : Z := (z + 2 ^ 31) mod 2 ^ 32 - 2 ^ 31.

(** [a + b] on [int]. *)
Definition add (a b : Z) : Z := wrap64 (a + b).

End GoInt.

(* ------------------------------------------------------------------ *)
(** ** The store: the [users] table and the queries *)

Module Postgres.
Import GoString GoErrors Domain.

(** A row of [users]; the fields are the columns of the migration. *)
Record Row : Type := mkRow {
  id : UUID;
  email : string;
  name : string;
  password_hash : string;
  is_active : bool;
  created_at : Timestamp;
  updated_at : Timestamp
}.

(** The table, oldest insertion first. *)
Definition Table : Type := list Row.

Definition unique_violation (constraint : string) : error :=
  PgError "ERROR"
    ("duplicate key value violates unique constraint " ++ dquote ++ constraint ++ dquote)
    "23505".

Definition too_long (n : string) : error :=
  PgError "ERROR" ("value too long for type character varying(" ++ n ++ ")") "22001".

Fixpoint all_blank (s : string) : bool :=
  match s with
  | EmptyString => true
  | String c r => Ascii.eqb c " " && all_blank r
  end.

(** Assignment to a [VARCHAR(n)] column: a longer value is an error unless
    the excess is spaces only, which are cut off. *)
Definition varchar (n : nat) (label : string) (s : string) : result string :=
  if (String.length s <=? n)%nat then Ok s
  else if all_blank (drop n s) then Ok (take n s)
  else Err (too_long label).

Definition has_id (i : UUID) (r : Row) : bool := N.eqb (id r) i.
Definition has_email (e : string) (r : Row) : bool := String.eqb (email r) e.

(** [-- name: CreateUser :one]  [INSERT INTO users (...) VALUES ($1..$7)
    RETURNING *].  The column types are applied to the values, then the
    primary key ([id]) and the [UNIQUE] constraint on [email] are checked
    against every row of the table, active or not. *)
Definition CreateUser (t : Table) (p : Row) : Table * result Row :=
  match varchar 255 "255" (email p) with
  | Err e => (t, Err e)
  | Ok em =>
  match varchar 100 "100" (name p) with
  | Err e => (t, Err e)
  | Ok nm =>
  match varchar 255 "255" (password_hash p) with
  | Err e => (t, Err e)
  | Ok ph =>
      if existsb (has_id (id p)) t then (t, Err (unique_violation "users_pkey"))
      else if existsb (has_email em) t then (t, Err (unique_violation "users_email_key"))
      else
        let r := mkRow (id p) em nm ph (is_active p) (created_at p) (updated_at p) in
        ((t ++ [r])%list, Ok r)
  end end end.

(** [-- name: GetUserByID :one]  [WHERE id = $1 AND is_active = true LIMIT 1] *)
Definition GetUserByID (t : Table) (i : UUID) : result Row :=
  match find (fun r => has_id i r && is_active r) t with
  | Some r => Ok r
  | None => Err pgx_ErrNoRows
  end.

(** [-- name: GetUserByEmail :one]  [WHERE email = $1 AND is_active = true LIMIT 1] *)
Definition GetUserByEmail (t : Table) (e : string) : result Row :=
  match find (fun r => has_email e r && is_active r) t with
  | Some r => Ok r
  | None => Err pgx_ErrNoRows
  end.

Record UpdateUserParams : Type := mkUpdateUserParams {
  up_id : UUID;
  up_email : string;
  up_name : string;
  up_password_hash : string;
  up_is_active : bool;
  up_updated_at : Timestamp
}.

Fixpoint replace_row (i : UUID) (r' : Row) (t : Table) : Table :=
  match t with
  | [] => []
  | r :: rest => if has_id i r then r' :: rest else r :: replace_row i r' rest
  end.

(** [-- name: UpdateUser :one]  [UPDATE users SET ... WHERE id = $1
    RETURNING *].  The [WHERE] clause has no [is_active] filter.  With no
    matching row nothing is returned and scanning the one expected row
    reports [pgx.ErrNoRows]. *)
Definition UpdateUser (t : Table) (p : UpdateUserParams) : Table * result Row :=
  match find (has_id (up_id p)) t with
  | None => (t, Err pgx_ErrNoRows)
  | Some old =>
  match varchar 255 "255" (up_email p) with
  | Err e => (t, Err e)
  | Ok em =>
  match varchar 100 "100" (up_name p) with
  | Err e => (t, Err e)
  | Ok nm =>
  match varchar 255 "255" (up_password_hash p) with
  | Err e => (t, Err e)
  | Ok ph =>
      if existsb (fun r => has_email em r && negb (has_id (up_id p) r)) t
      then (t, Err (unique_violation "users_email_key"))
      else
        let r := mkRow (id old) em nm ph (up_is_active p) (created_at old) (up_updated_at p) in
        (replace_row (up_id p) r t, Ok r)
  end end end end.

(** [-- name: DeleteUser :exec]  [UPDATE users SET is_active = false,
    updated_at = $2 WHERE id = $1].  An [:exec] query runs the statement and
    hands back only the error of running it: the number of rows it touched is
    dropped, and a statement that touches no row is no error.
    [soft_delete_row] is the [SET] clause under the [WHERE] clause. *)
Definition soft_delete_row (i : UUID) (now : Timestamp) (r : Row) : Row :=
  if has_id i r
  then mkRow (id r) (email r) (name r) (password_hash r) false (created_at r) now
  else r.

Definition DeleteUser (t : Table) (i : UUID) (now : Timestamp) : Table * option error :=
  (map (soft_delete_row i now) t, None).

(** Insertion into a list ordered by [created_at], newest first; among rows
    of one instant the earlier insertion stays in front. *)
Fixpoint insert_desc (r : Row) (l : list Row) : list Row :=
  match l with
  | [] => [r]
  | x :: rest => if created_at x <? created_at r then r :: l else x :: insert_desc r rest
  end.

Definition order_by_created_at_desc (l : list Row) : list Row :=
  fold_right insert_desc [] l.

(** [-- name: ListUsers :many]  [WHERE is_active = true ORDER BY created_at
    DESC LIMIT $1 OFFSET $2].  The server rejects a negative [LIMIT] or
    [OFFSET]. *)
Definition ListUsers (t : Table) (limit offset : Z) : result (list Row) :=
  if limit <? 0 then Err (PgError "ERROR" "LIMIT must not be negative" "2201W")
  else if offset <? 0 then Err (PgError "ERROR" "OFFSET must not be negative" "2201X")
  else Ok (firstn (Z.to_nat limit)
             (skipn (Z.to_nat offset)
                (order_by_created_at_desc (filter is_active t)))).

(** [-- name: CountUsers :one]  [SELECT COUNT( * ) FROM users WHERE is_active = true] *)
Definition CountUsers (t : Table) : result Z :=
  Ok (Z.of_nat (List.length (filter is_active t))).

End Postgres.

(* ------------------------------------------------------------------ *)
(** ** The infrastructure layer: the SQLC-backed repository *)

Module Persistence.
Import GoString GoErrors GoInt Domain.

(** [findSubstring]: the loop [for i := 0; i <= len(s)-len(substr); i++],
    with [i] the start of the window and [n] the iterations left. *)
Fixpoint findSubstring_from (n i : nat) (s substr : string) : bool :=
  match n with
  | O => false
  | S n' =>
      if String.eqb (slice i (i + String.length substr) s) substr then true
      else findSubstring_from n' (S i) s substr
  end.

Definition findSubstring (s substr : string) : bool :=
  findSubstring_from (S (String.length s) - String.length substr) 0 s substr.

Definition contains (s substr : string) : bool :=
  let ls := String.length s in
  let lsub := String.length substr in
  (lsub <=? ls)%nat &&
  (String.eqb s substr ||
   (lsub <? ls)%nat &&
   (String.eqb (slice 0 lsub s) substr ||
    String.eqb (slice (ls - lsub) ls s) substr ||
    (lsub + 1 <? ls)%nat && findSubstring s substr)).

(** [isUniqueViolation]; the argument is [None] for a nil error. *)
Definition isUniqueViolation (err : option error) : bool :=
  match err with
  | None => false
  | Some e =>
      String.eqb (Error e)
        "ERROR: duplicate key value violates unique constraint (SQLSTATE 23505)" ||
      contains (Error e) "unique constraint" ||
      contains (Error e) "duplicate key"
  end.

(** [toDomainUser] *)
Definition toDomainUser (r : Postgres.Row) : result User :=
  match NewEmail (Postgres.email r) with
  | Err e => Err (fmt_Errorf "invalid email in database: " e "")
  | Ok email =>
      Ok (mkUser (Postgres.id r) email (Postgres.name r) (Postgres.password_hash r)
                 (Postgres.is_active r) (Postgres.created_at r) (Postgres.updated_at r))
  end.

Definition Save (t : Postgres.Table) (user : User) : Postgres.Table * option error :=
  let params :=
    Postgres.mkRow (ID user) (Value (Email_ user)) (Name user) (PasswordHash user)
                   (IsActive user) (CreatedAt user) (UpdatedAt user) in
  match Postgres.CreateUser t params with
  | (t', Err e) =>
      if isUniqueViolation (Some e) then (t', Some ErrEmailAlreadyExists)
      else (t', Some (fmt_Errorf "failed to create user: " e ""))
  | (t', Ok _) => (t', None)
  end.

Definition FindByID (t : Postgres.Table) (id : UUID) : result User :=
  match Postgres.GetUserByID t id with
  | Err e =>
      if errors_Is e pgx_ErrNoRows then Err ErrUserNotFound
      else Err (fmt_Errorf "failed to get user by ID: " e "")
  | Ok sqlcUser => toDomainUser sqlcUser
  end.

Definition FindByEmail (t : Postgres.Table) (email : Email) : result User :=
  match Postgres.GetUserByEmail t (Value email) with
  | Err e =>
      if errors_Is e pgx_ErrNoRows then Err ErrUserNotFound
      else Err (fmt_Errorf "failed to get user by email: " e "")
  | Ok sqlcUser => toDomainUser sqlcUser
  end.

Definition Update (t : Postgres.Table) (user : User) : Postgres.Table * option error :=
  let params :=
    Postgres.mkUpdateUserParams (ID user) (Value (Email_ user)) (Name user)
      (PasswordHash user) (IsActive user) (UpdatedAt user) in
  match Postgres.UpdateUser t params with
  | (t', Err e) =>
      if errors_Is e pgx_ErrNoRows then (t', Some ErrUserNotFound)
      else if isUniqueViolation (Some e) then (t', Some ErrEmailAlreadyExists)
      else (t', Some (fmt_Errorf "failed to update user: " e ""))
  | (t', Ok _) => (t', None)
  end.

Definition Delete (t : Postgres.Table) (now : Timestamp) (id : UUID)
  : Postgres.Table * option error :=
  match Postgres.DeleteUser t id now with
  | (t', Some e) =>
      if errors_Is e pgx_ErrNoRows then (t', Some ErrUserNotFound)
      else (t', Some (fmt_Errorf "failed to delete user: " e ""))
  | (t', None) => (t', None)
  end.

(** The loop of [List] that maps the rows, stopping at the first row that
    does not map; [i] is the index of the head of [rows]. *)
Fixpoint map_rows (i : nat) (rows : list Postgres.Row) : result (list User) :=
  match rows with
  | [] => Ok []
  | r :: rest =>
      match toDomainUser r with
      | Err e =>
          Err (fmt_Errorf
                 ("failed to map user at index " ++
                  NilEmpty.string_of_uint (Nat.to_uint i) ++ ": ") e "")
      | Ok u =>
          match map_rows (S i) rest with
          | Err e => Err e
          | Ok us => Ok (u :: us)
          end
      end
  end.

Definition List_ (t : Postgres.Table) (limit offset : Z) : result (list User) :=
  match Postgres.ListUsers t (int32 limit) (int32 offset) with
  | Err e => Err (fmt_Errorf "failed to list users: " e "")
  | Ok sqlcUsers => map_rows 0 sqlcUsers
  end.

Definition Count (t : Postgres.Table) : result Z :=
  match Postgres.CountUsers t with
  | Err e => Err (fmt_Errorf "failed to count users: " e "")
  | Ok count => Ok count
  end.

#[export] Instance UserRepository_Table : UserRepository Postgres.Table := {|
  Domain.Save := Save;
  Domain.FindByID := FindByID;
  Domain.FindByEmail := FindByEmail;
  Domain.Update := Update;
  Domain.Delete := Delete;
  Domain.List_ := List_;
  Domain.Count := Count
|}.

End Persistence.

(* ------------------------------------------------------------------ *)
(** ** The application layer: [application/dto.go], [application/service.go] *)

Module Application.
Import GoString GoErrors GoInt Domain.

Record CreateUserDTO : Type := mkCreateUserDTO {
  cu_Email : string;
  cu_Name : string;
  cu_Password : string
}.

Record UpdateUserDTO : Type := mkUpdateUserDTO {
  uu_Name : string;
  uu_Email : string
}.

Record ChangePasswordDTO : Type := mkChangePasswordDTO {
  OldPassword : string;
  NewPassword : string
}.

Record UserResponseDTO : Type := mkUserResponseDTO {
  dto_ID : UUID;
  dto_Email : string;
  dto_Name : string;
  dto_IsActive : bool;
  dto_CreatedAt : Timestamp;
  dto_UpdatedAt : Timestamp
}.

Record UserListResponseDTO : Type := mkUserListResponseDTO {
  Users : list UserResponseDTO;
  Total : Z;
  Limit : Z;
  Offset : Z;
  HasMore : bool
}.

(** The package [golang.org/x/crypto/bcrypt], as far as the service uses it.
    [GenerateFromPassword] draws a salt: [entropy] stands for what it draws. *)
Class Bcrypt : Type := {
  GenerateFromPassword : string -> string -> Z -> result string;
  CompareHashAndPassword : string -> string -> option error
}.

Definition DefaultCost : Z := 10.

(** What one call of a use case reads from outside the program: the
    identifier [uuid.New()] returns, the instant [time.Now()] returns and the
    randomness bcrypt draws. *)
Record Env : Type := mkEnv {
  uuid_New : UUID;
  time_Now : Timestamp;
  entropy : string
}.

Section Service.
Context {R : Type} {userRepo : UserRepository R} {bcrypt : Bcrypt}.

Definition validatePassword (password : string) : option error :=
  if len password <? 8 then Some (errors_New "password must be at least 8 characters")
  else None.

Definition validateCreateUserInput (dto : CreateUserDTO) : option error :=
  if String.eqb (cu_Email dto) EmptyString then Some (errors_New "email is required")
  else if String.eqb (cu_Name dto) EmptyString then Some (errors_New "name is required")
  else if String.eqb (cu_Password dto) EmptyString then Some (errors_New "password is required")
  else validatePassword (cu_Password dto).

Definition hashPassword (env : Env) (password : string) : result string :=
  GenerateFromPassword (entropy env) password DefaultCost.

Definition verifyPassword (hash password : string) : option error :=
  CompareHashAndPassword hash password.

Definition toUserResponseDTO (user : User) : UserResponseDTO :=
  mkUserResponseDTO (ID user) (Value (Email_ user)) (Name user) (IsActive user)
                    (CreatedAt user) (UpdatedAt user).

(** [existingUser, err := s.userRepo.FindByEmail(ctx, email)] followed by the
    test [err != nil && !errors.Is(err, domain.ErrUserNotFound)]: the error to
    return at once, or the user found, or nobody. *)
Definition lookup_email (r : R) (email : Email) : result (option User) :=
  match FindByEmail r email with
  | Ok u => Ok (Some u)
  | Err e =>
      if negb (errors_Is e ErrUserNotFound)
      then Err (fmt_Errorf "failed to check email existence: " e "")
      else Ok None
  end.

Definition CreateUser (env : Env) (r : R) (dto : CreateUserDTO)
  : R * result UserResponseDTO :=
  match validateCreateUserInput dto with
  | Some e => (r, Err e)
  | None =>
  match NewEmail (cu_Email dto) with
  | Err e => (r, Err e)
  | Ok email =>
  match lookup_email r email with
  | Err e => (r, Err e)
  | Ok (Some _) => (r, Err ErrEmailAlreadyExists)
  | Ok None =>
  match hashPassword env (cu_Password dto) with
  | Err e => (r, Err (fmt_Errorf "failed to hash password: " e ""))
  | Ok passwordHash =>
  match NewUser (uuid_New env) (time_Now env) email (cu_Name dto) passwordHash with
  | Err e => (r, Err (fmt_Errorf "failed to create user entity: " e ""))
  | Ok user =>
  match Save r user with
  | (r', Some e) => (r', Err (fmt_Errorf "failed to save user: " e ""))
  | (r', None) => (r', Ok (toUserResponseDTO user))
  end end end end end end.

Definition GetUser (r : R) (id : UUID) : result UserResponseDTO :=
  match FindByID r id with
  | Err e => Err e
  | Ok user => Ok (toUserResponseDTO user)
  end.

Definition GetUserByEmail (r : R) (email : string) : result UserResponseDTO :=
  match NewEmail email with
  | Err e => Err e
  | Ok emailVO =>
      match FindByEmail r emailVO with
      | Err e => Err e
      | Ok user => Ok (toUserResponseDTO user)
      end
  end.

(** The block guarded by [newEmail.Value() != user.Email.Value()]: [Some]
    error to return, or [None] to go on. *)
Definition email_conflict (r : R) (user : User) (newEmail : Email) : option error :=
  if negb (String.eqb (Value newEmail) (Value (Email_ user))) then
    match lookup_email r newEmail with
    | Err e => Some e
    | Ok (Some existingUser) =>
        if negb (N.eqb (ID existingUser) (ID user)) then Some ErrEmailAlreadyExists
        else None
    | Ok None => None
    end
  else None.

Definition UpdateUser (env : Env) (r : R) (id : UUID) (dto : UpdateUserDTO)
  : R * result UserResponseDTO :=
  match FindByID r id with
  | Err e => (r, Err e)
  | Ok user =>
  if String.eqb (uu_Name dto) EmptyString then (r, Err (errors_New "name cannot be empty"))
  else
  match NewEmail (uu_Email dto) with
  | Err e => (r, Err e)
  | Ok newEmail =>
  match email_conflict r user newEmail with
  | Some e => (r, Err e)
  | None =>
  match UpdateProfile (time_Now env) user (uu_Name dto) newEmail with
  | Err e => (r, Err e)
  | Ok user' =>
  match Update r user' with
  | (r', Some e) => (r', Err (fmt_Errorf "failed to update user: " e ""))
  | (r', None) => (r', Ok (toUserResponseDTO user'))
  end end end end end.

Definition DeleteUser (env : Env) (r : R) (id : UUID) : R * option error :=
  Delete r (time_Now env) id.

Definition ActivateUser (env : Env) (r : R) (id : UUID) : R * result UserResponseDTO :=
  match FindByID r id with
  | Err e => (r, Err e)
  | Ok user =>
      let user' := Activate (time_Now env) user in
      match Update r user' with
      | (r', Some e) => (r', Err (fmt_Errorf "failed to activate user: " e ""))
      | (r', None) => (r', Ok (toUserResponseDTO user'))
      end
  end.

Definition DeactivateUser (env : Env) (r : R) (id : UUID) : R * result UserResponseDTO :=
  match FindByID r id with
  | Err e => (r, Err e)
  | Ok user =>
      let user' := Deactivate (time_Now env) user in
      match Update r user' with
      | (r', Some e) => (r', Err (fmt_Errorf "failed to deactivate user: " e ""))
      | (r', None) => (r', Ok (toUserResponseDTO user'))
      end
  end.

Definition ChangePassword (env : Env) (r : R) (id : UUID) (dto : ChangePasswordDTO)
  : R * option error :=
  match FindByID r id with
  | Err e => (r, Some e)
  | Ok user =>
  match verifyPassword (PasswordHash user) (OldPassword dto) with
  | Some _ => (r, Some ErrInvalidPassword)
  | None =>
  match validatePassword (NewPassword dto) with
  | Some e => (r, Some e)
  | None =>
  match hashPassword env (NewPassword dto) with
  | Err e => (r, Some (fmt_Errorf "failed to hash password: " e ""))
  | Ok newPasswordHash =>
  match Domain.ChangePassword (time_Now env) user newPasswordHash with
  | Err e => (r, Some e)
  | Ok user' =>
  match Update r user' with
  | (r', Some e) => (r', Some (fmt_Errorf "failed to update password: " e ""))
  | (r', None) => (r', None)
  end end end end end end.

Definition effective_limit (limit : Z) : Z :=
  let limit := if limit <=? 0 then 10 else limit in
  if 100 <? limit then 100 else limit.

Definition effective_offset (offset : Z) : Z :=
  if offset <? 0 then 0 else offset.

Definition ListUsers (r : R) (limit offset : Z) : result UserListResponseDTO :=
  let limit := effective_limit limit in
  let offset := effective_offset offset in
  match List_ r limit offset with
  | Err e => Err (fmt_Errorf "failed to list users: " e "")
  | Ok users =>
  match Count r with
  | Err e => Err (fmt_Errorf "failed to count users: " e "")
  | Ok total =>
      Ok (mkUserListResponseDTO (map toUserResponseDTO users) total limit offset
            (GoInt.add offset limit <? total))
  end end.

End Service.

End Application.

(* ------------------------------------------------------------------ *)
(** ** The HTTP layer: [handler/handler.go] and the response models *)

Module Handler.
Import GoString GoErrors GoInt Domain Application.

Definition StatusOK : Z := 200.
Definition StatusCreated : Z := 201.
Definition StatusNoContent : Z := 204.
Definition StatusBadRequest : Z := 400.
Definition StatusUnauthorized : Z := 401.
Definition StatusForbidden : Z := 403.
Definition StatusNotFound : Z := 404.
Definition StatusConflict : Z := 409.
Definition StatusInternalServerError : Z := 500.

Record CreateUserRequest : Type := mkCreateUserRequest {
  req_Email : string;
  req_Name : string;
  req_Password : string
}.

Record UpdateUserRequest : Type := mkUpdateUserRequest {
  ureq_Email : string;
  ureq_Name : string
}.

Record ChangePasswordRequest : Type := mkChangePasswordRequest {
  req_OldPassword : string;
  req_NewPassword : string
}.

Record UserResponse : Type := mkUserResponse {
  resp_ID : UUID;
  resp_Email : string;
  resp_Name : string;
  resp_IsActive : bool;
  resp_CreatedAt : Timestamp;
  resp_UpdatedAt : Timestamp
}.

Record UserListResponse : Type := mkUserListResponse {
  list_Users : list UserResponse;
  list_Total : Z;
  list_Limit : Z;
  list_Offset : Z;
  list_HasMore : bool
}.

Record ErrorResponse : Type := mkErrorResponse {
  Error_ : string;
  Message : string
}.

(** What a handler sends: a status and a JSON body (or none). *)
Inductive Body : Type :=
| NoBody
| UserBody (u : UserResponse)
| ListBody (l : UserListResponse)
| ErrorBody (e : ErrorResponse)
| SuccessBody (message : string).

Record Response : Type := mkResponse {
  Status : Z;
  JSON : Body
}.

Definition toUserResponse (dto : UserResponseDTO) : UserResponse :=
  mkUserResponse (dto_ID dto) (dto_Email dto) (dto_Name dto) (dto_IsActive dto)
                 (dto_CreatedAt dto) (dto_UpdatedAt dto).

Definition toUserListResponse (dto : UserListResponseDTO) : UserListResponse :=
  mkUserListResponse (map toUserResponse (Users dto)) (Total dto) (Limit dto)
                     (Offset dto) (HasMore dto).

(** [handleError]: the [switch] over [errors.Is], first match wins. *)
Definition handleError (err : error) : Response :=
  if errors_Is err ErrUserNotFound then
    mkResponse StatusNotFound (ErrorBody (mkErrorResponse "not_found" "User not found"))
  else if errors_Is err ErrEmailAlreadyExists then
    mkResponse StatusConflict (ErrorBody (mkErrorResponse "conflict" "Email already exists"))
  else if errors_Is err ErrInvalidEmail then
    mkResponse StatusBadRequest
      (ErrorBody (mkErrorResponse "invalid_email" "Invalid email format"))
  else if errors_Is err ErrInvalidPassword then
    mkResponse StatusUnauthorized
      (ErrorBody (mkErrorResponse "invalid_password" "Invalid password"))
  else if errors_Is err ErrUserInactive then
    mkResponse StatusForbidden
      (ErrorBody (mkErrorResponse "user_inactive" "User account is inactive"))
  else
    mkResponse StatusInternalServerError
      (ErrorBody (mkErrorResponse "internal_error" "An internal error occurred")).

(** The response of the [default] case. *)
Definition internal_error : Response :=
  mkResponse StatusInternalServerError
    (ErrorBody (mkErrorResponse "internal_error" "An internal error occurred")).

Definition invalid_request : Response :=
  mkResponse StatusBadRequest (ErrorBody (mkErrorResponse "invalid_request" "Invalid request body")).

Definition invalid_id : Response :=
  mkResponse StatusBadRequest (ErrorBody (mkErrorResponse "invalid_id" "Invalid user ID format")).

Section Handlers.
Context {R : Type} {userRepo : UserRepository R} {bcrypt : Bcrypt}.

(** In each handler [body] is what [c.BodyParser] produced ([None] when it
    reports an error) and [id] what [uuid.Parse] made of the path parameter
    ([None] when it reports an error). *)
Definition CreateUser (env : Env) (r : R) (body : option CreateUserRequest) : R * Response :=
  match body with
  | None => (r, invalid_request)
  | Some req =>
      let dto := mkCreateUserDTO (req_Email req) (req_Name req) (req_Password req) in
      match Application.CreateUser env r dto with
      | (r', Err err) => (r', handleError err)
      | (r', Ok user) => (r', mkResponse StatusCreated (UserBody (toUserResponse user)))
      end
  end.

Definition GetUser (r : R) (id : option UUID) : Response :=
  match id with
  | None => invalid_id
  | Some id =>
      match Application.GetUser r id with
      | Err err => handleError err
      | Ok user => mkResponse StatusOK (UserBody (toUserResponse user))
      end
  end.

Definition UpdateUser (env : Env) (r : R) (id : option UUID)
    (body : option UpdateUserRequest) : R * Response :=
  match id with
  | None => (r, invalid_id)
  | Some id =>
  match body with
  | None => (r, invalid_request)
  | Some req =>
      let dto := mkUpdateUserDTO (ureq_Name req) (ureq_Email req) in
      match Application.UpdateUser env r id dto with
      | (r', Err err) => (r', handleError err)
      | (r', Ok user) => (r', mkResponse StatusOK (UserBody (toUserResponse user)))
      end
  end end.

Definition DeleteUser (env : Env) (r : R) (id : option UUID) : R * Response :=
  match id with
  | None => (r, invalid_id)
  | Some id =>
      match Application.DeleteUser env r id with
      | (r', Some err) => (r', handleError err)
      | (r', None) => (r', mkResponse StatusNoContent NoBody)
      end
  end.

(** [limit] and [offset] are what [c.QueryInt] returned. *)
Definition ListUsers (r : R) (limit offset : Z) : Response :=
  let limit := if limit <? 1 then 10 else limit in
  let limit := if 100 <? limit then 100 else limit in
  let offset := if offset <? 0 then 0 else offset in
  match Application.ListUsers r limit offset with
  | Err err => handleError err
  | Ok users => mkResponse StatusOK (ListBody (toUserListResponse users))
  end.

Definition ChangePassword (env : Env) (r : R) (id : option UUID)
    (body : option ChangePasswordRequest) : R * Response :=
  match id with
  | None => (r, invalid_id)
  | Some id =>
  match body with
  | None => (r, invalid_request)
  | Some req =>
      let dto := mkChangePasswordDTO (req_OldPassword req) (req_NewPassword req) in
      match Application.ChangePassword env r id dto with
      | (r', Some err) => (r', handleError err)
      | (r', None) => (r', mkResponse StatusOK (SuccessBody "Password changed successfully"))
      end
  end end.

End Handlers.

End Handler.

(* ------------------------------------------------------------------ *)
(** ** The transaction manager: [platform/database/transaction.go] *)

Module Database.
Import GoErrors.

(** How the pool and the transaction it hands out answer in one run: the
    error of [pool.Begin], of [tx.Rollback] and of [tx.Commit] ([None] is
    nil). *)
Record Pool : Type := mkPool {
  Begin_err : option error;
  Rollback_err : option error;
  Commit_err : option error
}.

(** The calls made on the pool and on the transaction, in order. *)
Inductive call : Type := Begin | Rollback | Commit | Invoke_fn.

(** How a Go call ends: it returns its error value, or it panics with a
    value. *)
Inductive outcome : Type :=
| Returns (err : option error)
| Panics (p : string).

(** [WithTransaction]: the calls it makes and how it ends.  [fn] is how the
    callback ends when it is invoked.  The deferred function runs only when
    [fn] panics; it rolls back, drops the rollback's error and panics again
    with the same value. *)
Definition WithTransaction (pool : Pool) (fn : outcome) : list call * outcome :=
  match Begin_err pool with
  | Some err => ([Begin], Returns (Some (fmt_Errorf "failed to begin transaction: " err "")))
  | None =>
      match fn with
      | Panics p => ([Begin; Invoke_fn; Rollback], Panics p)
      | Returns (Some err) =>
          match Rollback_err pool with
          | Some rbErr =>
              ([Begin; Invoke_fn; Rollback],
               Returns (Some (fmt_Errorf "failed to rollback transaction: " rbErr
                                (" (original error: " ++ Error err ++ ")"))))
          | None => ([Begin; Invoke_fn; Rollback], Returns (Some err))
          end
      | Returns None =>
          match Commit_err pool with
          | Some err =>
              ([Begin; Invoke_fn; Commit],
               Returns (Some (fmt_Errorf "failed to commit transaction: " err "")))
          | None => ([Begin; Invoke_fn; Commit], Returns None)
          end
      end
  end.

End Database.

(* ------------------------------------------------------------------ *)
(** ** Concrete inputs on which the program is run below *)

Module Fixtures.
Import GoString GoErrors Domain Application.

(** A stand-in for bcrypt with the two properties the package documents: a
    hash verifies against the password it was made from and against no
    other. *)
#[export] Instance plain_bcrypt : Bcrypt := {|
  GenerateFromPassword := fun _ password _ => Ok ("$2a$10$" ++ password);
  CompareHashAndPassword := fun hash password =>
    if String.eqb hash ("$2a$10$" ++ password) then None
    else Some (lib_error
                 "crypto/bcrypt: hashedPassword is not the hash of the given password")
|}.

Definition env1 : Env := mkEnv 1%N 1000 "salt-1".
Definition env2 : Env := mkEnv 2%N 2000 "salt-2".
Definition env3 : Env := mkEnv 3%N 3000 "salt-3".

Definition alice : CreateUserDTO := mkCreateUserDTO "a@x.com" "Alice" "password-a".
Definition bob : CreateUserDTO := mkCreateUserDTO "b@x.com" "Bob" "password-b".

Definition alice_row : Postgres.Row :=
  Postgres.mkRow 1%N "a@x.com" "Alice" "$2a$10$password-a" true 1000 1000.
Definition bob_row : Postgres.Row :=
  Postgres.mkRow 2%N "b@x.com" "Bob" "$2a$10$password-b" true 2000 2000.

(** The table after Alice and Bob have registered. *)
Definition two_users : Postgres.Table := [alice_row; bob_row].

(** The same table after [DeleteUser] of Alice at instant 3000. *)
Definition alice_deleted : Postgres.Table :=
  [Postgres.mkRow 1%N "a@x.com" "Alice" "$2a$10$password-a" false 1000 3000; bob_row].

End Fixtures.

(* ------------------------------------------------------------------ *)
(** ** Conditions on the table *)

Module TableConditions.
Import GoString GoErrors Domain.

(** Every stored address is one [NewEmail] accepts. *)
Definition emails_valid (t : Postgres.Table) : Prop :=
  forall r, In r t -> exists e, NewEmail (Postgres.email r) = Ok e.

(** A row as the use cases write it: the address is in the normal form
    [NewEmail] produces, and the three texts fit their columns. *)
Definition row_ok (r : Postgres.Row) : Prop :=
  NewEmail (Postgres.email r) = Ok (mkEmail (Postgres.email r)) /\
  (String.length (Postgres.email r) <= 255)%nat /\
  (String.length (Postgres.name r) <= 100)%nat /\
  (String.length (Postgres.password_hash r) <= 255)%nat.

(** The constraints the migration declares (primary key on [id], [UNIQUE]
    on [email]) together with [row_ok] for every row. *)
Definition well_formed (t : Postgres.Table) : Prop :=
  NoDup (map Postgres.id t) /\ NoDup (map Postgres.email t) /\ Forall row_ok t.

(** No other row holds the user's address. *)
Definition address_is_own (t : Postgres.Table) (u : User) : Prop :=
  forall r, In r t -> Postgres.email r = Value (Email_ u) -> Postgres.id r = ID u.

(** How a use case that rewrites the user [i] changes the table: not at
    all, or it first finds the user among the active rows and then hands
    [Update] a user of the same identifier whose address is in normal
    form. *)
Definition rewrites (t t' : Postgres.Table) (i : UUID) : Prop :=
  t' = t \/
  exists u u', Persistence.FindByID t i = Ok u /\ ID u' = ID u /\
               NewEmail (Value (Email_ u')) = Ok (Email_ u') /\
               t' = fst (Persistence.Update t u').

End TableConditions.

(* ------------------------------------------------------------------ *)
(** ** The service as a whole: its public methods as requests *)

Module ServiceInterface.
Import GoString GoErrors Persistence Domain Application.

(** One call of a public method of [UserService]. *)
Inductive request : Type :=
| CallCreateUser (dto : CreateUserDTO)
| CallGetUser (id : UUID)
| CallGetUserByEmail (email : string)
| CallUpdateUser (id : UUID) (dto : UpdateUserDTO)
| CallDeleteUser (id : UUID)
| CallActivateUser (id : UUID)
| CallDeactivateUser (id : UUID)
| CallChangePassword (id : UUID) (dto : ChangePasswordDTO)
| CallListUsers (limit offset : Z).

Section Serve.
Context {bcrypt : Bcrypt}.

(** The table a call leaves, over the SQLC-backed repository. *)
Definition serve (env : Env) (t : Postgres.Table) (req : request) : Postgres.Table :=
  match req with
  | CallCreateUser dto => fst (CreateUser env t dto)
  | CallGetUser _ => t
  | CallGetUserByEmail _ => t
  | CallUpdateUser id dto => fst (UpdateUser env t id dto)
  | CallDeleteUser id => fst (DeleteUser env t id)
  | CallActivateUser id => fst (ActivateUser env t id)
  | CallDeactivateUser id => fst (DeactivateUser env t id)
  | CallChangePassword id dto => fst (ChangePassword env t id dto)
  | CallListUsers _ _ => t
  end.

(** A run of calls, each with what it reads from outside. *)
Fixpoint serve_all (reqs : list (Env * request)) (t : Postgres.Table) : Postgres.Table :=
  match reqs with
  | [] => t
  | (env, req) :: rest => serve_all rest (serve env t req)
  end.

End Serve.

(** [i] is the identifier of a soft-deleted account: the table has a row
    with this [id], and no row with this [id] is active. *)
Definition soft_deleted (t : Postgres.Table) (i : UUID) : Prop :=
  (exists r, In r t /\ Postgres.id r = i) /\
  (forall r, In r t -> Postgres.id r = i -> Postgres.is_active r = false).

End ServiceInterface.

(* ------------------------------------------------------------------ *)
(** ** Tables that differ only in password hashes *)

Module Confidentiality.
Import GoString GoErrors Domain.

(** Two rows that agree on every column but [password_hash]. *)
Definition same_public (r1 r2 : Postgres.Row) : Prop :=
  Postgres.id r1 = Postgres.id r2 /\ Postgres.email r1 = Postgres.email r2 /\
  Postgres.name r1 = Postgres.name r2 /\ Postgres.is_active r1 = Postgres.is_active r2 /\
  Postgres.created_at r1 = Postgres.created_at r2 /\
  Postgres.updated_at r1 = Postgres.updated_at r2.

(** Two tables that agree, row by row, on every column but
    [password_hash]. *)
Definition same_public_table (t1 t2 : Postgres.Table) : Prop :=
  Forall2 same_public t1 t2.

End Confidentiality.

(* ------------------------------------------------------------------ *)
(** ** What a regular expression and a substring are *)

Module RegexpSemantics.
Import GoString Regexp.

(** The texts a regular expression denotes. *)
Inductive matches : regex -> string -> Prop :=
| MEps : matches Eps EmptyString
| MClass (p : ascii -> bool) (c : ascii) :
    p c = true -> matches (Class p) (String c EmptyString)
| MCat (a b : regex) (s t : string) :
    matches a s -> matches b t -> matches (Cat a b) (s ++ t)
| MAltL (a b : regex) (s : string) : matches a s -> matches (Alt a b) s
| MAltR (a b : regex) (s : string) : matches b s -> matches (Alt a b) s
| MStarNil (a : regex) : matches (Star a) EmptyString
| MStarApp (a : regex) (s t : string) :
    matches a s -> matches (Star a) t -> matches (Star a) (s ++ t).

(** Every byte of the text is in the class. *)
Fixpoint all_in (p : ascii -> bool) (s : string) : bool :=
  match s with
  | EmptyString => true
  | String c r => p c && all_in p r
  end.

(** How often the byte occurs in the text. *)
Fixpoint count_byte (c : ascii) (s : string) : nat :=
  match s with
  | EmptyString => O
  | String d r => (if Ascii.eqb c d then 1 else 0) + count_byte c r
  end.

(** The shape [local@domain.tld]: a non-empty local part, a non-empty domain
    and at least two letters after the last dot. *)
Definition email_shape (s : string) : Prop :=
  exists l d t : string,
    s = l ++ "@" ++ d ++ "." ++ t /\
    l <> EmptyString /\ all_in Domain.local_class l = true /\
    d <> EmptyString /\ all_in Domain.domain_class d = true /\
    (2 <= String.length t)%nat /\ all_in Domain.alpha_class t = true.

(** [sub] occurs in [s]. *)
Definition is_substring (sub s : string) : Prop :=
  exists p q : string, s = p ++ sub ++ q.

End RegexpSemantics.

(* ------------------------------------------------------------------ *)
(** ** The bytes of an accepted address *)

Module AddressBytes.
Import GoString.

(** A lower-case letter, a digit or one of [. _ % + - @]. *)
Definition address_byte (c : ascii) : bool :=
  is_lower c || is_digit c ||
  Ascii.eqb c "." || Ascii.eqb c "_" || Ascii.eqb c "%" || Ascii.eqb c "+" ||
  Ascii.eqb c "-" || Ascii.eqb c "@".

End AddressBytes.

(* ------------------------------------------------------------------ *)
(** ** Rows and outcomes, for stating what the use cases do *)

Module Outcomes.
Import GoString GoErrors Persistence Domain Application ServiceInterface.


Section ServeError.
Context {bcrypt : Bcrypt}.

(** The error a call returns, [None] when it succeeds. *)
Definition error_of {T : Type} (r : result T) : option error :=
  match r with
  | Ok _ => None
  | Err e => Some e
  end.

Definition serve_error (env : Env) (t : Postgres.Table) (req : request) : option error :=
  match req with
  | CallCreateUser dto => error_of (snd (CreateUser env t dto))
  | CallGetUser id => error_of (GetUser t id)
  | CallGetUserByEmail email => error_of (GetUserByEmail t email)
  | CallUpdateUser id dto => error_of (snd (UpdateUser env t id dto))
  | CallDeleteUser id => snd (DeleteUser env t id)
  | CallActivateUser id => error_of (snd (ActivateUser env t id))
  | CallDeactivateUser id => error_of (snd (DeactivateUser env t id))
  | CallChangePassword id dto => snd (ChangePassword env t id dto)
  | CallListUsers limit offset => error_of (ListUsers t limit offset)
  end.

End ServeError.

End Outcomes.

(* ------------------------------------------------------------------ *)
(** ** Order of a page *)

Module PageOrder.
Import Application.

(** Row [a] was created no earlier than row [b]. *)
Definition newer_or_same (a b : Postgres.Row) : Prop :=
  Postgres.created_at b <= Postgres.created_at a.

(** Newest first: no user object is followed, anywhere later in the list, by
    one created after it. *)
Definition newest_first (l : list UserResponseDTO) : Prop :=
  StronglySorted (fun a b => dto_CreatedAt b <= dto_CreatedAt a) l.

(** No two active rows were created at the same instant, so that
    [ORDER BY created_at] leaves no choice. *)
Definition distinct_instants (t : Postgres.Table) : Prop :=
  NoDup (map Postgres.created_at (filter Postgres.is_active t)).

End PageOrder.

(* ------------------------------------------------------------------ *)
(** ** The routes of [handler/routes.go] *)

Module Routes.
Import GoString GoErrors Persistence Domain Application.

(** One request to a route [RegisterRoutes] registers, after Fiber has
    matched method and path: the body as [c.BodyParser] read it, the path
    parameter as [uuid.Parse] read it, the query parameters as [c.QueryInt]
    read them. *)
Inductive http_request : Type :=
| POST_users (body : option Handler.CreateUserRequest)
| GET_users (limit offset : Z)
| GET_users_id (id : option UUID)
| PUT_users_id (id : option UUID) (body : option Handler.UpdateUserRequest)
| DELETE_users_id (id : option UUID)
| POST_users_id_password (id : option UUID) (body : option Handler.ChangePasswordRequest).

Section Dispatch.
Context {bcrypt : Bcrypt}.

(** [RegisterRoutes]: the handler each route runs, over the SQLC-backed
    repository; the table after the request and the response. *)
Definition RegisterRoutes (env : Env) (t : Postgres.Table) (req : http_request)
  : Postgres.Table * Handler.Response :=
  match req with
  | POST_users body => Handler.CreateUser env t body
  | GET_users limit offset => (t, Handler.ListUsers t limit offset)
  | GET_users_id id => (t, Handler.GetUser t id)
  | PUT_users_id id body => Handler.UpdateUser env t id body
  | DELETE_users_id id => Handler.DeleteUser env t id
  | POST_users_id_password id body => Handler.ChangePassword env t id body
  end.

End Dispatch.

End Routes.

(* ------------------------------------------------------------------ *)
(** ** The entity's own check *)

Module Entity.
Import GoString GoErrors Domain.

(** [uuid.Nil]: the UUID of all zero bytes. *)
Definition uuid_Nil : UUID := 0%N.

(** [func (u *User) Validate() error] *)
Definition Validate (u : User) : option error :=
  if N.eqb (ID u) uuid_Nil then Some (errors_New "user ID cannot be nil")
  else if String.eqb (Value (Email_ u)) EmptyString then
    Some (errors_New "email cannot be empty")
  else if String.eqb (Name u) EmptyString then Some (errors_New "name cannot be empty")
  else if String.eqb (PasswordHash u) EmptyString then
    Some (errors_New "password hash cannot be empty")
  else None.

End Entity.

(* ------------------------------------------------------------------ *)
(** ** The platform layer: configuration *)

Module Strconv.
Import GoString.

(** The two ways [strconv.ParseInt] fails: [strconv.ErrSyntax] and
    [strconv.ErrRange], the [Err] field of the [*NumError] it returns. *)
Inductive NumError : Type := ErrSyntax | ErrRange.

Inductive parsed : Type :=
| Parsed (n : Z)
| Failed (err : NumError).

Definition digit_value (c : ascii) : Z := Z.of_N (N_of_ascii c) - 48.

(** The loop of [strconv.ParseUint(s, 10, 32)]: [n] is the value read so
    far.  A byte that is no decimal digit is a syntax error; a value above
    [1<<32 - 1] is a range error, reported at the digit that exceeds it. *)
Fixpoint parse_digits (n : Z) (s : string) : parsed :=
  match s with
  | EmptyString => Parsed n
  | String c rest =>
      if is_digit c then
        let n1 := n * 10 + digit_value c in
        if 2 ^ 32 - 1 <? n1 then Failed ErrRange else parse_digits n1 rest
      else Failed ErrSyntax
  end.

Definition ParseUint_10_32 (s : string) : parsed :=
  if String.eqb s EmptyString then Failed ErrSyntax else parse_digits 0 s.

(** [strconv.ParseInt(s, 10, 32)]: an optional sign, then [ParseUint];
    without a sign the value must be below [1<<31], with [-] at most
    [1<<31]. *)
Definition ParseInt_10_32 (s : string) : parsed :=
  match s with
  | EmptyString => Failed ErrSyntax
  | String c rest =>
      let neg := Ascii.eqb c "-" in
      let s := if Ascii.eqb c "+" || Ascii.eqb c "-" then rest else s in
      match ParseUint_10_32 s with
      | Failed err => Failed err
      | Parsed un =>
          if negb neg && (2 ^ 31 <=? un) then Failed ErrRange
          else if neg && (2 ^ 31 <? un) then Failed ErrRange
          else Parsed (if neg then - un else un)
      end
  end.

End Strconv.

Module Config.
Import GoString GoErrors GoInt Strconv.

Record AppConfig : Type := mkAppConfig {
  Environment : string;
  App_Port : string
}.

Record DatabaseConfig : Type := mkDatabaseConfig {
  Host : string;
  Port : string;
  User : string;
  Password : string;
  DBName : string;
  SSLMode : string;
  MaxConns : Z;
  MinConns : Z;
  MaxConnLifetime : Z;
  MaxConnIdleTime : Z
}.

Record LoggerConfig : Type := mkLoggerConfig {
  Level : string
}.

Record Config : Type := mkConfig {
  App : AppConfig;
  Database : DatabaseConfig;
  Logger : LoggerConfig
}.

(** [func (c *Config) Validate() error] *)
Definition Validate (c : Config) : option error :=
  if String.eqb (Host (Database c)) EmptyString then
    Some (errors_New "database host is required")
  else if String.eqb (Port (Database c)) EmptyString then
    Some (errors_New "database port is required")
  else if String.eqb (User (Database c)) EmptyString then
    Some (errors_New "database user is required")
  else if String.eqb (DBName (Database c)) EmptyString then
    Some (errors_New "database name is required")
  else if String.eqb (App_Port (App c)) EmptyString then
    Some (errors_New "application port is required")
  else None.

Definition IsDevelopment (c : Config) : bool :=
  String.eqb (Environment (App c)) "development".

Definition IsProduction (c : Config) : bool :=
  String.eqb (Environment (App c)) "production".

(** [fmt.Sprintf("postgres://%s:%s@%s:%s/%s?sslmode=%s", ...)] *)
Definition GetDatabaseURL (c : Config) : string :=
  "postgres://" ++ User (Database c) ++ ":" ++ Password (Database c) ++ "@" ++
  Host (Database c) ++ ":" ++ Port (Database c) ++ "/" ++ DBName (Database c) ++
  "?sslmode=" ++ SSLMode (Database c).

Section Environment.

(** [os.Getenv] once [godotenv.Load] has run: the value of a variable, the
    empty string when it is not set.  [time.ParseDuration] of the standard
    library, a duration being a number of nanoseconds. *)
Variable Getenv : string -> string.
Variable ParseDuration : string -> result Z.

Definition getEnv (key defaultValue : string) : string :=
  let value := Getenv key in
  if negb (String.eqb value EmptyString) then value else defaultValue.

Definition getEnvAsInt32 (key : string) (defaultValue : Z) : Z :=
  let valueStr := Getenv key in
  if String.eqb valueStr EmptyString then defaultValue
  else
    match ParseInt_10_32 valueStr with
    | Failed _ => defaultValue
    | Parsed value => int32 value
    end.

(** When parsing fails [time.ParseDuration] returns the zero duration with
    its error, so a default that does not parse either leaves zero. *)
Definition getEnvAsDuration (key defaultValue : string) : Z :=
  let valueStr := Getenv key in
  let valueStr := if String.eqb valueStr EmptyString then defaultValue else valueStr in
  match ParseDuration valueStr with
  | Ok duration => duration
  | Err _ =>
      match ParseDuration defaultValue with
      | Ok duration => duration
      | Err _ => 0
      end
  end.

Definition Load : result Config :=
  let cfg :=
    mkConfig
      (mkAppConfig (getEnv "APP_ENV" "development") (getEnv "APP_PORT" "3000"))
      (mkDatabaseConfig
         (getEnv "DB_HOST" "localhost")
         (getEnv "DB_PORT" "5432")
         (getEnv "DB_USER" "postgres")
         (getEnv "DB_PASSWORD" "postgres")
         (getEnv "DB_NAME" "go_ddd_starter")
         (getEnv "DB_SSLMODE" "disable")
         (getEnvAsInt32 "DB_MAX_CONNS" 25)
         (getEnvAsInt32 "DB_MIN_CONNS" 5)
         (getEnvAsDuration "DB_MAX_CONN_LIFETIME" "1h")
         (getEnvAsDuration "DB_MAX_CONN_IDLE_TIME" "30m"))
      (mkLoggerConfig (getEnv "LOG_LEVEL" "info")) in
  match Validate cfg with
  | Some err => Err (fmt_Errorf "invalid configuration: " err "")
  | None => Ok cfg
  end.

End Environment.

(** The positional value of a string of decimal digits. *)
Fixpoint decimal_from (n : Z) (s : string) : Z :=
  match s with
  | EmptyString => n
  | String c rest => decimal_from (n * 10 + digit_value c) rest
  end.

Definition decimal_value (s : string) : Z := decimal_from 0 s.

Fixpoint all_digits (s : string) : bool :=
  match s with
  | EmptyString => true
  | String c rest => is_digit c && all_digits rest
  end.

End Config.

(* ------------------------------------------------------------------ *)
(** ** Rows that map to valid entities *)

Module StoredRows.
Import GoString GoErrors Domain Entity.

(** What [Validate] asks of a user, said of the row it is read from (the
    address is checked when the row is mapped). *)
Definition row_valid (r : Postgres.Row) : Prop :=
  Postgres.id r <> uuid_Nil /\ Postgres.name r <> EmptyString /\
  Postgres.password_hash r <> EmptyString.

End StoredRows.

(* ------------------------------------------------------------------ *)
(** ** Texts and the limits of the columns *)

Module Columns.
Import GoString RegexpSemantics.

(** A text of bytes below 128 only.  The limit of a [VARCHAR(n)] column
    counts characters; for such a text they are its bytes. *)
Definition ascii_text (s : string) : bool :=
  all_in (fun c => (nat_of_ascii c <? 128)%nat) s.

(** A name of 101 bytes, for the examples. *)
Definition name_101 : string :=
  "Anna-Maria Catharina Wilhelmina van der Heijden-Oosterhuis tot Nederhorst den Berg en Ankeveen, junior".

End Columns.

(* ------------------------------------------------------------------ *)
(** ** Letters that Unicode links with a letter below 128 *)

Module UnicodeCase.
Import GoString.






End UnicodeCase.

(* ------------------------------------------------------------------ *)
(** ** Users and tables that differ only in password hashes *)

Module HashSecrecy.
Import GoString GoErrors Domain Application Confidentiality.

(** Two users that agree on every field but [PasswordHash]. *)
Definition same_public_user (u1 u2 : User) : Prop :=
  ID u1 = ID u2 /\ Email_ u1 = Email_ u2 /\ Name u1 = Name u2 /\
  IsActive u1 = IsActive u2 /\ CreatedAt u1 = CreatedAt u2 /\
  UpdatedAt u1 = UpdatedAt u2.

(** A hash of at most 255 bytes: the column [password_hash VARCHAR(255)]
    keeps it as it is. *)
Definition hash_fits (h : string) : Prop := (String.length h <= 255)%nat.

(** Every stored hash is such a hash. *)
Definition hashes_fit (t : Postgres.Table) : Prop :=
  Forall (fun r => hash_fits (Postgres.password_hash r)) t.

(** Two tables that differ only in password hashes. *)
Definition alike (t1 t2 : Postgres.Table) : Prop :=
  same_public_table t1 t2 /\ hashes_fit t1 /\ hashes_fit t2.

(** A hash that [NewUser] takes and the column keeps as it is. *)
Definition storable (h : string) : Prop := h <> EmptyString /\ hash_fits h.

(** Two answers of [hashPassword] that differ only in the hash: two hashes
    of that kind, or the same error. *)
Definition hashes_alike (r1 r2 : result string) : Prop :=
  match r1, r2 with
  | Ok h1, Ok h2 => storable h1 /\ storable h2
  | Err e1, Err e2 => e1 = e2
  | _, _ => False
  end.

(** Two calls that are given the same identifier and the same instant; what
    bcrypt draws may differ. *)
Definition same_draw (env1 env2 : Env) : Prop :=
  uuid_New env1 = uuid_New env2 /\ time_Now env1 = time_Now env2.

(** A stand-in for bcrypt whose hash depends on what it draws. *)
Definition salted_bcrypt : Bcrypt := {|
  GenerateFromPassword := fun salt password _ => Ok ("$2a$10$" ++ salt ++ password);
  CompareHashAndPassword := fun hash password =>
    if String.eqb (slice 0 7 hash) "$2a$10$" &&
       String.eqb (slice (String.length hash - String.length password)
                         (String.length hash) hash) password
    then None
    else Some (lib_error
                 "crypto/bcrypt: hashedPassword is not the hash of the given password")
|}.

(** [Fixtures.two_users] with other hashes. *)
Definition two_users_rehashed : Postgres.Table :=
  [Postgres.mkRow 1%N "a@x.com" "Alice" "$2a$10$salt-9password-a" true 1000 1000;
   Postgres.mkRow 2%N "b@x.com" "Bob" "$2a$12$another-hash-of-bob" true 2000 2000].

(** A third registration, and the call of [Fixtures.env3] with another draw
    of bcrypt. *)
Definition carol : CreateUserDTO := mkCreateUserDTO "c@x.com" "Carol" "password-c".
Definition env3_resalted : Env := mkEnv 3%N 3000 "salt-4".

End HashSecrecy.

(* ================================================================== *)
(** * Properties *)

(* ------------------------------------------------------------------ *)
(** ** Strings: case and white space *)

Module GoStringFacts.
Import GoString.

Lemma lower_byte_space (c : ascii) : is_space (lower_byte c) = is_space c.
Proof. destruct c as [[] [] [] [] [] [] [] []]; reflexivity. Qed.

Lemma lower_byte_idem (c : ascii) : lower_byte (lower_byte c) = lower_byte c.
Proof. destruct c as [[] [] [] [] [] [] [] []]; reflexivity. Qed.

Lemma space_lower_byte (c : ascii) : is_space c = true -> lower_byte c = c.
Proof. destruct c as [[] [] [] [] [] [] [] []]; simpl; intros H; try reflexivity; discriminate H. Qed.

Lemma app_assoc (a b c : string) : (a ++ b) ++ c = a ++ (b ++ c).
Proof. induction a as [|x a IH]; simpl; [reflexivity | now rewrite IH]. Qed.

Lemma app_empty_r (a : string) : a ++ EmptyString = a.
Proof. induction a as [|x a IH]; simpl; [reflexivity | now rewrite IH]. Qed.

Lemma ToLower_app (a b : string) : ToLower (a ++ b) = ToLower a ++ ToLower b.
Proof. induction a as [|x a IH]; simpl; [reflexivity | now rewrite IH]. Qed.

Lemma ToLower_idem (s : string) : ToLower (ToLower s) = ToLower s.
Proof.
  induction s as [|c s IH]; simpl; [reflexivity|].
  now rewrite lower_byte_idem, IH.
Qed.

Lemma ToLower_all_space (w : string) : all_space w = true -> ToLower w = w.
Proof.
  induction w as [|c w IH]; simpl; [reflexivity|].
  intros H. apply andb_true_iff in H as [Hc Hw].
  now rewrite (space_lower_byte c Hc), (IH Hw).
Qed.

Lemma EqualFold_ToLower (s t : string) : EqualFold s t = true -> ToLower s = ToLower t.
Proof.
  revert t. induction s as [|c s IH]; intros [|d t]; simpl; try discriminate; [reflexivity|].
  intros H. apply andb_true_iff in H as [Hc Hs].
  apply Ascii.eqb_eq in Hc. now rewrite Hc, (IH t Hs).
Qed.

Lemma ToLower_EqualFold (s t : string) : ToLower s = ToLower t -> EqualFold s t = true.
Proof.
  revert t. induction s as [|c s IH]; intros [|d t]; simpl; try discriminate; [reflexivity|].
  intros H. injection H as Hc Hs.
  rewrite Hc, Ascii.eqb_refl. simpl. now apply IH.
Qed.

Lemma TrimLeft_app_space (w s : string) :
  all_space w = true -> TrimLeft (w ++ s) = TrimLeft s.
Proof.
  induction w as [|c w IH]; simpl; [reflexivity|].
  intros H. apply andb_true_iff in H as [Hc Hw].
  now rewrite Hc, (IH Hw).
Qed.

Lemma TrimLeft_all_space (w : string) : all_space w = true -> TrimLeft w = EmptyString.
Proof.
  intros H. rewrite <- (app_empty_r w). now rewrite TrimLeft_app_space.
Qed.

Lemma TrimRight_all_space (w : string) : all_space w = true -> TrimRight w = EmptyString.
Proof.
  induction w as [|c w IH]; simpl; [reflexivity|].
  intros H. apply andb_true_iff in H as [Hc Hw].
  now rewrite (IH Hw), Hc.
Qed.

Lemma TrimRight_app_space (s w : string) :
  all_space w = true -> TrimRight (s ++ w) = TrimRight s.
Proof.
  intros Hw. induction s as [|c s IH]; simpl.
  - now apply TrimRight_all_space.
  - now rewrite IH.
Qed.

Lemma TrimSpace_app_space_r (s w : string) :
  all_space w = true -> TrimSpace (s ++ w) = TrimSpace s.
Proof.
  intros Hw. unfold TrimSpace. induction s as [|c s IH]; simpl.
  - now rewrite (TrimLeft_all_space w Hw).
  - destruct (is_space c); [exact IH|].
    change (String c (s ++ w)) with (String c s ++ w).
    now apply TrimRight_app_space.
Qed.

Lemma TrimSpace_pad (l s r : string) :
  all_space l = true -> all_space r = true -> TrimSpace (l ++ s ++ r) = TrimSpace s.
Proof.
  intros Hl Hr. unfold TrimSpace at 1. rewrite (TrimLeft_app_space l _ Hl).
  now apply TrimSpace_app_space_r.
Qed.

Lemma TrimLeft_ToLower (s : string) : TrimLeft (ToLower s) = ToLower (TrimLeft s).
Proof.
  induction s as [|c s IH]; simpl; [reflexivity|].
  rewrite lower_byte_space. destruct (is_space c); [exact IH | reflexivity].
Qed.

Lemma TrimRight_ToLower (s : string) : TrimRight (ToLower s) = ToLower (TrimRight s).
Proof.
  induction s as [|c s IH]; simpl; [reflexivity|].
  rewrite IH, lower_byte_space.
  destruct (TrimRight s); simpl; [destruct (is_space c)|]; reflexivity.
Qed.

(** Lower-casing and trimming commute, so "the trimmed, lower-cased text"
    names one text. *)
Lemma TrimSpace_ToLower (s : string) : TrimSpace (ToLower s) = ToLower (TrimSpace s).
Proof. unfold TrimSpace. now rewrite TrimLeft_ToLower, TrimRight_ToLower. Qed.

(** The normal form [NewEmail] computes is the same for two texts that differ
    only in case and surrounding white space. *)
Lemma canonical_eq (a b : string) :
  differ_only_in_case_and_space a b -> TrimSpace (ToLower a) = TrimSpace (ToLower b).
Proof.
  intros (la & ca & ra & lb & cb & rb & -> & -> & Hla & Hra & Hlb & Hrb & Hc).
  rewrite !TrimSpace_ToLower, !TrimSpace_pad by assumption.
  rewrite <- !TrimSpace_ToLower. now rewrite (EqualFold_ToLower _ _ Hc).
Qed.

End GoStringFacts.

(* ------------------------------------------------------------------ *)
(** ** The Email value object *)

Module DomainFacts.
Import GoString GoStringFacts Regexp GoErrors Domain.

(** [NewEmail] is a function of the trimmed, lower-cased input. *)
Lemma NewEmail_canonical_arg (a b : string) :
  TrimSpace (ToLower a) = TrimSpace (ToLower b) -> NewEmail a = NewEmail b.
Proof. unfold NewEmail. now intros ->. Qed.

Lemma NewEmail_value (s : string) (e : Email) :
  NewEmail s = Ok e -> value e = TrimSpace (ToLower s).
Proof.
  unfold NewEmail.
  destruct (String.eqb _ _); [discriminate|].
  destruct (negb _); [discriminate|].
  now intros [= <-].
Qed.

Lemma NewEmail_error (s : string) (err : error) :
  NewEmail s = Err err -> err = ErrInvalidEmail.
Proof.
  unfold NewEmail.
  destruct (String.eqb _ _); [now intros [= <-]|].
  destruct (negb _); [now intros [= <-] | discriminate].
Qed.


End DomainFacts.

(* ------------------------------------------------------------------ *)
(** ** The transaction manager *)

Module DatabaseFacts.
Import GoErrors Database.


(** C4, as the claim states it, fails: with a rollback that fails, the
    error [WithTransaction] returns is not the one [fn] returned, and
    [errors.Is] does not find [fn]'s error in it. *)
Lemma WithTransaction_rollback_failure_counterexample :
  let pool := mkPool None (Some (lib_error "conn closed")) None in
  let result := snd (WithTransaction pool (Returns (Some ErrUserNotFound))) in
  result <> Returns (Some ErrUserNotFound) /\
  result =
    Returns (Some (fmt_Errorf "failed to rollback transaction: "
                     (lib_error "conn closed")
                     " (original error: user not found)")) /\
  (forall e, result = Returns (Some e) -> errors_Is e ErrUserNotFound = false).
Proof.
  cbv zeta. split; [discriminate|]. split; [reflexivity|].
  intros e [= <-]. reflexivity.
Qed.

(** C4, amended.  Once the transaction has begun, [WithTransaction] invokes
    [fn] once and then:
    - if [fn] returns nil it commits (no rollback) and returns nil when the
      commit succeeds, and the commit's error wrapped otherwise;
    - if [fn] returns an error it rolls back (no commit) and returns that
      very error when the rollback succeeds; when the rollback fails it
      returns a new error that wraps the rollback's error and carries
      [fn]'s error only as text in its message;
    - if [fn] panics it rolls back and panics again with the same value. *)
Theorem WithTransaction_outcomes (pool : Pool) (fn : outcome) :
  Begin_err pool = None ->
  match fn with
  | Returns None =>
      fst (WithTransaction pool fn) = [Begin; Invoke_fn; Commit] /\
      (Commit_err pool = None -> snd (WithTransaction pool fn) = Returns None) /\
      (forall ce, Commit_err pool = Some ce ->
         snd (WithTransaction pool fn) =
         Returns (Some (fmt_Errorf "failed to commit transaction: " ce "")))
  | Returns (Some err) =>
      fst (WithTransaction pool fn) = [Begin; Invoke_fn; Rollback] /\
      (Rollback_err pool = None ->
         snd (WithTransaction pool fn) = Returns (Some err)) /\
      (forall rbErr, Rollback_err pool = Some rbErr ->
         snd (WithTransaction pool fn) =
         Returns (Some (fmt_Errorf "failed to rollback transaction: " rbErr
                          (" (original error: " ++ Error err ++ ")"))) /\
         forall target,
           errors_Is (fmt_Errorf "failed to rollback transaction: " rbErr
                        (" (original error: " ++ Error err ++ ")")) target =
           errors_Is rbErr target)
  | Panics p =>
      WithTransaction pool fn = ([Begin; Invoke_fn; Rollback], Panics p)
  end.
Proof.
  intros Hb. unfold WithTransaction. rewrite Hb.
  destruct fn as [[err|]|p].
  - destruct (Rollback_err pool) as [rb|]; simpl; split; try reflexivity; split.
    + discriminate.
    + intros rb' [= <-]. split; [reflexivity|]. intros target. simpl. now destruct target.
    + reflexivity.
    + discriminate.
  - destruct (Commit_err pool) as [ce|]; simpl; split; try reflexivity; split.
    + discriminate.
    + now intros ce' [= <-].
    + reflexivity.
    + discriminate.
  - reflexivity.
Qed.

Lemma WithTransaction_outcomes_witness :
  snd (WithTransaction (mkPool None None None) (Returns (Some ErrUserNotFound))) =
  Returns (Some ErrUserNotFound).
Proof.
  exact (proj1 (proj2 (WithTransaction_outcomes (mkPool None None None)
                         (Returns (Some ErrUserNotFound)) eq_refl)) eq_refl).
Defined.

End DatabaseFacts.

(* ------------------------------------------------------------------ *)
(** ** The use cases, over any repository *)

Module ServiceFacts.
Import GoString GoErrors GoInt Persistence Domain Application Fixtures.

Section AnyRepository.
Context {R : Type} {userRepo : UserRepository R} {bcrypt : Bcrypt}.

(** C7.  When the repository finds the user and the old password does not
    verify against the stored hash, [ChangePassword] returns
    [ErrInvalidPassword] whatever the new password is (so before the new
    password's length is looked at), and the store it leaves is the store it
    was given: no [Update] is made and the user read back is the same, stored
    hash included. *)
Theorem ChangePassword_wrong_old_password
    (env : Env) (r : R) (id : UUID) (dto : ChangePasswordDTO) (u : User) (e : error) :
  FindByID r id = Ok u ->
  CompareHashAndPassword (PasswordHash u) (OldPassword dto) = Some e ->
  ChangePassword env r id dto = (r, Some ErrInvalidPassword) /\
  FindByID (fst (ChangePassword env r id dto)) id = Ok u.
Proof.
  intros Hfind Hcmp.
  assert (H : ChangePassword env r id dto = (r, Some ErrInvalidPassword)).
  { unfold ChangePassword, verifyPassword. now rewrite Hfind, Hcmp. }
  split; [exact H|]. now rewrite H.
Qed.

(** The length of the new password is looked at once the old one has
    verified. *)
Lemma ChangePassword_short_new_password
    (env : Env) (r : R) (id : UUID) (dto : ChangePasswordDTO) (u : User) :
  FindByID r id = Ok u ->
  CompareHashAndPassword (PasswordHash u) (OldPassword dto) = None ->
  len (NewPassword dto) < 8 ->
  ChangePassword env r id dto =
  (r, Some (errors_New "password must be at least 8 characters")).
Proof.
  intros Hfind Hcmp Hlen.
  unfold ChangePassword, verifyPassword, validatePassword.
  rewrite Hfind, Hcmp.
  now destruct (Z.ltb_spec (len (NewPassword dto)) 8); [|lia].
Qed.




(** Input that passes the three emptiness tests and has a password of fewer
    than eight bytes is turned down with a plain [errors.New] value. *)
Lemma CreateUser_short_password env (r : R) dto :
  cu_Email dto <> EmptyString -> cu_Name dto <> EmptyString ->
  cu_Password dto <> EmptyString -> len (cu_Password dto) < 8 ->
  CreateUser env r dto = (r, Err (errors_New "password must be at least 8 characters")).
Proof.
  intros He Hn Hp Hl. unfold CreateUser, validateCreateUserInput, validatePassword.
  destruct (String.eqb_spec (cu_Email dto) EmptyString); [contradiction|].
  destruct (String.eqb_spec (cu_Name dto) EmptyString); [contradiction|].
  destruct (String.eqb_spec (cu_Password dto) EmptyString); [contradiction|].
  now destruct (Z.ltb_spec (len (cu_Password dto)) 8); [|lia].
Qed.

Lemma CreateUser_empty_name env (r : R) dto :
  cu_Email dto <> EmptyString -> cu_Name dto = EmptyString ->
  CreateUser env r dto = (r, Err (errors_New "name is required")).
Proof.
  intros He Hn. unfold CreateUser, validateCreateUserInput.
  destruct (String.eqb_spec (cu_Email dto) EmptyString); [contradiction|].
  now rewrite Hn.
Qed.

End AnyRepository.

Lemma ChangePassword_wrong_old_password_witness :
  ChangePassword env3 two_users 1%N (mkChangePasswordDTO "wrong" "short") =
  (two_users, Some ErrInvalidPassword).
Proof.
  refine (proj1 (ChangePassword_wrong_old_password env3 two_users 1%N
                   (mkChangePasswordDTO "wrong" "short") _ _ _ _));
    reflexivity.
Defined.

End ServiceFacts.

(* ------------------------------------------------------------------ *)
(** ** The handlers' error mapping *)

Module HandlerFacts.
Import GoString GoErrors Persistence Domain Application Fixtures ServiceFacts.

(** An error made by [errors.New] matches no case of [handleError]. *)
Lemma handleError_errors_New (text : string) :
  Handler.handleError (errors_New text) = Handler.internal_error.
Proof. reflexivity. Qed.

Section AnyRepository.
Context {R : Type} {userRepo : UserRepository R} {bcrypt : Bcrypt}.

(** C3 on the code.  A [POST /users] body whose address is present and whose
    name is empty, or whose name and password are present with a password of
    fewer than eight bytes, is turned down by the service with a plain
    [errors.New] value, which matches no case of [handleError]: the handler
    answers with status 500 and the [internal_error] body, not with status
    400, and the store is left as it is. *)
Theorem CreateUser_validation_failure_is_500 env (r : R) req :
  Handler.req_Email req <> EmptyString ->
  (Handler.req_Name req = EmptyString \/
   Handler.req_Name req <> EmptyString /\ Handler.req_Password req <> EmptyString /\
   len (Handler.req_Password req) < 8) ->
  (exists text,
     CreateUser env r
       (mkCreateUserDTO (Handler.req_Email req) (Handler.req_Name req)
                        (Handler.req_Password req)) =
     (r, Err (errors_New text))) /\
  Handler.CreateUser env r (Some req) =
  (r, Handler.mkResponse Handler.StatusInternalServerError
        (Handler.ErrorBody
           (Handler.mkErrorResponse "internal_error" "An internal error occurred"))).
Proof.
  intros He [Hn|(Hn & Hp & Hl)]; unfold Handler.CreateUser.
  - rewrite CreateUser_empty_name by assumption. split; [eauto | reflexivity].
  - rewrite CreateUser_short_password by assumption. split; [eauto | reflexivity].
Qed.

End AnyRepository.

Lemma CreateUser_validation_failure_is_500_witness :
  Handler.CreateUser env1 ([] : Postgres.Table)
    (Some (Handler.mkCreateUserRequest "a@x.com" "Alice" "short")) =
  ([], Handler.mkResponse 500
         (Handler.ErrorBody
            (Handler.mkErrorResponse "internal_error" "An internal error occurred"))).
Proof.
  refine (proj2 (CreateUser_validation_failure_is_500 env1 ([] : Postgres.Table)
                   (Handler.mkCreateUserRequest "a@x.com" "Alice" "short") _ _)).
  - discriminate.
  - right. split; [discriminate|]. split; [discriminate|]. reflexivity.
Defined.

End HandlerFacts.

(* ------------------------------------------------------------------ *)
(** ** Machine integers *)

Module GoIntFacts.
Import GoInt.

Lemma wrap64_small (z : Z) : is_int z -> wrap64 z = z.
Proof.
  unfold is_int, int_min, int_max, wrap64. intros H.
  rewrite Z.mod_small; lia.
Qed.

Lemma int32_small (z : Z) : - 2 ^ 31 <= z < 2 ^ 31 -> int32 z = z.
Proof. unfold int32. intros H. rewrite Z.mod_small; lia. Qed.

(** An offset near the top of [int], where adding a page size of at most 100
    would wrap, has low 32 bits that read as a negative [int32]. *)
Lemma int32_nonneg_room (o l : Z) :
  0 <= o <= int_max -> 1 <= l <= 100 -> 0 <= int32 o -> o + l <= int_max.
Proof.
  unfold int_max, int32. intros Ho Hl H32.
  change (2 ^ 63) with (2 ^ 32 * 2 ^ 31) in *.
  destruct (Z.le_gt_cases (o + l) (2 ^ 32 * 2 ^ 31 - 1)) as [|Hgt]; [assumption|exfalso].
  set (k := 2 ^ 32 * 2 ^ 31 - o) in *.
  assert (Hk : 1 <= k <= 100) by (unfold k; lia).
  replace (o + 2 ^ 31) with (2 ^ 31 - k + 2 ^ 31 * 2 ^ 32) in H32 by (unfold k; lia).
  rewrite Z.mod_add in H32 by lia.
  rewrite Z.mod_small in H32; lia.
Qed.

End GoIntFacts.

(* ------------------------------------------------------------------ *)
(** ** The table and the queries *)

Module PostgresFacts.
Import GoString GoErrors Domain Postgres TableConditions.

Lemma In_insert_desc (r x : Row) (l : list Row) :
  In r (insert_desc x l) -> r = x \/ In r l.
Proof.
  induction l as [|y l IH]; simpl.
  - intros [<-|[]]. now left.
  - destruct (created_at y <? created_at x); simpl.
    + intros [<-|[<-|H]]; auto.
    + intros [<-|H]; auto. destruct (IH H); auto.
Qed.

Lemma In_order_by (r : Row) (l : list Row) :
  In r (order_by_created_at_desc l) -> In r l.
Proof.
  unfold order_by_created_at_desc. induction l as [|x l IH]; simpl; [tauto|].
  intros H. apply In_insert_desc in H as [->|H]; auto.
Qed.

Lemma In_firstn {A} (x : A) (n : nat) (l : list A) : In x (firstn n l) -> In x l.
Proof.
  intros H. rewrite <- (firstn_skipn n l). apply in_or_app. now left.
Qed.

Lemma In_skipn {A} (x : A) (n : nat) (l : list A) : In x (skipn n l) -> In x l.
Proof.
  intros H. rewrite <- (firstn_skipn n l). apply in_or_app. now right.
Qed.

(** The rows of a page are active rows of the table. *)
Lemma ListUsers_rows (t : Table) (limit offset : Z) (rows : list Row) :
  ListUsers t limit offset = Ok rows ->
  forall r, In r rows -> In r t /\ is_active r = true.
Proof.
  unfold ListUsers.
  destruct (limit <? 0); [discriminate|]. destruct (offset <? 0); [discriminate|].
  intros [= <-] r H.
  apply In_firstn, In_skipn, In_order_by in H. now apply filter_In in H.
Qed.

Lemma ListUsers_succeeds (t : Table) (limit offset : Z) :
  0 <= limit -> 0 <= offset -> exists rows, ListUsers t limit offset = Ok rows.
Proof.
  intros Hl Ho. unfold ListUsers.
  destruct (Z.ltb_spec limit 0); [lia|]. destruct (Z.ltb_spec offset 0); [lia|].
  eauto.
Qed.

Lemma ListUsers_negative_offset (t : Table) (limit offset : Z) :
  offset < 0 -> exists e, ListUsers t limit offset = Err e.
Proof.
  intros Ho. unfold ListUsers.
  destruct (limit <? 0); [eauto|]. destruct (Z.ltb_spec offset 0); [eauto|lia].
Qed.

End PostgresFacts.

(* ------------------------------------------------------------------ *)
(** ** Pagination *)

Module PaginationFacts.
Import GoString GoErrors GoInt GoIntFacts Persistence Domain Application.
Import TableConditions PostgresFacts Fixtures.

Lemma effective_limit_range (limit : Z) : 1 <= effective_limit limit <= 100.
Proof.
  unfold effective_limit.
  destruct (Z.leb_spec limit 0); [reflexivity || (simpl; lia)|].
  destruct (Z.ltb_spec 100 limit); lia.
Qed.

Lemma effective_offset_max (offset : Z) : effective_offset offset = Z.max offset 0.
Proof. unfold effective_offset. destruct (Z.ltb_spec offset 0); lia. Qed.

Lemma map_rows_succeeds (rows : list Postgres.Row) :
  (forall r, In r rows -> exists e, NewEmail (Postgres.email r) = Ok e) ->
  forall i, exists us, map_rows i rows = Ok us.
Proof.
  induction rows as [|r rows IH]; intros H i; simpl; [eauto|].
  destruct (H r (or_introl eq_refl)) as [e He].
  unfold toDomainUser. rewrite He.
  destruct (IH (fun r' Hr' => H r' (or_intror Hr')) (S i)) as [us ->]. eauto.
Qed.

(** Over any repository: what [ListUsers] puts into the response. *)
Lemma ListUsers_fields {R : Type} {userRepo : UserRepository R}
    (r : R) (limit offset : Z) (resp : UserListResponseDTO) :
  ListUsers r limit offset = Ok resp ->
  Limit resp = effective_limit limit /\
  Offset resp = effective_offset offset /\
  Count r = Ok (Total resp) /\
  (exists users,
     List_ r (effective_limit limit) (effective_offset offset) = Ok users /\
     Users resp = map toUserResponseDTO users) /\
  HasMore resp =
    (GoInt.add (effective_offset offset) (effective_limit limit) <? Total resp).
Proof.
  unfold ListUsers.
  destruct (List_ r _ _) as [users|e] eqn:HL; [|discriminate].
  destruct (Count r) as [total|e] eqn:HC; [|discriminate].
  intros [= <-]. simpl. repeat split. eauto.
Qed.

(** C5.  For every [int] [limit] and [offset], [ListUsers] works with the
    effective limit (10 for [limit <= 0], 100 for [limit > 100], [limit]
    itself in between) and the effective offset [max offset 0]; a response
    carries both, the repository's count of active users as [Total], and
    [HasMore = (offset + limit < Total)] on the effective values, the sum
    being the exact one: it cannot wrap, because the repository turns down any
    offset whose 32-bit reading is negative.  A response is returned whenever
    that reading is not negative and the stored addresses are valid. *)
Theorem ListUsers_pagination (t : Postgres.Table) (limit offset : Z) :
  is_int limit -> is_int offset ->
  (limit <= 0 -> effective_limit limit = 10) /\
  (100 < limit -> effective_limit limit = 100) /\
  (1 <= limit <= 100 -> effective_limit limit = limit) /\
  effective_offset offset = Z.max offset 0 /\
  (forall resp, ListUsers t limit offset = Ok resp ->
     Limit resp = effective_limit limit /\
     Offset resp = effective_offset offset /\
     Total resp = Z.of_nat (List.length (filter Postgres.is_active t)) /\
     HasMore resp = (effective_offset offset + effective_limit limit <? Total resp)) /\
  (0 <= int32 (effective_offset offset) -> emails_valid t ->
   exists resp, ListUsers t limit offset = Ok resp).
Proof.
  intros Hlim Hoff.
  pose proof (effective_limit_range limit) as Hl.
  pose proof (effective_offset_max offset) as Ho.
  assert (Hl32 : int32 (effective_limit limit) = effective_limit limit)
    by (apply int32_small; lia).
  repeat split.
  - unfold effective_limit. destruct (Z.leb_spec limit 0); [reflexivity|lia].
  - unfold effective_limit. intros H.
    destruct (Z.leb_spec limit 0); [lia|]. destruct (Z.ltb_spec 100 limit); lia.
  - unfold effective_limit. destruct (Z.leb_spec limit 0); [lia|].
    destruct (Z.ltb_spec 100 limit); lia.
  - exact Ho.
  - now apply ListUsers_fields in H.
  - now apply ListUsers_fields in H.
  - apply ListUsers_fields in H as (_ & _ & HC & _). simpl in HC.
    unfold Persistence.Count, Postgres.CountUsers in HC. now injection HC as <-.
  - apply ListUsers_fields in H as (_ & _ & _ & (users & HL & _) & ->).
    simpl in HL. unfold Persistence.List_ in HL.
    destruct (Postgres.ListUsers t _ _) as [rows|e] eqn:HP; [|discriminate].
    assert (H32 : 0 <= int32 (effective_offset offset)).
    { destruct (Z.le_gt_cases 0 (int32 (effective_offset offset))) as [|Hneg]; [assumption|].
      destruct (ListUsers_negative_offset t (int32 (effective_limit limit)) _ Hneg) as [e He].
      rewrite He in HP. discriminate. }
    unfold GoInt.add. rewrite wrap64_small; [reflexivity|].
    unfold is_int, int_min, int_max in *.
    pose proof (int32_nonneg_room (effective_offset offset) (effective_limit limit)) as Hroom.
    unfold int_max in Hroom. lia.
  - intros H32 Hvalid. unfold ListUsers. simpl. unfold Persistence.List_.
    destruct (ListUsers_succeeds t (int32 (effective_limit limit))
                (int32 (effective_offset offset))) as [rows Hrows]; [lia|assumption|].
    rewrite Hrows.
    destruct (map_rows_succeeds rows) with (i := 0%nat) as [us ->].
    { intros r Hr. apply Hvalid. now apply (ListUsers_rows _ _ _ _ Hrows). }
    unfold Persistence.Count, Postgres.CountUsers. eauto.
Qed.

Lemma ListUsers_pagination_witness :
  exists resp, ListUsers two_users 1000 (-5) = Ok resp /\
               Limit resp = 100 /\ Offset resp = 0 /\ Total resp = 2 /\ HasMore resp = false.
Proof.
  assert (Hl : is_int 1000) by (unfold is_int, int_min, int_max; lia).
  assert (Ho : is_int (-5)) by (unfold is_int, int_min, int_max; lia).
  pose proof (ListUsers_pagination two_users 1000 (-5) Hl Ho)
    as (_ & H100 & _ & H0 & Hresp & _).
  exists (mkUserListResponseDTO
            (map toUserResponseDTO
               [mkUser 2%N (mkEmail "b@x.com") "Bob" "$2a$10$password-b" true 2000 2000;
                mkUser 1%N (mkEmail "a@x.com") "Alice" "$2a$10$password-a" true 1000 1000])
            2 100 0 false).
  split; [reflexivity|]. repeat split.
Defined.

End PaginationFacts.

(* ------------------------------------------------------------------ *)
(** ** The normal form of an address *)

Module CanonicalFacts.
Import GoString GoStringFacts Regexp GoErrors Domain DomainFacts.

Lemma length_TrimLeft (s : string) : (String.length (TrimLeft s) <= String.length s)%nat.
Proof.
  induction s as [|c s IH]; simpl; [lia|].
  destruct (is_space c); simpl; lia.
Qed.

Lemma length_TrimRight (s : string) : (String.length (TrimRight s) <= String.length s)%nat.
Proof.
  induction s as [|c s IH]; simpl; [lia|].
  destruct (TrimRight s); [destruct (is_space c)|]; simpl in *; lia.
Qed.

Lemma TrimLeft_idem (s : string) : TrimLeft (TrimLeft s) = TrimLeft s.
Proof.
  induction s as [|c s IH]; simpl; [reflexivity|].
  destruct (is_space c) eqn:Hc; [exact IH|]. simpl. now rewrite Hc.
Qed.

Lemma TrimRight_idem (s : string) : TrimRight (TrimRight s) = TrimRight s.
Proof.
  induction s as [|c s IH]; simpl; [reflexivity|].
  destruct (TrimRight s) as [|d r'] eqn:Hr.
  - destruct (is_space c) eqn:Hc; simpl; [reflexivity|]. now rewrite Hc.
  - cbn [TrimRight] in IH |- *. now rewrite IH.
Qed.

Lemma TrimLeft_TrimRight (u : string) :
  TrimLeft u = u -> TrimLeft (TrimRight u) = TrimRight u.
Proof.
  destruct u as [|c r]; simpl; [reflexivity|].
  destruct (is_space c) eqn:Hc.
  - intros H. pose proof (length_TrimLeft r) as Hl. rewrite H in Hl. simpl in Hl. lia.
  - intros _. destruct (TrimRight r); simpl; now rewrite Hc.
Qed.

Lemma TrimSpace_idem (s : string) : TrimSpace (TrimSpace s) = TrimSpace s.
Proof.
  unfold TrimSpace.
  rewrite (TrimLeft_TrimRight (TrimLeft s) (TrimLeft_idem s)).
  apply TrimRight_idem.
Qed.

(** The value of an address is a fixed point of [NewEmail]. *)
Lemma NewEmail_idem (s : string) (e : Email) :
  NewEmail s = Ok e -> NewEmail (value e) = Ok e.
Proof.
  intros H. pose proof (NewEmail_value s e H) as Hv.
  rewrite <- H. apply NewEmail_canonical_arg.
  rewrite Hv, TrimSpace_ToLower, TrimSpace_idem, <- TrimSpace_ToLower.
  now rewrite ToLower_idem.
Qed.

Lemma NewEmail_TrimRight (s : string) (e : Email) :
  NewEmail s = Ok e -> TrimRight (value e) = value e.
Proof.
  intros H. rewrite (NewEmail_value s e H). unfold TrimSpace. apply TrimRight_idem.
Qed.

Lemma take_drop (n : nat) (s : string) : take n s ++ drop n s = s.
Proof.
  revert s. induction n as [|n IH]; intros [|c s]; simpl; try reflexivity.
  now rewrite IH.
Qed.

Lemma length_take (n : nat) (s : string) : (String.length (take n s) <= n)%nat.
Proof.
  revert s. induction n as [|n IH]; intros [|c s]; simpl; try lia.
  specialize (IH s). lia.
Qed.

Lemma all_blank_all_space (u : string) : Postgres.all_blank u = true -> all_space u = true.
Proof.
  induction u as [|c u IH]; simpl; [reflexivity|].
  intros H. apply andb_true_iff in H as [Hc Hu].
  apply Ascii.eqb_eq in Hc. subst c. now rewrite (IH Hu).
Qed.

(** A text without trailing white space either fits a [VARCHAR(n)] column as
    it is or is turned down: nothing is cut off. *)
Lemma varchar_no_truncation (n : nat) (label s em : string) :
  TrimRight s = s -> Postgres.varchar n label s = Ok em ->
  em = s /\ (String.length s <= n)%nat.
Proof.
  intros Ht. unfold Postgres.varchar.
  destruct (Nat.leb_spec (String.length s) n) as [Hle|Hgt].
  - intros [= <-]. now split.
  - destruct (Postgres.all_blank (drop n s)) eqn:Hb; [|discriminate].
    exfalso. apply all_blank_all_space in Hb.
    pose proof (TrimRight_app_space (take n s) (drop n s) Hb) as H.
    rewrite take_drop, Ht in H.
    pose proof (length_TrimRight (take n s)) as H1.
    pose proof (length_take n s) as H2.
    rewrite <- H in H1. lia.
Qed.

Lemma varchar_fits (n : nat) (label s : string) :
  (String.length s <= n)%nat -> Postgres.varchar n label s = Ok s.
Proof.
  intros H. unfold Postgres.varchar.
  now destruct (Nat.leb_spec (String.length s) n); [|lia].
Qed.

End CanonicalFacts.

(* ------------------------------------------------------------------ *)
(** ** The repository on the table *)

Module RepositoryFacts.
Import GoString GoStringFacts GoErrors Domain DomainFacts CanonicalFacts.
Import Postgres TableConditions PostgresFacts.

Lemma find_some_In {A} (f : A -> bool) (l : list A) (x : A) :
  find f l = Some x -> In x l /\ f x = true.
Proof. apply find_some. Qed.

Lemma find_none_all {A} (f : A -> bool) (l : list A) :
  (forall x, In x l -> f x = false) -> find f l = None.
Proof.
  induction l as [|y l IH]; simpl; [reflexivity|]. intros H.
  rewrite (H y (or_introl eq_refl)). apply IH. intros x Hx. apply H. now right.
Qed.

Lemma find_exists {A} (f : A -> bool) (l : list A) (x : A) :
  In x l -> f x = true -> exists y, find f l = Some y.
Proof.
  intros Hin Hf. destruct (find f l) eqn:E; [eauto|].
  now rewrite (find_none _ _ E x Hin) in Hf.
Qed.

Lemma has_id_true (i : UUID) (r : Row) : has_id i r = true <-> id r = i.
Proof. unfold has_id. apply N.eqb_eq. Qed.

Lemma has_email_true (e : string) (r : Row) : has_email e r = true <-> email r = e.
Proof. unfold has_email. apply String.eqb_eq. Qed.

(** What the server reports for a broken constraint is recognised by
    [isUniqueViolation]; what it reports for a text that does not fit its
    column is not. *)
Lemma isUniqueViolation_pkey :
  Persistence.isUniqueViolation (Some (unique_violation "users_pkey")) = true.
Proof. reflexivity. Qed.

Lemma isUniqueViolation_email_key :
  Persistence.isUniqueViolation (Some (unique_violation "users_email_key")) = true.
Proof. reflexivity. Qed.

Lemma isUniqueViolation_too_long_255 :
  Persistence.isUniqueViolation (Some (too_long "255")) = false.
Proof. reflexivity. Qed.

Lemma isUniqueViolation_too_long_100 :
  Persistence.isUniqueViolation (Some (too_long "100")) = false.
Proof. reflexivity. Qed.

(** *** Delete *)

Lemma Delete_total (t : Table) (now : Timestamp) (i : UUID) :
  Persistence.Delete t now i = (map (soft_delete_row i now) t, None).
Proof. reflexivity. Qed.

Lemma soft_delete_row_id i now r : id (soft_delete_row i now r) = id r.
Proof. unfold soft_delete_row. now destruct (has_id i r). Qed.

Lemma soft_delete_row_email i now r : email (soft_delete_row i now r) = email r.
Proof. unfold soft_delete_row. now destruct (has_id i r). Qed.

Lemma soft_delete_row_inactive i now r :
  id r = i -> is_active (soft_delete_row i now r) = false.
Proof.
  intros H. unfold soft_delete_row. now rewrite (proj2 (has_id_true i r) H).
Qed.

Lemma soft_delete_row_other i now r : id r <> i -> soft_delete_row i now r = r.
Proof.
  intros H. unfold soft_delete_row.
  destruct (has_id i r) eqn:E; [|reflexivity]. now apply has_id_true in E.
Qed.

Lemma soft_delete_row_active i now r :
  is_active (soft_delete_row i now r) = true -> soft_delete_row i now r = r /\ id r <> i.
Proof.
  unfold soft_delete_row. destruct (has_id i r) eqn:E; simpl; [discriminate|].
  intros _. split; [reflexivity|]. intros H. apply has_id_true in H. congruence.
Qed.

Lemma Delete_absent (t : Table) (now : Timestamp) (i : UUID) :
  (forall r, In r t -> id r <> i) -> Persistence.Delete t now i = (t, None).
Proof.
  intros H. rewrite Delete_total. f_equal.
  rewrite <- (map_id t) at 2. apply map_ext_in.
  intros r Hr. now apply soft_delete_row_other, H.
Qed.

(** *** FindByID, FindByEmail *)

Lemma FindByID_row (t : Table) (i : UUID) (u : User) :
  Persistence.FindByID t i = Ok u ->
  exists r, In r t /\ id r = i /\ is_active r = true /\ Persistence.toDomainUser r = Ok u.
Proof.
  unfold Persistence.FindByID, GetUserByID.
  destruct (find _ t) as [r|] eqn:E; [|discriminate].
  apply find_some in E as [Hin Hf]. apply andb_true_iff in Hf as [Hi Ha].
  apply has_id_true in Hi. eauto 6.
Qed.

Lemma FindByID_none (t : Table) (i : UUID) :
  (forall r, In r t -> id r = i -> is_active r = false) ->
  Persistence.FindByID t i = Err ErrUserNotFound.
Proof.
  intros H. unfold Persistence.FindByID, GetUserByID.
  rewrite find_none_all; [reflexivity|].
  intros r Hr. destruct (has_id i r) eqn:E; [|reflexivity].
  apply has_id_true in E. simpl. now apply H.
Qed.

Lemma FindByEmail_none (t : Table) (e : Email) :
  (forall r, In r t -> email r = value e -> is_active r = false) ->
  Persistence.FindByEmail t e = Err ErrUserNotFound.
Proof.
  intros H. unfold Persistence.FindByEmail, GetUserByEmail.
  rewrite find_none_all; [reflexivity|].
  intros r Hr. destruct (has_email (Value e) r) eqn:E; [|reflexivity].
  apply has_email_true in E. simpl. now apply H.
Qed.

Lemma toDomainUser_fields (r : Row) (u : User) :
  Persistence.toDomainUser r = Ok u ->
  ID u = id r /\ NewEmail (email r) = Ok (Email_ u) /\ Name u = name r /\
  PasswordHash u = password_hash r /\ IsActive u = is_active r /\
  CreatedAt u = created_at r /\ UpdatedAt u = updated_at r.
Proof.
  unfold Persistence.toDomainUser.
  destruct (NewEmail (email r)) as [e|]; [|discriminate].
  intros [= <-]. simpl. repeat split; reflexivity.
Qed.

(** Every failure of the two lookups, and of [toDomainUser], is an error
    other than [ErrEmailAlreadyExists]. *)
Lemma FindByEmail_found_or_not (t : Table) (e : Email) :
  (exists u, Persistence.FindByEmail t e = Ok u) \/
  Persistence.FindByEmail t e = Err ErrUserNotFound \/
  (exists err, Persistence.FindByEmail t e = Err err /\
               errors_Is err ErrUserNotFound = false /\
               errors_Is err ErrEmailAlreadyExists = false).
Proof.
  unfold Persistence.FindByEmail, GetUserByEmail.
  destruct (find _ t) as [r|]; [|now right; left].
  unfold Persistence.toDomainUser.
  destruct (NewEmail (email r)) as [em|err] eqn:E; [left; eauto|].
  right; right. apply NewEmail_error in E. subst err. eauto.
Qed.

End RepositoryFacts.

(* ------------------------------------------------------------------ *)
(** ** How the use cases change the table *)

Module TableFacts.
Import GoString GoStringFacts GoErrors Persistence Domain DomainFacts CanonicalFacts.
Import Postgres TableConditions PostgresFacts RepositoryFacts.
Import Application ServiceInterface ServiceFacts.

(** Closes [fst (let (r', o) := x in ...) = fst y] once [y] is known to be
    [x]. *)
Ltac after_update :=
  match goal with
  | |- fst (let (_, _) := ?x in _) = fst ?y =>
      let t' := fresh "t'" in
      let e := fresh "e" in
      unify x y; destruct x as [t' [e|]]; reflexivity
  end.

Ltac repo_unfold :=
  cbn [Domain.Save Domain.FindByID Domain.FindByEmail Domain.Update Domain.Delete
       Domain.List_ Domain.Count Persistence.UserRepository_Table] in *.

Lemma In_replace_row (i : UUID) (r x : Row) (t : Table) :
  In x (replace_row i r t) -> x = r \/ In x t.
Proof.
  induction t as [|y t IH]; simpl; [tauto|].
  destruct (has_id i y); simpl.
  - intros [<-|H]; auto.
  - intros [<-|H]; auto. destruct (IH H); auto.
Qed.

Lemma replace_row_keeps_ids (i : UUID) (r x : Row) (t : Table) :
  id r = i -> In x t -> exists x', In x' (replace_row i r t) /\ id x' = id x.
Proof.
  intros Hr. induction t as [|y t IH]; simpl; [tauto|].
  destruct (has_id i y) eqn:E.
  - intros [<-|H].
    + exists r. split; [now left|]. apply has_id_true in E. congruence.
    + exists x. split; [now right | reflexivity].
  - intros [<-|H].
    + exists y. split; [now left | reflexivity].
    + destruct (IH H) as (x' & Hx' & Hid). exists x'. split; [now right | assumption].
Qed.

(** [Save] leaves the table as it is, or appends one row whose [id] no row
    had. *)
Lemma Save_table (t : Table) (u : User) :
  fst (Persistence.Save t u) = t \/
  exists r, fst (Persistence.Save t u) = (t ++ [r])%list /\
            snd (Persistence.Save t u) = None /\
            id r = ID u /\ is_active r = IsActive u /\
            (forall x, In x t -> id x <> ID u) /\
            (forall x, In x t -> email x <> email r).
Proof.
  unfold Persistence.Save, Postgres.CreateUser. cbn [id email name password_hash is_active created_at updated_at].
  destruct (varchar 255 "255" (Value (Email_ u))) as [em|e];
    [|left; cbv beta iota; now destruct (Persistence.isUniqueViolation (Some e))].
  destruct (varchar 100 "100" (Name u)) as [nm|e];
    [|left; cbv beta iota; now destruct (Persistence.isUniqueViolation (Some e))].
  destruct (varchar 255 "255" (PasswordHash u)) as [ph|e];
    [|left; cbv beta iota; now destruct (Persistence.isUniqueViolation (Some e))].
  destruct (existsb (has_id (ID u)) t) eqn:Eid; [left; reflexivity|].
  destruct (existsb (has_email em) t) eqn:Eem; [left; reflexivity|].
  right. eexists. cbn [fst snd]. repeat split.
  - intros x Hx Hid. apply not_true_iff_false in Eid. apply Eid.
    apply existsb_exists. exists x. split; [assumption | now apply has_id_true].
  - intros x Hx Hem. apply not_true_iff_false in Eem. apply Eem.
    apply existsb_exists. exists x. split; [assumption | now apply has_email_true].
Qed.

(** [Update] leaves the table as it is, or replaces the row of the user's
    [id] by one of the same [id] that carries the user's flag. *)
Lemma Update_table (t : Table) (u : User) :
  fst (Persistence.Update t u) = t \/
  exists r, fst (Persistence.Update t u) = replace_row (ID u) r t /\
            snd (Persistence.Update t u) = None /\
            id r = ID u /\ is_active r = IsActive u.
Proof.
  unfold Persistence.Update, Postgres.UpdateUser.
  cbn [up_id up_email up_name up_password_hash up_is_active up_updated_at].
  destruct (find (has_id (ID u)) t) as [old|] eqn:Eold; [|left; reflexivity].
  apply find_some in Eold as [_ Hold]. apply has_id_true in Hold.
  destruct (varchar 255 "255" (Value (Email_ u))) as [em|e];
    [|left; cbv beta iota; destruct (errors_Is e pgx_ErrNoRows);
      [|destruct (Persistence.isUniqueViolation (Some e))]; reflexivity].
  destruct (varchar 100 "100" (Name u)) as [nm|e];
    [|left; cbv beta iota; destruct (errors_Is e pgx_ErrNoRows);
      [|destruct (Persistence.isUniqueViolation (Some e))]; reflexivity].
  destruct (varchar 255 "255" (PasswordHash u)) as [ph|e];
    [|left; cbv beta iota; destruct (errors_Is e pgx_ErrNoRows);
      [|destruct (Persistence.isUniqueViolation (Some e))]; reflexivity].
  destruct (existsb _ t); [left; reflexivity|].
  right. eexists. cbn [fst snd]. repeat split. exact Hold.
Qed.

Lemma FindByID_canonical (t : Table) (i : UUID) (u : User) :
  Persistence.FindByID t i = Ok u -> NewEmail (Value (Email_ u)) = Ok (Email_ u).
Proof.
  intros Hf. apply FindByID_row in Hf as (r & _ & _ & _ & Hu).
  apply toDomainUser_fields in Hu as (_ & He & _). eapply NewEmail_idem; eassumption.
Qed.

Section Steps.
Context {bcrypt : Bcrypt}.

Lemma UpdateUser_rewrites env t i dto : rewrites t (fst (UpdateUser env t i dto)) i.
Proof.
  unfold UpdateUser, rewrites. repo_unfold.
  destruct (Persistence.FindByID t i) as [u|e] eqn:Hf; [|now left].
  destruct (String.eqb _ _); [now left|].
  destruct (NewEmail _) as [ne|e] eqn:Hne; [|now left].
  destruct (email_conflict t u ne); [now left|].
  unfold UpdateProfile. destruct (String.eqb _ _); [now left|].
  right. eexists u, _. split; [reflexivity|]. split; [|split; [|after_update]].
  - reflexivity.
  - cbn. eapply NewEmail_idem; eassumption.
Qed.

Lemma ActivateUser_rewrites env t i : rewrites t (fst (ActivateUser env t i)) i.
Proof.
  unfold ActivateUser, rewrites. repo_unfold.
  destruct (Persistence.FindByID t i) as [u|e] eqn:Hf; [|now left].
  right. eexists u, _. split; [reflexivity|]. split; [|split; [|after_update]].
  - reflexivity.
  - cbn. now apply (FindByID_canonical t i).
Qed.

Lemma DeactivateUser_rewrites env t i : rewrites t (fst (DeactivateUser env t i)) i.
Proof.
  unfold DeactivateUser, rewrites. repo_unfold.
  destruct (Persistence.FindByID t i) as [u|e] eqn:Hf; [|now left].
  right. eexists u, _. split; [reflexivity|]. split; [|split; [|after_update]].
  - reflexivity.
  - cbn. now apply (FindByID_canonical t i).
Qed.

Lemma ChangePassword_rewrites env t i dto : rewrites t (fst (ChangePassword env t i dto)) i.
Proof.
  unfold ChangePassword, rewrites. repo_unfold.
  destruct (Persistence.FindByID t i) as [u|e] eqn:Hf; [|now left].
  destruct (verifyPassword _ _); [now left|].
  destruct (validatePassword _); [now left|].
  destruct (hashPassword _ _) as [h|e]; [|now left].
  unfold Domain.ChangePassword. destruct (String.eqb _ _); [now left|].
  right. eexists u, _. split; [reflexivity|]. split; [|split; [|after_update]].
  - reflexivity.
  - cbn. now apply (FindByID_canonical t i).
Qed.

Lemma CreateUser_table env t dto :
  fst (CreateUser env t dto) = t \/
  exists u, NewEmail (Value (Email_ u)) = Ok (Email_ u) /\
            fst (CreateUser env t dto) = fst (Persistence.Save t u).
Proof.
  unfold CreateUser. repo_unfold.
  destruct (validateCreateUserInput dto); [now left|].
  destruct (NewEmail _) as [e|] eqn:He; [|now left].
  destruct (lookup_email t e) as [[x|]|]; [now left| |now left].
  destruct (hashPassword _ _) as [h|]; [|now left].
  destruct (NewUser _ _ _ _ _) as [u|] eqn:Hu; [|now left].
  right. exists u. split; [|now destruct (Persistence.Save t u) as [t' [err|]]].
  unfold NewUser in Hu. destruct (String.eqb _ _); [discriminate|].
  destruct (String.eqb _ _); [discriminate|]. injection Hu as <-. cbn.
  eapply NewEmail_idem; eassumption.
Qed.

Lemma soft_deleted_rewrites t t' i j :
  rewrites t t' j -> soft_deleted t i -> soft_deleted t' i.
Proof.
  intros [->|(u & u' & Hf & Hid & _ & ->)] Hsd; [assumption|].
  destruct Hsd as [(r0 & Hr0 & Hi0) Hall].
  apply FindByID_row in Hf as (r & Hr & Hj & Hact & Hu).
  apply toDomainUser_fields in Hu as (Hidu & _).
  assert (Hne : j <> i) by (intros ->; rewrite (Hall r Hr Hj) in Hact; discriminate).
  destruct (Update_table t u') as [->|(r' & -> & _ & Hr' & _)]; [now split; eauto|].
  assert (Hr'j : id r' = j) by congruence.
  split.
  - destruct (replace_row_keeps_ids (ID u') r' r0 t Hr' Hr0) as (x' & Hx' & Hx'id).
    exists x'. split; [assumption | congruence].
  - intros x Hx Hxi. apply In_replace_row in Hx as [->|Hx]; [congruence|].
    now apply Hall.
Qed.

Lemma soft_deleted_serve env t req i :
  soft_deleted t i -> soft_deleted (serve env t req) i.
Proof.
  intros Hsd. destruct req as [dto| | |j dto|j|j|j|j dto| ]; cbn [serve]; try assumption.
  - destruct (CreateUser_table env t dto) as [->|(u & _ & ->)]; [assumption|].
    destruct (Save_table t u) as [->|(r & -> & _ & Hr & _ & Hfresh & _)]; [assumption|].
    destruct Hsd as [(r0 & Hr0 & Hi0) Hall]. split.
    + exists r0. split; [apply in_or_app; now left | assumption].
    + intros x Hx Hxi. apply in_app_or in Hx as [Hx|[<-|[]]]; [now apply Hall|].
      exfalso. apply (Hfresh r0 Hr0). congruence.
  - eapply soft_deleted_rewrites; [apply UpdateUser_rewrites | assumption].
  - unfold DeleteUser. repo_unfold. rewrite Delete_total. cbn [fst].
    destruct Hsd as [(r0 & Hr0 & Hi0) Hall]. split.
    + exists (soft_delete_row j (time_Now env) r0). split.
      * now apply in_map.
      * now rewrite soft_delete_row_id.
    + intros x Hx Hxi. apply in_map_iff in Hx as (y & <- & Hy).
      rewrite soft_delete_row_id in Hxi.
      destruct (is_active (soft_delete_row j (time_Now env) y)) eqn:Ha; [|reflexivity].
      pose proof (soft_delete_row_active _ _ _ Ha) as [Heq _].
      rewrite Heq, (Hall y Hy Hxi) in Ha. discriminate.
  - eapply soft_deleted_rewrites; [apply ActivateUser_rewrites | assumption].
  - eapply soft_deleted_rewrites; [apply DeactivateUser_rewrites | assumption].
  - eapply soft_deleted_rewrites; [apply ChangePassword_rewrites | assumption].
Qed.

Lemma soft_deleted_serve_all reqs t i :
  soft_deleted t i -> soft_deleted (serve_all reqs t) i.
Proof.
  revert t. induction reqs as [|[env req] reqs IH]; intros t H; cbn [serve_all]; [assumption|].
  now apply IH, soft_deleted_serve.
Qed.

End Steps.

End TableFacts.

(* ------------------------------------------------------------------ *)
(** ** Soft deletion *)

Module SoftDeleteFacts.
Import GoString GoStringFacts GoErrors Persistence Domain DomainFacts CanonicalFacts.
Import Postgres TableConditions PostgresFacts RepositoryFacts.
Import Application ServiceInterface ServiceFacts TableFacts Fixtures.

Section AnyBcrypt.
Context {bcrypt : Bcrypt}.

(** [DeleteUser] of the service returns nil for every identifier. *)
Lemma DeleteUser_never_fails env (t : Table) (i : UUID) :
  DeleteUser env t i = (map (soft_delete_row i (time_Now env)) t, None).
Proof. reflexivity. Qed.

(** When rows match, [Delete] clears their active flag (and sets
    [updated_at]); the other rows stay as they are. *)
Lemma DeleteUser_deactivates env (t : Table) (i : UUID) (r : Row) :
  In r (fst (DeleteUser env t i)) ->
  (id r = i -> is_active r = false /\ updated_at r = time_Now env) /\
  (id r <> i -> In r t).
Proof.
  rewrite DeleteUser_never_fails. cbn [fst]. intros H.
  apply in_map_iff in H as (x & <- & Hx). unfold soft_delete_row.
  destruct (has_id i x) eqn:E.
  - apply has_id_true in E. cbn. split; [auto | congruence].
  - split; [|auto]. intros Hi. apply has_id_true in Hi. congruence.
Qed.

(** C2 on the code.  For every identifier that matches no row, the
    repository's [Delete] returns nil and the table as it was, so does
    [DeleteUser] of the service, and the handler of [DELETE /users/{id}]
    answers 204 with no body: [ErrUserNotFound] and 404 never come out of
    this path.  When rows do match, [Delete] clears their active flag. *)
Theorem DeleteUser_absent_id env (t : Table) (i : UUID) :
  (forall r, In r t -> id r <> i) ->
  Persistence.Delete t (time_Now env) i = (t, None) /\
  DeleteUser env t i = (t, None) /\
  Handler.DeleteUser env t (Some i) =
  (t, Handler.mkResponse Handler.StatusNoContent Handler.NoBody).
Proof.
  intros H. pose proof (Delete_absent t (time_Now env) i H) as Hd.
  split; [exact Hd|]. split.
  - unfold DeleteUser. repo_unfold. exact Hd.
  - unfold Handler.DeleteUser, DeleteUser. repo_unfold. now rewrite Hd.
Qed.

(** C10.  For the identifier of a soft-deleted account (a row is stored
    under it and no row under it is active), [ActivateUser] returns
    [ErrUserNotFound] and the table it was given, because [FindByID] does not
    find the user; and the account stays soft-deleted after any run of calls
    of the service's public methods, so [ActivateUser] keeps failing in the
    same way after any such run. *)
Theorem ActivateUser_soft_deleted env (t : Table) (i : UUID) :
  soft_deleted t i ->
  FindByID t i = Err ErrUserNotFound /\
  ActivateUser env t i = (t, Err ErrUserNotFound) /\
  (forall reqs, soft_deleted (serve_all reqs t) i) /\
  (forall reqs env',
     ActivateUser env' (serve_all reqs t) i = (serve_all reqs t, Err ErrUserNotFound)).
Proof.
  intros Hsd.
  assert (Hfind : forall t', soft_deleted t' i ->
                             Persistence.FindByID t' i = Err ErrUserNotFound)
    by (intros t' [_ Hall]; now apply FindByID_none).
  assert (Hact : forall env' t', soft_deleted t' i ->
                                 ActivateUser env' t' i = (t', Err ErrUserNotFound)).
  { intros env' t' H. unfold ActivateUser. repo_unfold. now rewrite (Hfind t' H). }
  split; [now apply Hfind|]. split; [now apply Hact|]. split.
  - intros reqs. now apply soft_deleted_serve_all.
  - intros reqs env'. now apply Hact, soft_deleted_serve_all.
Qed.

End AnyBcrypt.

Lemma ActivateUser_soft_deleted_witness :
  ActivateUser env3 alice_deleted 1%N = (alice_deleted, Err ErrUserNotFound).
Proof.
  refine (proj1 (proj2 (ActivateUser_soft_deleted env3 alice_deleted 1%N _))).
  split.
  - eexists. split; [left; reflexivity | reflexivity].
  - intros r [<-|[<-|[]]]; [reflexivity | discriminate].
Defined.

Lemma DeleteUser_absent_id_witness :
  DeleteUser env3 two_users 77%N = (two_users, None) /\
  Handler.DeleteUser env3 two_users (Some 77%N) =
  (two_users, Handler.mkResponse 204 Handler.NoBody).
Proof.
  refine (proj2 (DeleteUser_absent_id env3 two_users 77%N _)).
  intros r [<-|[<-|[]]]; discriminate.
Defined.

End SoftDeleteFacts.

(* ------------------------------------------------------------------ *)
(** ** Uniqueness of addresses *)

Module UniquenessFacts.
Import GoString GoStringFacts GoErrors Persistence Domain DomainFacts CanonicalFacts.
Import Postgres TableConditions PostgresFacts RepositoryFacts.
Import Application ServiceInterface ServiceFacts TableFacts SoftDeleteFacts Fixtures.

Lemma NoDup_map_eq {A B} (f : A -> B) (l : list A) (x y : A) :
  NoDup (map f l) -> In x l -> In y l -> f x = f y -> x = y.
Proof.
  induction l as [|a l IH]; simpl; [tauto|].
  intros Hnd Hx Hy Hf. inversion Hnd as [|? ? Hnotin Hnd']; subst.
  destruct Hx as [->|Hx], Hy as [->|Hy]; auto.
  - exfalso. apply Hnotin. rewrite Hf. now apply in_map.
  - exfalso. apply Hnotin. rewrite <- Hf. now apply in_map.
Qed.

Lemma existsb_false {A} (f : A -> bool) (l : list A) :
  (forall x, In x l -> f x = false) -> existsb f l = false.
Proof.
  intros H. destruct (existsb f l) eqn:E; [|reflexivity].
  apply existsb_exists in E as (x & Hx & Hf). now rewrite (H x Hx) in Hf.
Qed.

Lemma existsb_true {A} (f : A -> bool) (l : list A) (x : A) :
  In x l -> f x = true -> existsb f l = true.
Proof. intros Hx Hf. apply existsb_exists. eauto. Qed.

(** [INSERT] into a table in which some row, active or not, holds the
    address: the statement fails and the table stays. *)
Lemma Save_blocked (t : Table) (u : User) (r : Row) :
  In r t -> email r = Value (Email_ u) ->
  TrimRight (Value (Email_ u)) = Value (Email_ u) ->
  exists err, Persistence.Save t u = (t, Some err).
Proof.
  intros Hr He Ht. unfold Persistence.Save, Postgres.CreateUser.
  cbn [id email name password_hash is_active created_at updated_at].
  destruct (varchar 255 "255" (Value (Email_ u))) as [em|e] eqn:Ev;
    [|cbv beta iota; destruct (isUniqueViolation (Some e)); eauto].
  apply (varchar_no_truncation _ _ _ _ Ht) in Ev as [-> _].
  destruct (varchar 100 "100" (Name u)) as [nm|e];
    [|cbv beta iota; destruct (isUniqueViolation (Some e)); eauto].
  destruct (varchar 255 "255" (PasswordHash u)) as [ph|e];
    [|cbv beta iota; destruct (isUniqueViolation (Some e)); eauto].
  destruct (existsb (has_id (ID u)) t).
  - cbv beta iota. rewrite isUniqueViolation_pkey. eauto.
  - rewrite (existsb_true _ _ r Hr (proj2 (has_email_true _ _) He)).
    cbv beta iota. rewrite isUniqueViolation_email_key. eauto.
Qed.


Section AnyBcrypt.
Context {bcrypt : Bcrypt}.

Lemma validateCreateUserInput_None dto :
  validateCreateUserInput dto = None ->
  cu_Email dto <> EmptyString /\ cu_Name dto <> EmptyString /\
  cu_Password dto <> EmptyString /\ 8 <= len (cu_Password dto).
Proof.
  unfold validateCreateUserInput, validatePassword.
  destruct (String.eqb_spec (cu_Email dto) EmptyString); [discriminate|].
  destruct (String.eqb_spec (cu_Name dto) EmptyString); [discriminate|].
  destruct (String.eqb_spec (cu_Password dto) EmptyString); [discriminate|].
  destruct (Z.ltb_spec (len (cu_Password dto)) 8); [discriminate|]. auto.
Qed.

(** [CreateUser] never succeeds while some row, active or not, holds the
    address. *)
Lemma CreateUser_blocked env (t : Table) dto e r :
  NewEmail (cu_Email dto) = Ok e -> In r t -> email r = value e ->
  exists err, CreateUser env t dto = (t, Err err).
Proof.
  intros He Hr Hem. unfold CreateUser. repo_unfold.
  destruct (validateCreateUserInput dto); [eauto|]. rewrite He.
  destruct (lookup_email t e) as [[x|]|]; [eauto| |eauto].
  destruct (hashPassword _ _) as [h|]; [|eauto].
  destruct (NewUser _ _ _ _ _) as [u|] eqn:Hu; [|eauto].
  assert (Heu : Email_ u = e).
  { unfold NewUser in Hu. destruct (String.eqb _ _); [discriminate|].
    destruct (String.eqb _ _); [discriminate|]. now injection Hu as <-. }
  destruct (Save_blocked t u r Hr) as [err ->]; [now rewrite Heu | |eauto].
  rewrite Heu. exact (NewEmail_TrimRight _ _ He).
Qed.

End AnyBcrypt.

End UniquenessFacts.

(* ------------------------------------------------------------------ *)
(** ** The sample table *)

Module FixtureFacts.
Import GoString GoErrors Domain Postgres TableConditions Fixtures.

Lemma two_users_well_formed : well_formed two_users.
Proof.
  split; [|split].
  - repeat constructor; simpl; intuition discriminate.
  - repeat constructor; simpl; intuition discriminate.
  - repeat constructor; simpl; lia.
Qed.

End FixtureFacts.

(* ------------------------------------------------------------------ *)
(** ** Registering again with the address of a soft-deleted user *)

Module EmailReuseFacts.
Import GoString GoStringFacts GoErrors Persistence Domain DomainFacts CanonicalFacts.
Import Postgres TableConditions PostgresFacts RepositoryFacts.
Import Application ServiceInterface ServiceFacts TableFacts SoftDeleteFacts.
Import UniquenessFacts Fixtures FixtureFacts.


Section AnyBcrypt.
Context {bcrypt : Bcrypt}.


End AnyBcrypt.


End EmailReuseFacts.

(* ------------------------------------------------------------------ *)
(** ** Updating a profile *)

Module UpdateFacts.
Import GoString GoStringFacts GoErrors Persistence Domain DomainFacts CanonicalFacts.
Import Postgres TableConditions PostgresFacts RepositoryFacts.
Import Application ServiceInterface ServiceFacts TableFacts SoftDeleteFacts.
Import UniquenessFacts Fixtures FixtureFacts.

Lemma own_address_no_violation (t : Table) (u : User) :
  address_is_own t u ->
  existsb (fun r => has_email (Value (Email_ u)) r && negb (has_id (ID u) r)) t = false.
Proof.
  intros H. apply existsb_false. intros r Hr.
  destruct (has_email (Value (Email_ u)) r) eqn:E; [|reflexivity].
  apply has_email_true in E. simpl.
  now rewrite (proj2 (has_id_true (ID u) r) (H r Hr E)).
Qed.


(** ... and succeeds when the row exists and the texts fit their columns. *)
Lemma Update_own_address_succeeds (t : Table) (u : User) (row : Row) :
  address_is_own t u -> In row t -> id row = ID u ->
  (String.length (Value (Email_ u)) <= 255)%nat ->
  (String.length (Name u) <= 100)%nat ->
  (String.length (PasswordHash u) <= 255)%nat ->
  exists t', Persistence.Update t u = (t', None).
Proof.
  intros Hown Hrow Hid Hle Hln Hlp. unfold Persistence.Update, Postgres.UpdateUser.
  cbn [up_id up_email up_name up_password_hash up_is_active up_updated_at].
  destruct (find_exists (has_id (ID u)) t row Hrow (proj2 (has_id_true _ _) Hid)) as [old ->].
  rewrite !varchar_fits by assumption.
  rewrite (own_address_no_violation t u Hown). eauto.
Qed.

Section AnyBcrypt.
Context {bcrypt : Bcrypt}.

(** In a well-formed table the user [FindByID] returns carries the stored
    address as it is, and no other row holds it. *)
Lemma FindByID_well_formed (t : Table) (i : UUID) (user : User) :
  well_formed t -> Persistence.FindByID t i = Ok user ->
  exists row, In row t /\ id row = ID user /\ ID user = i /\
              Value (Email_ user) = email row /\
              PasswordHash user = password_hash row /\ row_ok row /\
              forall r, In r t -> email r = email row -> r = row.
Proof.
  intros (_ & Hnd & Hok) Hf.
  apply FindByID_row in Hf as (row & Hrow & Hi & _ & Hu).
  apply toDomainUser_fields in Hu as (Hid & Hemail & _ & Hph & _).
  rewrite Forall_forall in Hok. pose proof (Hok row Hrow) as Hrok.
  destruct Hrok as (Hcanon & Hrest). rewrite Hcanon in Hemail. injection Hemail as Hemail.
  exists row. split; [assumption|]. split; [congruence|]. split; [congruence|].
  split; [now rewrite <- Hemail|]. split; [assumption|]. split; [now split|].
  intros r Hr Hre. now apply (NoDup_map_eq email t).
Qed.


End AnyBcrypt.


End UpdateFacts.

(* ------------------------------------------------------------------ *)
(** ** The table stays well formed *)

Module InvariantFacts.
Import GoString GoStringFacts GoErrors Persistence Domain DomainFacts CanonicalFacts.
Import Postgres TableConditions PostgresFacts RepositoryFacts.
Import Application ServiceInterface ServiceFacts TableFacts UniquenessFacts.

Lemma varchar_length (n : nat) (label s s' : string) :
  varchar n label s = Ok s' -> (String.length s' <= n)%nat.
Proof.
  unfold varchar. destruct (Nat.leb_spec (String.length s) n).
  - now intros [= <-].
  - destruct (all_blank _); [|discriminate]. intros [= <-]. apply length_take.
Qed.

Lemma NoDup_snoc {A} (l : list A) (x : A) :
  NoDup l -> ~ In x l -> NoDup (l ++ [x]).
Proof.
  induction l as [|a l IH]; simpl; intros Hnd Hx.
  - constructor; [tauto | constructor].
  - inversion Hnd as [|? ? Ha Hl]; subst. constructor.
    + intros Hin. apply in_app_or in Hin as [Hin|[->|[]]]; [contradiction|]. apply Hx. now left.
    + apply IH; [assumption|]. intros Hin. apply Hx. now right.
Qed.

Lemma Email_eta (e : Email) : mkEmail (value e) = e.
Proof. now destruct e. Qed.

Lemma well_formed_nil : well_formed [].
Proof. repeat split; constructor. Qed.

Lemma Save_well_formed (t : Table) (u : User) :
  well_formed t -> NewEmail (Value (Email_ u)) = Ok (Email_ u) ->
  well_formed (fst (Persistence.Save t u)).
Proof.
  intros Hwf Hcanon. pose proof Hwf as (Hids & Hems & Hrows).
  unfold Persistence.Save, Postgres.CreateUser.
  cbn [id email name password_hash is_active created_at updated_at].
  destruct (varchar 255 "255" (Value (Email_ u))) as [em|e] eqn:Ev;
    [|cbv beta iota; now destruct (isUniqueViolation (Some e))].
  apply (varchar_no_truncation _ _ _ _ (NewEmail_TrimRight _ _ Hcanon)) in Ev as [-> Hle].
  destruct (varchar 100 "100" (Name u)) as [nm|e] eqn:En;
    [|cbv beta iota; now destruct (isUniqueViolation (Some e))].
  destruct (varchar 255 "255" (PasswordHash u)) as [ph|e] eqn:Eh;
    [|cbv beta iota; now destruct (isUniqueViolation (Some e))].
  destruct (existsb (has_id (ID u)) t) eqn:Eid; [assumption|].
  destruct (existsb (has_email _) t) eqn:Eem; [assumption|].
  cbn [fst]. split; [|split].
  - rewrite map_app. apply NoDup_snoc; [assumption|]. cbn.
    intros Hin. apply in_map_iff in Hin as (x & Hx & Hin).
    apply not_true_iff_false in Eid. apply Eid, existsb_exists.
    exists x. split; [assumption | now apply has_id_true].
  - rewrite map_app. apply NoDup_snoc; [assumption|]. cbn.
    intros Hin. apply in_map_iff in Hin as (x & Hx & Hin).
    apply not_true_iff_false in Eem. apply Eem, existsb_exists.
    exists x. split; [assumption | now apply has_email_true].
  - apply Forall_app. split; [assumption|]. constructor; [|constructor].
    unfold row_ok. cbn. rewrite Hcanon, <- (Email_eta (Email_ u)) at 1.
    repeat split; try assumption; eapply varchar_length; eassumption.
Qed.

Lemma map_id_replace_row (i : UUID) (r : Row) (t : Table) :
  id r = i -> map id (replace_row i r t) = map id t.
Proof.
  intros Hr. induction t as [|y t IH]; simpl; [reflexivity|].
  destruct (has_id i y) eqn:E; simpl.
  - apply has_id_true in E. congruence.
  - now rewrite IH.
Qed.

Lemma NoDup_email_replace_row (i : UUID) (r : Row) (t : Table) :
  NoDup (map id t) -> NoDup (map email t) ->
  (forall x, In x t -> email x = email r -> id x = i) ->
  NoDup (map email (replace_row i r t)).
Proof.
  induction t as [|y t IH]; simpl; intros Hids Hems Hown; [constructor|].
  inversion Hids as [|? ? Hyid Hids']; subst.
  inversion Hems as [|? ? Hyem Hems']; subst.
  destruct (has_id i y) eqn:E; simpl.
  - apply has_id_true in E. constructor; [|assumption].
    intros Hin. apply in_map_iff in Hin as (x & Hx & Hin).
    apply Hyid. rewrite E, <- (Hown x (or_intror Hin) Hx). now apply in_map.
  - constructor.
    + intros Hin. apply in_map_iff in Hin as (x & Hx & Hin).
      apply In_replace_row in Hin as [->|Hin].
      * apply not_true_iff_false in E. apply E, has_id_true.
        apply (Hown y (or_introl eq_refl)). now symmetry.
      * apply Hyem. rewrite <- Hx. now apply in_map.
    + apply IH; try assumption. intros x Hx. apply Hown. now right.
Qed.

Lemma Forall_replace_row (P : Row -> Prop) (i : UUID) (r : Row) (t : Table) :
  P r -> Forall P t -> Forall P (replace_row i r t).
Proof.
  intros Hr. induction 1 as [|y t Hy Ht IH]; simpl; [constructor|].
  destruct (has_id i y); constructor; assumption.
Qed.

Lemma Update_well_formed (t : Table) (u : User) :
  well_formed t -> NewEmail (Value (Email_ u)) = Ok (Email_ u) ->
  well_formed (fst (Persistence.Update t u)).
Proof.
  intros Hwf Hcanon. pose proof Hwf as (Hids & Hems & Hrows).
  unfold Persistence.Update, Postgres.UpdateUser.
  cbn [up_id up_email up_name up_password_hash up_is_active up_updated_at].
  destruct (find (has_id (ID u)) t) as [old|] eqn:Eold; [|assumption].
  apply find_some in Eold as [_ Hold]. apply has_id_true in Hold.
  destruct (varchar 255 "255" (Value (Email_ u))) as [em|e] eqn:Ev;
    [|cbv beta iota; destruct (errors_Is e pgx_ErrNoRows);
      [|destruct (isUniqueViolation (Some e))]; assumption].
  apply (varchar_no_truncation _ _ _ _ (NewEmail_TrimRight _ _ Hcanon)) in Ev as [-> Hle].
  destruct (varchar 100 "100" (Name u)) as [nm|e] eqn:En;
    [|cbv beta iota; destruct (errors_Is e pgx_ErrNoRows);
      [|destruct (isUniqueViolation (Some e))]; assumption].
  destruct (varchar 255 "255" (PasswordHash u)) as [ph|e] eqn:Eh;
    [|cbv beta iota; destruct (errors_Is e pgx_ErrNoRows);
      [|destruct (isUniqueViolation (Some e))]; assumption].
  destruct (existsb _ t) eqn:Eother; [assumption|].
  cbn [fst]. split; [|split].
  - now rewrite map_id_replace_row.
  - apply NoDup_email_replace_row; try assumption. cbn.
    intros x Hx Hxe. destruct (has_id (ID u) x) eqn:E; [now apply has_id_true|].
    exfalso. apply not_true_iff_false in Eother. apply Eother, existsb_exists.
    exists x. split; [assumption|]. rewrite E.
    now rewrite (proj2 (has_email_true _ _) Hxe).
  - apply Forall_replace_row; [|assumption].
    unfold row_ok. cbn. rewrite Hcanon, <- (Email_eta (Email_ u)) at 1.
    repeat split; try assumption; eapply varchar_length; eassumption.
Qed.

Lemma Delete_well_formed (t : Table) (now : Timestamp) (i : UUID) :
  well_formed t -> well_formed (fst (Persistence.Delete t now i)).
Proof.
  intros (Hids & Hems & Hrows). rewrite Delete_total. cbn [fst]. split; [|split].
  - rewrite map_map. erewrite map_ext; [eassumption|]. apply soft_delete_row_id.
  - rewrite map_map. erewrite map_ext; [eassumption|]. apply soft_delete_row_email.
  - rewrite Forall_forall in *. intros r Hr.
    apply in_map_iff in Hr as (x & <- & Hx). specialize (Hrows x Hx).
    unfold soft_delete_row. now destruct (has_id i x).
Qed.

Section AnyBcrypt.
Context {bcrypt : Bcrypt}.

(** Every public method of the service maps a well-formed table to a
    well-formed table. *)
Lemma well_formed_serve env (t : Table) req :
  well_formed t -> well_formed (serve env t req).
Proof.
  intros Hwf.
  assert (Hrw : forall t' i, rewrites t t' i -> well_formed t').
  { intros t' i [->|(u & u' & _ & _ & Hc & ->)]; [assumption|].
    now apply Update_well_formed. }
  destruct req as [dto| | |j dto|j|j|j|j dto| ]; cbn [serve]; try assumption.
  - destruct (CreateUser_table env t dto) as [->|(u & Hc & ->)]; [assumption|].
    now apply Save_well_formed.
  - apply (Hrw _ j), UpdateUser_rewrites.
  - now apply Delete_well_formed.
  - apply (Hrw _ j), ActivateUser_rewrites.
  - apply (Hrw _ j), DeactivateUser_rewrites.
  - apply (Hrw _ j), ChangePassword_rewrites.
Qed.

(** Whatever calls are served from the empty table on, the table is well
    formed. *)
Lemma well_formed_reachable reqs : well_formed (serve_all reqs []).
Proof.
  assert (H : forall t, well_formed t -> well_formed (serve_all reqs t)).
  { induction reqs as [|[env req] reqs IH]; intros t Ht; cbn [serve_all]; [assumption|].
    now apply IH, well_formed_serve. }
  apply H, well_formed_nil.
Qed.

End AnyBcrypt.

End InvariantFacts.

(* ------------------------------------------------------------------ *)
(** ** Responses do not depend on stored hashes *)

Module ConfidentialityFacts.
Import GoString GoErrors Persistence Domain Postgres Application.
Import Confidentiality TableFacts.

Lemma find_same_public (p : Row -> bool) (t1 t2 : Table) :
  (forall r1 r2, same_public r1 r2 -> p r1 = p r2) ->
  same_public_table t1 t2 ->
  match find p t1, find p t2 with
  | Some r1, Some r2 => same_public r1 r2
  | None, None => True
  | _, _ => False
  end.
Proof.
  intros Hp. induction 1 as [|r1 r2 t1 t2 Hr Ht IH]; simpl; [exact I|].
  rewrite (Hp r1 r2 Hr). now destruct (p r2).
Qed.

Lemma toDomainUser_same_public (r1 r2 : Row) :
  same_public r1 r2 ->
  match Persistence.toDomainUser r1, Persistence.toDomainUser r2 with
  | Ok u1, Ok u2 => toUserResponseDTO u1 = toUserResponseDTO u2
  | Err e1, Err e2 => e1 = e2
  | _, _ => False
  end.
Proof.
  intros (Hi & He & Hn & Ha & Hc & Hu). unfold Persistence.toDomainUser.
  rewrite He. destruct (NewEmail (email r2)); [|reflexivity].
  unfold toUserResponseDTO. cbn. congruence.
Qed.

(** [GET /users/{id}] answers alike on two tables that differ only in
    password hashes. *)
Lemma GetUser_same_public (t1 t2 : Table) (i : option UUID) :
  same_public_table t1 t2 -> Handler.GetUser t1 i = Handler.GetUser t2 i.
Proof.
  intros Ht. destruct i as [i|]; [|reflexivity].
  unfold Handler.GetUser, GetUser. repo_unfold.
  unfold Persistence.FindByID, GetUserByID.
  pose proof (find_same_public (fun r => has_id i r && is_active r) t1 t2) as Hf.
  destruct (find _ t1) as [r1|], (find _ t2) as [r2|];
    try (exfalso; apply Hf; [|assumption];
         intros x y (Hi & _ & _ & Ha & _); unfold has_id; congruence);
    [|reflexivity].
  assert (Hr : same_public r1 r2).
  { apply Hf; [|assumption]. intros x y (Hi & _ & _ & Ha & _). unfold has_id. congruence. }
  pose proof (toDomainUser_same_public r1 r2 Hr) as Hd.
  destruct (Persistence.toDomainUser r1), (Persistence.toDomainUser r2);
    try contradiction; congruence.
Qed.

Lemma filter_same_public (t1 t2 : Table) :
  same_public_table t1 t2 ->
  same_public_table (filter is_active t1) (filter is_active t2).
Proof.
  induction 1 as [|r1 r2 t1 t2 Hr Ht IH]; simpl; [constructor|].
  pose proof Hr as (_ & _ & _ & Ha & _). rewrite Ha.
  destruct (is_active r2) eqn:E; [constructor|]; assumption.
Qed.

Lemma insert_desc_same_public (r1 r2 : Row) (l1 l2 : list Row) :
  same_public r1 r2 -> same_public_table l1 l2 ->
  same_public_table (insert_desc r1 l1) (insert_desc r2 l2).
Proof.
  intros Hr. induction 1 as [|x1 x2 l1 l2 Hx Hl IH]; simpl.
  - constructor; [assumption | constructor].
  - replace (created_at x1) with (created_at x2) by (symmetry; apply Hx).
    replace (created_at r1) with (created_at r2) by (symmetry; apply Hr).
    destruct (created_at x2 <? created_at r2); constructor; try assumption.
    now constructor.
Qed.

Lemma order_same_public (t1 t2 : Table) :
  same_public_table t1 t2 ->
  same_public_table (order_by_created_at_desc t1) (order_by_created_at_desc t2).
Proof.
  unfold order_by_created_at_desc.
  induction 1 as [|r1 r2 t1 t2 Hr Ht IH]; simpl; [constructor|].
  now apply insert_desc_same_public.
Qed.

Lemma skipn_same_public (n : nat) (t1 t2 : Table) :
  same_public_table t1 t2 -> same_public_table (skipn n t1) (skipn n t2).
Proof.
  intros H. revert n. induction H as [|r1 r2 l1 l2 Hr Hl IH]; intros [|n]; simpl.
  - constructor.
  - constructor.
  - now constructor.
  - apply IH.
Qed.

Lemma firstn_same_public (n : nat) (t1 t2 : Table) :
  same_public_table t1 t2 -> same_public_table (firstn n t1) (firstn n t2).
Proof.
  intros H. revert n. induction H as [|r1 r2 l1 l2 Hr Hl IH]; intros [|n]; simpl.
  - constructor.
  - constructor.
  - constructor.
  - constructor; [assumption | apply IH].
Qed.

Lemma map_rows_same_public (l1 l2 : list Row) :
  same_public_table l1 l2 -> forall i,
  match Persistence.map_rows i l1, Persistence.map_rows i l2 with
  | Ok us1, Ok us2 => map toUserResponseDTO us1 = map toUserResponseDTO us2
  | Err e1, Err e2 => e1 = e2
  | _, _ => False
  end.
Proof.
  induction 1 as [|r1 r2 l1 l2 Hr Hl IH]; intros i; simpl; [reflexivity|].
  pose proof (toDomainUser_same_public r1 r2 Hr) as Hd.
  destruct (Persistence.toDomainUser r1), (Persistence.toDomainUser r2);
    try contradiction; [|now subst].
  specialize (IH (S i)).
  destruct (Persistence.map_rows (S i) l1), (Persistence.map_rows (S i) l2);
    try contradiction; simpl; congruence.
Qed.

Lemma length_same_public (t1 t2 : Table) :
  same_public_table t1 t2 -> List.length t1 = List.length t2.
Proof. induction 1; simpl; congruence. Qed.

(** [GET /users] answers alike on two tables that differ only in password
    hashes. *)
Lemma ListUsers_same_public (t1 t2 : Table) (limit offset : Z) :
  same_public_table t1 t2 ->
  Handler.ListUsers t1 limit offset = Handler.ListUsers t2 limit offset.
Proof.
  intros Ht. unfold Handler.ListUsers, ListUsers. repo_unfold.
  unfold Persistence.List_, Persistence.Count, ListUsers, CountUsers.
  rewrite (length_same_public _ _ (filter_same_public _ _ Ht)).
  unfold Postgres.ListUsers.
  destruct (_ <? 0); [reflexivity|]. destruct (_ <? 0); [reflexivity|].
  match goal with
  | |- context [Persistence.map_rows 0 (firstn ?n (skipn ?m _))] =>
      pose proof (map_rows_same_public _ _
                    (firstn_same_public n _ _
                       (skipn_same_public m _ _
                          (order_same_public _ _ (filter_same_public _ _ Ht)))) 0%nat) as Hm
  end.
  destruct (Persistence.map_rows 0 _), (Persistence.map_rows 0 _);
    try contradiction; [|now subst].
  unfold Handler.toUserListResponse. cbn. now rewrite Hm.
Qed.

End ConfidentialityFacts.

(* ------------------------------------------------------------------ *)
(** ** The program run on the sample inputs *)

Module ScenarioFacts.
Import GoString GoErrors Persistence Domain Application Fixtures.

(** The example of [NewEmail]'s doc comment. *)
Example NewEmail_doc_comment :
  NewEmail "User@Example.com" = Ok (mkEmail "user@example.com").
Proof. reflexivity. Qed.

Example NewEmail_malformed :
  NewEmail "user.example.com" = Err ErrInvalidEmail /\
  NewEmail "user@example" = Err ErrInvalidEmail /\
  NewEmail "user@example.c" = Err ErrInvalidEmail /\
  NewEmail "   " = Err ErrInvalidEmail.
Proof. repeat split. Qed.

(** Alice and Bob register one after the other; the list shows the newer
    first. *)
Example register_two_then_list :
  let t1 := fst (CreateUser env1 ([] : Postgres.Table) alice) in
  let t2 := fst (CreateUser env2 t1 bob) in
  t2 = two_users /\
  (exists l, ListUsers t2 10 0 = Ok l /\
             map dto_Email (Users l) = ["b@x.com"; "a@x.com"] /\
             Total l = 2 /\ HasMore l = false).
Proof.
  cbv zeta. split; [reflexivity|]. eexists. split; [reflexivity|]. repeat split.
Qed.

(** A second registration under an address in use, in another case. *)
Example register_same_address_twice :
  snd (CreateUser env3 two_users (mkCreateUserDTO "A@X.COM" "Eve" "password-e")) =
  Err ErrEmailAlreadyExists.
Proof. reflexivity. Qed.

(** Alice changes her password; the old one no longer verifies. *)
Example change_password_then_verify :
  let t := fst (ChangePassword env3 two_users 1%N
                  (mkChangePasswordDTO "password-a" "new-password")) in
  ChangePassword env3 t 1%N (mkChangePasswordDTO "password-a" "other-password") =
    (t, Some ErrInvalidPassword) /\
  snd (ChangePassword env3 t 1%N (mkChangePasswordDTO "new-password" "other-password")) =
    None.
Proof. split; reflexivity. Qed.

(** An offset whose low 32 bits read as a negative number is turned down by
    the store. *)
Example list_users_offset_two_to_the_31 :
  exists e, ListUsers two_users 10 2147483648 = Err e.
Proof. eexists. reflexivity. Qed.

End ScenarioFacts.

(* ------------------------------------------------------------------ *)
(** ** The matcher decides the pattern *)

Module RegexpFacts.
Import GoString GoStringFacts Regexp RegexpSemantics.

Lemma cat_inv (a b : regex) (w : string) :
  matches (Cat a b) w -> exists s t, w = s ++ t /\ matches a s /\ matches b t.
Proof. intros H. inversion H; subst. eauto. Qed.

Lemma alt_inv (a b : regex) (w : string) :
  matches (Alt a b) w -> matches a w \/ matches b w.
Proof. intros H. inversion H; subst; auto. Qed.

Lemma class_inv (p : ascii -> bool) (w : string) :
  matches (Class p) w -> exists c, w = String c EmptyString /\ p c = true.
Proof. intros H. inversion H; subst. eauto. Qed.

Lemma append_empty (s t : string) :
  s ++ t = EmptyString -> s = EmptyString /\ t = EmptyString.
Proof. destruct s; simpl; [auto | discriminate]. Qed.

Lemma nullable_matches (r : regex) : nullable r = true <-> matches r EmptyString.
Proof.
  induction r as [| |p|a IHa b IHb|a IHa b IHb|a IHa]; simpl.
  - split; [discriminate | intros H; inversion H].
  - split; [constructor | reflexivity].
  - split; [discriminate | intros H; inversion H].
  - rewrite andb_true_iff, IHa, IHb. split.
    + intros [Ha Hb]. exact (MCat a b _ _ Ha Hb).
    + intros H. apply cat_inv in H as (u & v & Heq & Hu & Hv).
      symmetry in Heq. apply append_empty in Heq as [-> ->]. now split.
  - rewrite orb_true_iff, IHa, IHb. split.
    + intros [H|H]; [now apply MAltL | now apply MAltR].
    + apply alt_inv.
  - split; [constructor | reflexivity].
Qed.

(** A non-empty text in a star starts with a non-empty piece. *)
Lemma star_cons (a : regex) (c : ascii) (s : string) :
  matches (Star a) (String c s) ->
  exists s1 s2, s = s1 ++ s2 /\ matches a (String c s1) /\ matches (Star a) s2.
Proof.
  intros H. remember (Star a) as r eqn:Hr. remember (String c s) as w eqn:Hw.
  revert s Hw.
  induction H as [| | | | | |a' u v Hu _ Hv IHv]; intros rest Hw; try discriminate.
  injection Hr as ->. destruct u as [|d u'].
  - simpl in Hw. now apply IHv.
  - simpl in Hw. injection Hw as -> <-. eauto.
Qed.

Lemma deriv_matches (r : regex) (c : ascii) (s : string) :
  matches (deriv c r) s <-> matches r (String c s).
Proof.
  revert s. induction r as [| |p|a IHa b IHb|a IHa b IHb|a IHa]; intros s; simpl.
  - split; intros H; inversion H.
  - split; intros H; inversion H.
  - destruct (p c) eqn:Hp; split; intros H.
    + inversion H; subst. now constructor.
    + apply class_inv in H as (d & [= -> ->] & _). constructor.
    + inversion H.
    + apply class_inv in H as (d & [= -> ->] & Hd). congruence.
  - assert (Hcat : matches (Cat (deriv c a) b) s ->
                   matches (Cat a b) (String c s)).
    { intros H. apply cat_inv in H as (u & v & -> & Hu & Hv).
      apply IHa in Hu. exact (MCat a b (String c u) v Hu Hv). }
    assert (Hinv : matches (Cat a b) (String c s) ->
                   matches (Cat (deriv c a) b) s \/
                   matches a EmptyString /\ matches (deriv c b) s).
    { intros H. apply cat_inv in H as (u & v & Heq & Hu & Hv). destruct u as [|d u'].
      - simpl in Heq. subst v. right. split; [assumption | now apply IHb].
      - simpl in Heq. injection Heq as <- ->. left.
        apply MCat; [now apply IHa | assumption]. }
    destruct (nullable a) eqn:Hn; split; intros H.
    + apply alt_inv in H as [H|H]; [now apply Hcat|].
      apply IHb in H. apply nullable_matches in Hn.
      exact (MCat a b EmptyString _ Hn H).
    + apply Hinv in H as [H|[_ H]]; [now apply MAltL | now apply MAltR].
    + now apply Hcat.
    + apply Hinv in H as [H|[H _]]; [assumption|].
      apply nullable_matches in H. congruence.
  - split; intros H.
    + apply alt_inv in H as [H|H]; [apply MAltL; now apply IHa | apply MAltR; now apply IHb].
    + apply alt_inv in H as [H|H]; [apply MAltL; now apply IHa | apply MAltR; now apply IHb].
  - split; intros H.
    + apply cat_inv in H as (u & v & -> & Hu & Hv).
      apply IHa in Hu. exact (MStarApp a (String c u) v Hu Hv).
    + apply star_cons in H as (s1 & s2 & -> & H1 & H2).
      apply MCat; [now apply IHa | assumption].
Qed.

(** [MatchString] accepts exactly the texts the pattern denotes. *)
Lemma MatchString_matches (r : regex) (s : string) :
  MatchString r s = true <-> matches r s.
Proof.
  revert r. induction s as [|c s IH]; intros r; simpl.
  - apply nullable_matches.
  - rewrite IH. apply deriv_matches.
Qed.

Lemma all_in_app (p : ascii -> bool) (s t : string) :
  all_in p (s ++ t) = all_in p s && all_in p t.
Proof.
  induction s as [|c s IH]; simpl; [reflexivity|]. now rewrite IH, andb_assoc.
Qed.

Lemma star_class (p : ascii -> bool) (s : string) :
  matches (Star (Class p)) s <-> all_in p s = true.
Proof.
  split.
  - intros H. remember (Star (Class p)) as r eqn:Hr.
    induction H as [| | | | | |a u v Hu _ Hv IHv]; try discriminate; [reflexivity|].
    injection Hr as ->. apply class_inv in Hu as (c & -> & Hc). simpl.
    rewrite (IHv eq_refl). now rewrite Hc.
  - induction s as [|c s IH]; simpl; intros H; [constructor|].
    apply andb_true_iff in H as [Hc Hs].
    exact (MStarApp (Class p) (String c EmptyString) s (MClass p c Hc) (IH Hs)).
Qed.

Lemma plus_class (p : ascii -> bool) (s : string) :
  matches (Plus (Class p)) s <-> s <> EmptyString /\ all_in p s = true.
Proof.
  unfold Plus. split.
  - intros H. apply cat_inv in H as (u & v & -> & Hu & Hv).
    apply class_inv in Hu as (c & -> & Hc). apply star_class in Hv. simpl.
    split; [discriminate|]. now rewrite Hc, Hv.
  - intros [Hne Hall]. destruct s as [|c s]; [contradiction|]. simpl in Hall.
    apply andb_true_iff in Hall as [Hc Hs].
    exact (MCat _ _ (String c EmptyString) s (MClass p c Hc) (proj2 (star_class p s) Hs)).
Qed.

Lemma lit_matches (c : ascii) (s : string) :
  matches (Lit c) s <-> s = String c EmptyString.
Proof.
  unfold Lit. split.
  - intros H. apply class_inv in H as (d & -> & Hd). now apply Ascii.eqb_eq in Hd as ->.
  - intros ->. constructor. apply Ascii.eqb_refl.
Qed.

Lemma at_least_2_class (p : ascii -> bool) (s : string) :
  matches (AtLeast2 (Class p)) s <-> (2 <= String.length s)%nat /\ all_in p s = true.
Proof.
  unfold AtLeast2. split.
  - intros H. apply cat_inv in H as (u & v & -> & Hu & Hv).
    apply cat_inv in Hv as (u' & v' & -> & Hu' & Hv').
    apply class_inv in Hu as (c & -> & Hc). apply class_inv in Hu' as (d & -> & Hd).
    apply star_class in Hv'. simpl. split; [lia|]. now rewrite Hc, Hd, Hv'.
  - intros [Hlen Hall]. destruct s as [|c [|d s]]; simpl in Hlen; try lia.
    simpl in Hall. apply andb_true_iff in Hall as [Hc Hall].
    apply andb_true_iff in Hall as [Hd Hs].
    apply (MCat _ _ (String c EmptyString) (String d s) (MClass p c Hc)).
    apply (MCat _ _ (String d EmptyString) s (MClass p d Hd)).
    now apply star_class.
Qed.

(** [emailRegex] denotes the shape [local@domain.tld]. *)
Lemma emailRegex_shape (s : string) :
  MatchString Domain.emailRegex s = true <-> email_shape s.
Proof.
  rewrite MatchString_matches. unfold Domain.emailRegex, email_shape. split.
  - intros H.
    apply cat_inv in H as (l & r1 & -> & Hl & H).
    apply cat_inv in H as (at_ & r2 & -> & Hat & H).
    apply cat_inv in H as (d & r3 & -> & Hd & H).
    apply cat_inv in H as (dot & t & -> & Hdot & Ht).
    apply plus_class in Hl as [Hl1 Hl2]. apply plus_class in Hd as [Hd1 Hd2].
    apply lit_matches in Hat as ->. apply lit_matches in Hdot as ->.
    apply at_least_2_class in Ht as [Ht1 Ht2].
    exists l, d, t. repeat split; assumption.
  - intros (l & d & t & -> & Hl1 & Hl2 & Hd1 & Hd2 & Ht1 & Ht2).
    apply MCat; [now apply plus_class|].
    apply (MCat _ _ "@"); [now apply lit_matches|].
    apply MCat; [now apply plus_class|].
    apply (MCat _ _ "."); [now apply lit_matches|].
    now apply at_least_2_class.
Qed.

End RegexpFacts.

(* ------------------------------------------------------------------ *)
(** ** The addresses [NewEmail] accepts *)

Module AddressFacts.
Import GoString GoStringFacts Regexp RegexpSemantics RegexpFacts GoErrors Domain.
Import DomainFacts AddressBytes Columns.

Lemma all_in_weaken (p q : ascii -> bool) (s : string) :
  (forall c, p c = true -> q c = true) -> all_in p s = true -> all_in q s = true.
Proof.
  intros Hpq. induction s as [|c s IH]; simpl; [reflexivity|].
  intros H. apply andb_true_iff in H as [Hc Hs]. now rewrite (Hpq c Hc), (IH Hs).
Qed.

Lemma all_in_and (p q : ascii -> bool) (s : string) :
  all_in p s = true -> all_in q s = true -> all_in (fun c => p c && q c) s = true.
Proof.
  induction s as [|c s IH]; simpl; [reflexivity|].
  intros Hp Hq. apply andb_true_iff in Hp as [Hp1 Hp2]. apply andb_true_iff in Hq as [Hq1 Hq2].
  now rewrite Hp1, Hq1, IH.
Qed.

Lemma count_byte_app (c : ascii) (s t : string) :
  count_byte c (s ++ t) = (count_byte c s + count_byte c t)%nat.
Proof. induction s as [|d s IH]; simpl; [reflexivity|]. rewrite IH. lia. Qed.

Lemma count_byte_none (p : ascii -> bool) (c : ascii) (s : string) :
  p c = false -> all_in p s = true -> count_byte c s = O.
Proof.
  intros Hc. induction s as [|d s IH]; simpl; [reflexivity|].
  intros H. apply andb_true_iff in H as [Hd Hs]. rewrite (IH Hs).
  destruct (Ascii.eqb_spec c d) as [->|_]; [congruence | reflexivity].
Qed.

Lemma ToLower_no_upper (s : string) :
  all_in (fun c => negb (is_upper c)) (ToLower s) = true.
Proof.
  induction s as [|c s IH]; simpl; [reflexivity|]. rewrite IH, andb_true_r.
  destruct c as [[] [] [] [] [] [] [] []]; reflexivity.
Qed.

Lemma local_class_byte (c : ascii) :
  local_class c = true -> (is_upper c || address_byte c) = true.
Proof. destruct c as [[] [] [] [] [] [] [] []]; simpl; intros H; try reflexivity; discriminate H. Qed.

Lemma domain_class_byte (c : ascii) :
  domain_class c = true -> (is_upper c || address_byte c) = true.
Proof. destruct c as [[] [] [] [] [] [] [] []]; simpl; intros H; try reflexivity; discriminate H. Qed.

Lemma alpha_class_byte (c : ascii) :
  alpha_class c = true -> (is_upper c || address_byte c) = true.
Proof. destruct c as [[] [] [] [] [] [] [] []]; simpl; intros H; try reflexivity; discriminate H. Qed.

Lemma email_shape_bytes (s : string) :
  email_shape s -> all_in (fun c => is_upper c || address_byte c) s = true.
Proof.
  intros (l & d & t & -> & _ & Hl & _ & Hd & _ & Ht).
  rewrite !all_in_app.
  rewrite (all_in_weaken _ _ l local_class_byte Hl).
  rewrite (all_in_weaken _ _ d domain_class_byte Hd).
  now rewrite (all_in_weaken _ _ t alpha_class_byte Ht).
Qed.

Lemma email_shape_one_at (s : string) : email_shape s -> count_byte "@" s = 1%nat.
Proof.
  intros (l & d & t & -> & _ & Hl & _ & Hd & _ & Ht).
  rewrite !count_byte_app.
  rewrite (count_byte_none local_class "@" l eq_refl Hl).
  rewrite (count_byte_none domain_class "@" d eq_refl Hd).
  now rewrite (count_byte_none alpha_class "@" t eq_refl Ht).
Qed.

(** X1.  [NewEmail] accepts a raw string of bytes below 128 exactly when
    its trimmed, lower-cased form has the shape [local@domain.tld] (a
    non-empty local part over [a-zA-Z0-9._%+-], a non-empty domain over
    [a-zA-Z0-9.-], a dot and at least two letters), and the accepted value
    is that form.  An accepted value holds exactly one [@] and consists of
    lower-case letters, digits and the bytes [. _ % + - @] only: no
    upper-case letter, no white space, no byte from 128 on. *)
Theorem NewEmail_accepts_shape (raw : string) (e : Email) :
  (ascii_text raw = true ->
   (NewEmail raw = Ok e <->
    email_shape (TrimSpace (ToLower raw)) /\ e = mkEmail (TrimSpace (ToLower raw)))) /\
  (NewEmail raw = Ok e ->
   count_byte "@" (value e) = 1%nat /\ all_in address_byte (value e) = true).
Proof.
  assert (Hiff : NewEmail raw = Ok e <->
                 email_shape (TrimSpace (ToLower raw)) /\
                 e = mkEmail (TrimSpace (ToLower raw))).
  { unfold NewEmail. rewrite <- emailRegex_shape.
    destruct (String.eqb_spec (TrimSpace (ToLower raw)) EmptyString) as [He|He].
    - rewrite He. split; [discriminate | intros [H _]; discriminate H].
    - destruct (MatchString emailRegex _); simpl.
      + split; [intros [= <-]; now split | now intros [_ ->]].
      + split; [discriminate | intros [H _]; discriminate H]. }
  split; [intros _; exact Hiff|].
  intros H. apply Hiff in H as [Hshape ->]. simpl. split.
  - now apply email_shape_one_at.
  - pose proof (email_shape_bytes _ Hshape) as Hb.
    pose proof (ToLower_no_upper (TrimSpace raw)) as Hl.
    rewrite <- TrimSpace_ToLower in Hl.
    pose proof (all_in_and _ _ _ Hb Hl) as Hboth.
    revert Hboth. apply all_in_weaken.
    intros c Hc. destruct (is_upper c); [discriminate Hc|].
    simpl in Hc. now rewrite andb_true_r in Hc.
Qed.

Lemma NewEmail_accepts_shape_witness :
  email_shape (TrimSpace (ToLower " John.Doe+Tag@Mail.Example.ORG ")) /\
  count_byte "@" "john.doe+tag@mail.example.org" = 1%nat /\
  all_in address_byte "john.doe+tag@mail.example.org" = true.
Proof.
  destruct (NewEmail_accepts_shape " John.Doe+Tag@Mail.Example.ORG "
              (mkEmail "john.doe+tag@mail.example.org")) as [Hshape Hbytes].
  split; [exact (proj1 (proj1 (Hshape eq_refl) eq_refl)) | exact (Hbytes eq_refl)].
Defined.

End AddressFacts.

(* ------------------------------------------------------------------ *)
(** ** The substring test of the repository *)

Module ContainsFacts.
Import GoString GoStringFacts CanonicalFacts RegexpSemantics Persistence.

Lemma length_app (s t : string) :
  String.length (s ++ t) = (String.length s + String.length t)%nat.
Proof. induction s as [|c s IH]; simpl; [reflexivity | now rewrite IH]. Qed.

Lemma drop_app (p s : string) : drop (String.length p) (p ++ s) = s.
Proof. induction p as [|c p IH]; simpl; [reflexivity | exact IH]. Qed.

Lemma take_app (p s : string) : take (String.length p) (p ++ s) = p.
Proof. induction p as [|c p IH]; simpl; [reflexivity | now rewrite IH]. Qed.

Lemma length_take_min (n : nat) (s : string) :
  String.length (take n s) = Nat.min n (String.length s).
Proof.
  revert s. induction n as [|n IH]; intros [|c s]; simpl; try reflexivity.
  now rewrite IH.
Qed.

Lemma length_drop (n : nat) (s : string) :
  String.length (drop n s) = (String.length s - n)%nat.
Proof.
  revert s. induction n as [|n IH]; intros [|c s]; simpl; try reflexivity; try lia.
  apply IH.
Qed.

(** Within the bounds of [s], the window [s[i:i+len(sub)]] equals [sub]
    exactly when [sub] occurs in [s] at position [i]. *)
Lemma window_eq (i : nat) (s sub : string) :
  (i + String.length sub <= String.length s)%nat ->
  (slice i (i + String.length sub) s = sub <->
   exists p q, s = p ++ sub ++ q /\ String.length p = i).
Proof.
  intros Hlen.
  unfold slice. replace (i + String.length sub - i)%nat with (String.length sub) by lia.
  split.
  - intros H. exists (take i s), (drop (String.length sub) (drop i s)). split.
    + rewrite <- H at 1. now rewrite take_drop, take_drop.
    + rewrite length_take_min. lia.
  - intros (p & q & -> & <-). now rewrite drop_app, take_app.
Qed.

Lemma findSubstring_from_spec (n i : nat) (s sub : string) :
  findSubstring_from n i s sub = true <->
  exists j, (i <= j < i + n)%nat /\ slice j (j + String.length sub) s = sub.
Proof.
  revert i. induction n as [|n IH]; intros i; simpl.
  - split; [discriminate | intros (j & Hj & _); lia].
  - destruct (String.eqb_spec (slice i (i + String.length sub) s) sub) as [He|Hne].
    + split; [|reflexivity]. intros _. exists i. split; [lia | assumption].
    + rewrite IH. split.
      * intros (j & Hj & H). exists j. split; [lia | assumption].
      * intros (j & Hj & H). destruct (Nat.eq_dec j i) as [->|Hji]; [contradiction|].
        exists j. split; [lia | assumption].
Qed.

(** The scan of [findSubstring], on a text at least as long as what is
    looked for. *)
Lemma findSubstring_scan (s sub : string) :
  (String.length sub <= String.length s)%nat ->
  (findSubstring s sub = true <-> is_substring sub s).
Proof.
  intros Hle. unfold findSubstring, is_substring. rewrite findSubstring_from_spec. split.
  - intros (j & Hj & H). apply window_eq in H as (p & q & -> & _); [eauto | lia].
  - intros (p & q & ->). exists (String.length p). split.
    + rewrite !length_app. lia.
    + apply window_eq; [rewrite !length_app; lia | eauto].
Qed.

(** The shortcuts of [contains] (equal strings, a prefix, a suffix) and the
    scan together. *)
Lemma contains_true_iff (s sub : string) :
  contains s sub = true <-> is_substring sub s.
Proof.
  unfold contains. cbv zeta. split.
  - intros H. apply andb_true_iff in H as [Hle H]. apply Nat.leb_le in Hle.
    apply orb_true_iff in H as [H|H].
    { apply String.eqb_eq in H as ->. exists EmptyString, EmptyString.
      simpl. now rewrite app_empty_r. }
    apply andb_true_iff in H as [_ H].
    apply orb_true_iff in H as [H|H]; [apply orb_true_iff in H as [H|H]|].
    + apply String.eqb_eq in H.
      change (String.length sub) with (0 + String.length sub)%nat in H.
      apply window_eq in H as (p & q & -> & _); [now exists p, q | simpl; lia].
    + apply String.eqb_eq in H.
      replace (String.length s) with
        ((String.length s - String.length sub) + String.length sub)%nat in H at 2 by lia.
      apply window_eq in H as (p & q & -> & _); [now exists p, q | lia].
    + apply andb_true_iff in H as [_ H]. now apply findSubstring_scan.
  - intros (p & q & ->). rewrite !length_app.
    apply andb_true_iff. split; [apply Nat.leb_le; lia|].
    destruct p as [|c p].
    + destruct q as [|d q].
      * simpl. rewrite app_empty_r, String.eqb_refl. reflexivity.
      * apply orb_true_iff. right. apply andb_true_iff. split.
        { apply Nat.ltb_lt. simpl. lia. }
        apply orb_true_iff. left. apply orb_true_iff. left. apply String.eqb_eq.
        change (String.length sub) with (0 + String.length sub)%nat at 1.
        apply window_eq; [rewrite !length_app; simpl; lia|].
        exists EmptyString, (String d q). now split.
    + apply orb_true_iff. right. apply andb_true_iff. split.
      { apply Nat.ltb_lt. simpl. lia. }
      destruct q as [|d q].
      * apply orb_true_iff. left. apply orb_true_iff. right. apply String.eqb_eq.
        simpl String.length.
        replace (S (String.length p) + (String.length sub + 0) - String.length sub)%nat
          with (S (String.length p)) by lia.
        replace (S (String.length p) + (String.length sub + 0))%nat
          with (S (String.length p) + String.length sub)%nat by lia.
        apply window_eq; [rewrite !length_app; simpl; lia|].
        exists (String c p), EmptyString. now split.
      * apply orb_true_iff. right. apply andb_true_iff. split.
        { apply Nat.ltb_lt. simpl. lia. }
        apply findSubstring_scan; [rewrite !length_app; lia|]. now exists (String c p), (String d q).
Qed.

(** X2.  [contains] is a correct substring test: it answers true exactly
    when the second string occurs somewhere in the first, the empty string
    and the whole string included; and so is [findSubstring] whenever it is
    called on a text at least as long as what is looked for. *)
Theorem contains_is_substring (s sub : string) :
  (contains s sub = true <-> is_substring sub s) /\
  ((String.length sub <= String.length s)%nat ->
   (findSubstring s sub = true <-> is_substring sub s)).
Proof.
  split.
  - apply contains_true_iff.
  - apply findSubstring_scan.
Qed.

Lemma contains_is_substring_witness :
  findSubstring "ERROR: duplicate key value" "duplicate key" = true <->
  is_substring "duplicate key" "ERROR: duplicate key value".
Proof.
  apply (proj2 (contains_is_substring "ERROR: duplicate key value" "duplicate key")).
  simpl. lia.
Defined.

End ContainsFacts.

(* ------------------------------------------------------------------ *)
(** ** Recognising a broken constraint; the outcomes of [Save] *)

Module SaveFacts.
Import GoString GoStringFacts GoErrors Persistence Domain DomainFacts CanonicalFacts.
Import RegexpSemantics ContainsFacts.
Import Postgres TableConditions PostgresFacts RepositoryFacts UniquenessFacts Outcomes.

Lemma is_substring_wrap (sub s b a : string) :
  is_substring sub s -> is_substring sub (b ++ s ++ a).
Proof.
  intros (p & q & ->). exists (b ++ p), (q ++ a).
  now rewrite !GoStringFacts.app_assoc.
Qed.

(** X3.  [isUniqueViolation] is a test on the error's text alone: it answers
    true exactly when the text holds [unique constraint] or [duplicate key]
    somewhere (the comparison with the one fixed message adds nothing), never
    for a nil error; so an error stays recognised under any wrapping by
    [fmt.Errorf], and any error whose text happens to hold one of the two
    phrases is taken for a broken uniqueness constraint. *)
Theorem isUniqueViolation_textual :
  isUniqueViolation None = false /\
  (forall e : error,
     isUniqueViolation (Some e) = true <->
     is_substring "unique constraint" (Error e) \/ is_substring "duplicate key" (Error e)) /\
  (forall (e : error) (before after : string),
     isUniqueViolation (Some e) = true ->
     isUniqueViolation (Some (fmt_Errorf before e after)) = true).
Proof.
  assert (Hiff : forall e : error,
            isUniqueViolation (Some e) = true <->
            is_substring "unique constraint" (Error e) \/
            is_substring "duplicate key" (Error e)).
  { intros e. unfold isUniqueViolation.
    rewrite !orb_true_iff, String.eqb_eq.
    rewrite (contains_true_iff (Error e) "unique constraint").
    rewrite (contains_true_iff (Error e) "duplicate key").
    split; [|tauto]. intros [[H|H]|H]; auto.
    left. rewrite H. exists "ERROR: duplicate key value violates ", " (SQLSTATE 23505)".
    reflexivity. }
  split; [reflexivity|]. split; [exact Hiff|].
  intros e b a H. apply Hiff. apply Hiff in H. cbn [Error].
  destruct H as [H|H]; [left | right]; now apply is_substring_wrap.
Qed.

Lemma isUniqueViolation_textual_witness :
  isUniqueViolation
    (Some (fmt_Errorf "failed to create user: " (unique_violation "users_pkey") "")) = true.
Proof.
  exact (proj2 (proj2 isUniqueViolation_textual) (unique_violation "users_pkey")
           "failed to create user: " EmptyString eq_refl).
Defined.



(** When [Save] returns nil, the table has grown by one row at the end, no
    earlier row has its identifier or its address, and the row holds the
    user's fields, the texts as the columns took them. *)
Lemma Save_success (t t' : Table) (u : User) :
  Persistence.Save t u = (t', None) ->
  exists em nm ph,
    varchar 255 "255" (Value (Email_ u)) = Ok em /\
    varchar 100 "100" (Name u) = Ok nm /\
    varchar 255 "255" (PasswordHash u) = Ok ph /\
    t' = (t ++ [mkRow (ID u) em nm ph (IsActive u) (CreatedAt u) (UpdatedAt u)])%list /\
    (forall x, In x t -> id x <> ID u) /\
    (forall x, In x t -> email x <> em).
Proof.
  unfold Persistence.Save, Postgres.CreateUser.
  cbn [id email name password_hash is_active created_at updated_at].
  destruct (varchar 255 "255" (Value (Email_ u))) as [em|e];
    [|cbv beta iota; destruct (isUniqueViolation (Some e)); discriminate].
  destruct (varchar 100 "100" (Name u)) as [nm|e];
    [|cbv beta iota; destruct (isUniqueViolation (Some e)); discriminate].
  destruct (varchar 255 "255" (PasswordHash u)) as [ph|e];
    [|cbv beta iota; destruct (isUniqueViolation (Some e)); discriminate].
  destruct (existsb (has_id (ID u)) t) eqn:Eid;
    [cbv beta iota; rewrite isUniqueViolation_pkey; discriminate|].
  destruct (existsb (has_email em) t) eqn:Eem;
    [cbv beta iota; rewrite isUniqueViolation_email_key; discriminate|].
  intros [= <-]. exists em, nm, ph. repeat split.
  - intros x Hx Hid. apply not_true_iff_false in Eid. apply Eid.
    apply existsb_exists. exists x. split; [assumption | now apply has_id_true].
  - intros x Hx Hem. apply not_true_iff_false in Eem. apply Eem.
    apply existsb_exists. exists x. split; [assumption | now apply has_email_true].
Qed.

End SaveFacts.

(* ------------------------------------------------------------------ *)
(** ** Registering *)

Module RegistrationFacts.
Import GoString GoStringFacts GoErrors Persistence Domain DomainFacts CanonicalFacts.
Import Postgres TableConditions PostgresFacts RepositoryFacts.
Import Application ServiceInterface ServiceFacts TableFacts UniquenessFacts.
Import InvariantFacts Outcomes SaveFacts Columns Fixtures.

Lemma find_snoc {A} (f : A -> bool) (l : list A) (x : A) :
  (forall y, In y l -> f y = false) -> f x = true -> find f (l ++ [x]) = Some x.
Proof.
  intros Hl Hx. induction l as [|y l IH]; simpl; [now rewrite Hx|].
  rewrite (Hl y (or_introl eq_refl)). apply IH. intros z Hz. apply Hl. now right.
Qed.

Section AnyBcrypt.
Context {bcrypt : Bcrypt}.

(** The steps a successful [CreateUser] went through. *)
Lemma CreateUser_success env (t t' : Table) dto d :
  CreateUser env t dto = (t', Ok d) ->
  exists e h,
    validateCreateUserInput dto = None /\
    NewEmail (cu_Email dto) = Ok e /\
    hashPassword env (cu_Password dto) = Ok h /\
    Persistence.Save t
      (mkUser (uuid_New env) e (cu_Name dto) h true (time_Now env) (time_Now env)) =
      (t', None) /\
    d = toUserResponseDTO
          (mkUser (uuid_New env) e (cu_Name dto) h true (time_Now env) (time_Now env)).
Proof.
  unfold CreateUser. repo_unfold.
  destruct (validateCreateUserInput dto); [discriminate|].
  destruct (NewEmail _) as [e|]; [|discriminate].
  destruct (lookup_email t e) as [[x|]|]; [discriminate| |discriminate].
  destruct (hashPassword _ _) as [h|]; [|discriminate].
  unfold NewUser. destruct (String.eqb _ _); [discriminate|].
  destruct (String.eqb _ _); [discriminate|].
  destruct (Persistence.Save t _) as [t'' [err|]] eqn:Hs; [discriminate|].
  intros [= <- <-]. exists e, h. repeat split. exact Hs.
Qed.

(** In the table of the model, which keeps an instant as it is written,
    the user read back is the object [CreateUser] returned. *)
Lemma CreateUser_read_back env (t t' : Table) dto d :
  CreateUser env t dto = (t', Ok d) ->
  (String.length (cu_Name dto) <= 100)%nat ->
  GetUser t' (dto_ID d) = Ok d /\
  GetUserByEmail t' (cu_Email dto) = Ok d /\
  d = mkUserResponseDTO (uuid_New env) (TrimSpace (ToLower (cu_Email dto))) (cu_Name dto)
        true (time_Now env) (time_Now env) /\
  List.length t' = S (List.length t).
Proof.
  intros Hc Hname.
  apply CreateUser_success in Hc as (e & h & _ & He & _ & Hsave & ->).
  apply Save_success in Hsave as (em & nm & ph & Hem & Hnm & _ & -> & Hid & Hemail).
  cbn [ID Email_ Name PasswordHash IsActive CreatedAt UpdatedAt] in *.
  apply (varchar_no_truncation _ _ _ _ (NewEmail_TrimRight _ _ He)) in Hem as [-> _].
  rewrite (varchar_fits 100 "100" _ Hname) in Hnm. injection Hnm as <-.
  unfold Value in *.
  set (r := mkRow (uuid_New env) (value e) (cu_Name dto) ph true (time_Now env) (time_Now env)).
  assert (Hdom : Persistence.toDomainUser r =
                 Ok (mkUser (uuid_New env) e (cu_Name dto) ph true (time_Now env) (time_Now env))).
  { unfold Persistence.toDomainUser, r, Value.
    cbn [email id name password_hash is_active created_at updated_at].
    now rewrite (NewEmail_idem _ _ He). }
  repeat split.
  - unfold GetUser. repo_unfold. unfold Persistence.FindByID, GetUserByID.
    cbn [dto_ID toUserResponseDTO ID].
    rewrite find_snoc with (x := r).
    + now rewrite Hdom.
    + intros y Hy. destruct (has_id _ y) eqn:E; [|reflexivity].
      apply has_id_true in E. now apply Hid in Hy.
    + unfold r, has_id. cbn. now rewrite N.eqb_refl.
  - unfold GetUserByEmail. repo_unfold. rewrite He.
    unfold Persistence.FindByEmail, Postgres.GetUserByEmail.
    rewrite find_snoc with (x := r).
    + now rewrite Hdom.
    + intros y Hy. destruct (has_email _ y) eqn:E; [|reflexivity].
      apply has_email_true in E. now apply Hemail in Hy.
    + unfold r, has_email. cbn. now rewrite String.eqb_refl.
  - unfold toUserResponseDTO, Value. cbn [ID Email_ Name IsActive CreatedAt UpdatedAt].
    now rewrite (NewEmail_value _ _ He).
  - rewrite length_app. simpl. lia.
Qed.

(** X5.  A user who has just registered can be read back.  When
    [CreateUser] succeeds for a name of at most 100 bytes, the object it
    returns carries the identifier drawn, the address trimmed and
    lower-cased, the name as given, the active flag set and the instant of
    the call as both creation and update time; [GetUser] with the returned
    identifier and [GetUserByEmail] with the address as it was typed both
    succeed, with one and the same user, which has that identifier, address
    and name and is active; and the table has exactly one more row. *)
Theorem CreateUser_then_GetUser env (t t' : Table) dto d :
  CreateUser env t dto = (t', Ok d) ->
  (String.length (cu_Name dto) <= 100)%nat ->
  d = mkUserResponseDTO (uuid_New env) (TrimSpace (ToLower (cu_Email dto))) (cu_Name dto)
        true (time_Now env) (time_Now env) /\
  (exists d',
     GetUser t' (dto_ID d) = Ok d' /\
     GetUserByEmail t' (cu_Email dto) = Ok d' /\
     dto_ID d' = uuid_New env /\
     dto_Email d' = TrimSpace (ToLower (cu_Email dto)) /\
     dto_Name d' = cu_Name dto /\
     dto_IsActive d' = true) /\
  List.length t' = S (List.length t).
Proof.
  intros Hc Hname.
  destruct (CreateUser_read_back env t t' dto d Hc Hname) as (Hg & Hge & Hd & Hlen).
  split; [exact Hd|]. split; [|exact Hlen].
  exists d. split; [exact Hg|]. split; [exact Hge|].
  rewrite Hd. repeat split; reflexivity.
Qed.

(** X6.  Registering twice.  Once [CreateUser] has succeeded, a later
    [CreateUser] whose input passes validation and whose address, of bytes
    below 128, differs from the registered one only in the case of letters
    and in surrounding white space returns [ErrEmailAlreadyExists] itself
    (from the pre-check, before any hashing) and leaves the table as it
    is. *)
Theorem CreateUser_twice env env' (t t' : Table) dto dto' d :
  CreateUser env t dto = (t', Ok d) ->
  ascii_text (cu_Email dto') = true ->
  differ_only_in_case_and_space (cu_Email dto) (cu_Email dto') ->
  validateCreateUserInput dto' = None ->
  CreateUser env' t' dto' = (t', Err ErrEmailAlreadyExists).
Proof.
  intros Hc _ Hdiff Hvalid.
  apply CreateUser_success in Hc as (e & h & _ & He & _ & Hsave & _).
  apply Save_success in Hsave as (em & nm & ph & Hem & _ & _ & -> & _ & Hemail).
  cbn [ID Email_ Name PasswordHash IsActive CreatedAt UpdatedAt] in *.
  apply (varchar_no_truncation _ _ _ _ (NewEmail_TrimRight _ _ He)) in Hem as [-> _].
  assert (He' : NewEmail (cu_Email dto') = Ok e).
  { rewrite <- He. symmetry. now apply NewEmail_canonical_arg, canonical_eq. }
  unfold CreateUser, lookup_email. repo_unfold. rewrite Hvalid, He'.
  unfold Persistence.FindByEmail, Postgres.GetUserByEmail.
  unfold Value in *.
  rewrite find_snoc with (x := mkRow (uuid_New env) (value e) nm ph true
                                     (time_Now env) (time_Now env)).
  - unfold Persistence.toDomainUser, Value.
    cbn [email id name password_hash is_active created_at updated_at].
    now rewrite (NewEmail_idem _ _ He).
  - intros y Hy. destruct (has_email _ y) eqn:E; [|reflexivity].
    apply has_email_true in E. now apply Hemail in Hy.
  - unfold has_email. cbn. now rewrite String.eqb_refl.
Qed.

End AnyBcrypt.

Lemma CreateUser_then_GetUser_witness :
  exists d',
    GetUser (fst (CreateUser env1 ([] : Table) alice)) 1%N = Ok d' /\
    dto_Email d' = "a@x.com" /\ dto_Name d' = "Alice".
Proof.
  assert (Hname : (String.length (cu_Name alice) <= 100)%nat) by (simpl; lia).
  assert (Hc : CreateUser env1 ([] : Table) alice =
               (fst (CreateUser env1 ([] : Table) alice),
                Ok (mkUserResponseDTO 1%N "a@x.com" "Alice" true 1000 1000)))
    by (vm_compute; reflexivity).
  destruct (CreateUser_then_GetUser env1 [] _ alice _ Hc Hname)
    as (_ & (d' & Hg & _ & _ & He & Hn & _) & _).
  exists d'. split; [exact Hg|]. split; [exact He | exact Hn].
Defined.

Lemma CreateUser_twice_witness :
  CreateUser env2 (fst (CreateUser env1 ([] : Table) alice))
    (mkCreateUserDTO "  A@X.com" "Alice again" "password-2") =
  (fst (CreateUser env1 ([] : Table) alice), Err ErrEmailAlreadyExists).
Proof.
  refine (CreateUser_twice env1 env2 [] _ alice
            (mkCreateUserDTO "  A@X.com" "Alice again" "password-2") _ eq_refl eq_refl _
            eq_refl).
  exists EmptyString, "a@x.com", EmptyString, "  ", "A@X.com", EmptyString.
  repeat split; reflexivity.
Defined.

End RegistrationFacts.

(* ------------------------------------------------------------------ *)
(** ** A call that fails *)

Module FailureFacts.
Import GoString GoStringFacts GoErrors Persistence Domain DomainFacts CanonicalFacts.
Import Postgres TableConditions PostgresFacts RepositoryFacts.
Import Application ServiceInterface ServiceFacts TableFacts Outcomes Fixtures.

Lemma Save_error_unchanged (t t' : Table) (u : User) (e : error) :
  Persistence.Save t u = (t', Some e) -> t' = t.
Proof.
  intros H. destruct (Save_table t u) as [Ht|(r & _ & Hn & _)].
  - now rewrite H in Ht.
  - rewrite H in Hn. discriminate.
Qed.

Lemma Update_error_unchanged (t t' : Table) (u : User) (e : error) :
  Persistence.Update t u = (t', Some e) -> t' = t.
Proof.
  intros H. destruct (Update_table t u) as [Ht|(r & _ & Hn & _)].
  - now rewrite H in Ht.
  - rewrite H in Hn. discriminate.
Qed.

Ltac after_write :=
  match goal with
  | |- context [Persistence.Save ?t ?u] =>
      let t' := fresh "t'" in
      let o := fresh "o" in
      let E := fresh "E" in
      destruct (Persistence.Save t u) as [t' [o|]] eqn:E;
      [apply Save_error_unchanged in E; now subst | discriminate]
  | |- context [Persistence.Update ?t ?u] =>
      let t' := fresh "t'" in
      let o := fresh "o" in
      let E := fresh "E" in
      destruct (Persistence.Update t u) as [t' [o|]] eqn:E;
      [apply Update_error_unchanged in E; now subst | discriminate]
  end.

Section AnyBcrypt.
Context {bcrypt : Bcrypt}.

(** X7.  A call that returns an error changes nothing: for every public
    method of the service, if the call returns a non-nil error then the table
    after the call is the table before it. *)
Theorem failed_call_changes_nothing env (t : Table) req (e : error) :
  serve_error env t req = Some e -> serve env t req = t.
Proof.
  destruct req as [dto| | |j dto|j|j|j|j dto| ]; cbn [serve serve_error]; try reflexivity.
  - unfold CreateUser. repo_unfold.
    destruct (validateCreateUserInput dto); [reflexivity|].
    destruct (NewEmail _) as [em|]; [|reflexivity].
    destruct (lookup_email t em) as [[x|]|]; [reflexivity| |reflexivity].
    destruct (hashPassword _ _) as [h|]; [|reflexivity].
    destruct (NewUser _ _ _ _ _) as [u|]; [|reflexivity].
    after_write.
  - unfold UpdateUser. repo_unfold.
    destruct (Persistence.FindByID t j) as [u|]; [|reflexivity].
    destruct (String.eqb _ _); [reflexivity|].
    destruct (NewEmail _) as [ne|]; [|reflexivity].
    destruct (email_conflict t u ne); [reflexivity|].
    destruct (UpdateProfile _ _ _ _) as [u'|]; [|reflexivity].
    after_write.
  - unfold DeleteUser. repo_unfold. rewrite Delete_total. discriminate.
  - unfold ActivateUser. repo_unfold.
    destruct (Persistence.FindByID t j) as [u|]; [|reflexivity].
    after_write.
  - unfold DeactivateUser. repo_unfold.
    destruct (Persistence.FindByID t j) as [u|]; [|reflexivity].
    after_write.
  - unfold ChangePassword. repo_unfold.
    destruct (Persistence.FindByID t j) as [u|]; [|reflexivity].
    destruct (verifyPassword _ _); [reflexivity|].
    destruct (validatePassword _); [reflexivity|].
    destruct (hashPassword _ _) as [h|]; [|reflexivity].
    destruct (Domain.ChangePassword _ _ _) as [u'|]; [|reflexivity].
    after_write.
Qed.

End AnyBcrypt.

Lemma failed_call_changes_nothing_witness :
  serve env3 two_users (CallCreateUser (mkCreateUserDTO "A@x.com" "Eve" "password-e")) =
  two_users.
Proof.
  exact (failed_call_changes_nothing env3 two_users
           (CallCreateUser (mkCreateUserDTO "A@x.com" "Eve" "password-e"))
           ErrEmailAlreadyExists eq_refl).
Defined.

End FailureFacts.

(* ------------------------------------------------------------------ *)
(** ** Pages *)

Module ListingFacts.
Import GoString GoStringFacts GoErrors GoInt GoIntFacts Persistence Domain DomainFacts.
Import Postgres TableConditions PostgresFacts RepositoryFacts.
Import Application ServiceInterface ServiceFacts TableFacts PaginationFacts PageOrder Fixtures.

Lemma insert_desc_Forall (P : Row -> Prop) (r : Row) (l : list Row) :
  P r -> Forall P l -> Forall P (insert_desc r l).
Proof.
  intros Hr. induction 1 as [|x l Hx Hl IH]; simpl; [now repeat constructor|].
  destruct (created_at x <? created_at r); repeat constructor; assumption.
Qed.

Lemma insert_desc_sorted (r : Row) (l : list Row) :
  StronglySorted newer_or_same l -> StronglySorted newer_or_same (insert_desc r l).
Proof.
  induction 1 as [|x l Hs IH Hx]; simpl; [repeat constructor|].
  destruct (Z.ltb_spec (created_at x) (created_at r)).
  - constructor; [now constructor|]. constructor; [unfold newer_or_same; lia|].
    revert Hx. apply Forall_impl. unfold newer_or_same. lia.
  - constructor; [assumption|]. apply insert_desc_Forall; [unfold newer_or_same; lia | assumption].
Qed.

Lemma order_by_sorted (l : list Row) :
  StronglySorted newer_or_same (order_by_created_at_desc l).
Proof.
  unfold order_by_created_at_desc. induction l as [|x l IH]; simpl; [constructor|].
  now apply insert_desc_sorted.
Qed.

Lemma length_insert_desc (r : Row) (l : list Row) :
  List.length (insert_desc r l) = S (List.length l).
Proof.
  induction l as [|x l IH]; simpl; [reflexivity|].
  destruct (created_at x <? created_at r); simpl; [reflexivity | now rewrite IH].
Qed.

Lemma length_order_by (l : list Row) :
  List.length (order_by_created_at_desc l) = List.length l.
Proof.
  unfold order_by_created_at_desc. induction l as [|x l IH]; simpl; [reflexivity|].
  now rewrite length_insert_desc, IH.
Qed.

Lemma sorted_skipn {A} (R : A -> A -> Prop) (n : nat) (l : list A) :
  StronglySorted R l -> StronglySorted R (skipn n l).
Proof.
  intros H. revert n. induction H as [|x l Hs IH Hx]; intros [|n]; simpl;
    try constructor; auto.
Qed.

Lemma sorted_firstn {A} (R : A -> A -> Prop) (n : nat) (l : list A) :
  StronglySorted R l -> StronglySorted R (firstn n l).
Proof.
  intros H. revert n. induction H as [|x l Hs IH Hx]; intros [|n]; simpl;
    try constructor; auto.
  rewrite Forall_forall in *. intros y Hy. apply Hx. now apply In_firstn in Hy.
Qed.

(** The users [map_rows] returns are the rows, field by field. *)
Lemma map_rows_fields (rows : list Row) (i : nat) (us : list User) :
  map_rows i rows = Ok us ->
  Forall2 (fun r u => toDomainUser r = Ok u) rows us.
Proof.
  revert i us. induction rows as [|r rows IH]; intros i us; simpl.
  - intros [= <-]. constructor.
  - destruct (toDomainUser r) as [u|] eqn:Hu; [|discriminate].
    destruct (map_rows (S i) rows) as [us'|] eqn:Hrest; [|discriminate].
    intros [= <-]. constructor; [assumption | now apply (IH (S i))].
Qed.

Lemma map_rows_index (rows : list Row) (i j : nat) (us : list User) :
  map_rows i rows = Ok us -> map_rows j rows = Ok us.
Proof.
  revert i j us. induction rows as [|r rows IH]; intros i j us; simpl; [auto|].
  destruct (toDomainUser r) as [u|]; [|discriminate].
  destruct (map_rows (S i) rows) as [us'|] eqn:Hrest; [|discriminate].
  intros [= <-]. now rewrite (IH (S i) (S j) us' Hrest).
Qed.

Lemma map_rows_app (a b : list Row) (i : nat) (us : list User) :
  map_rows i (a ++ b) = Ok us <->
  exists ua ub, map_rows i a = Ok ua /\ map_rows i b = Ok ub /\ us = (ua ++ ub)%list.
Proof.
  revert i us. induction a as [|r a IH]; intros i us; simpl.
  - split.
    + intros H. exists [], us. now repeat split.
    + now intros (ua & ub & [= <-] & H & ->).
  - destruct (toDomainUser r) as [u|].
    2:{ split; [discriminate | now intros (ua & ub & H & _)]. }
    split.
    + destruct (map_rows (S i) (a ++ b)) as [us'|] eqn:Hrest; [|discriminate].
      intros [= <-]. apply IH in Hrest as (ua & ub & -> & Hb & ->).
      exists (u :: ua), ub. repeat split. now apply (map_rows_index b (S i) i).
    + intros (ua & ub & Ha & Hb & ->).
      destruct (map_rows (S i) a) as [ua'|] eqn:Ha'; [|discriminate].
      injection Ha as <-.
      assert (Hab : map_rows (S i) (a ++ b) = Ok (ua' ++ ub)%list).
      { apply IH. exists ua', ub. split; [assumption|].
        split; [now apply (map_rows_index b i (S i)) | reflexivity]. }
      now rewrite Hab.
Qed.

(** The rows behind a response of [ListUsers]. *)
Lemma ListUsers_rows_of (t : Table) (limit offset : Z) (resp : UserListResponseDTO) :
  ListUsers t limit offset = Ok resp ->
  exists us,
    Users resp = map toUserResponseDTO us /\
    0 <= int32 (effective_offset offset) /\
    Forall2 (fun r u => toDomainUser r = Ok u)
      (firstn (Z.to_nat (effective_limit limit))
         (skipn (Z.to_nat (int32 (effective_offset offset)))
            (order_by_created_at_desc (filter is_active t)))) us.
Proof.
  intros H. apply ListUsers_fields in H as (_ & _ & _ & (us & HL & Hus) & _).
  exists us. split; [assumption|]. repo_unfold. unfold Persistence.List_ in HL.
  pose proof (effective_limit_range limit) as Hl.
  rewrite (int32_small (effective_limit limit)) in HL by lia.
  unfold Postgres.ListUsers in HL.
  destruct (Z.ltb_spec (effective_limit limit) 0); [lia|].
  destruct (Z.ltb_spec (int32 (effective_offset offset)) 0); [discriminate|].
  split; [assumption|]. now apply map_rows_fields in HL.
Qed.

Lemma Forall2_created (rows : list Row) (us : list User) :
  Forall2 (fun r u => toDomainUser r = Ok u) rows us ->
  StronglySorted newer_or_same rows -> newest_first (map toUserResponseDTO us).
Proof.
  unfold newest_first.
  induction 1 as [|r u rows us Hru Hrest IH]; simpl; intros Hs; [constructor|].
  inversion Hs as [|? ? Hs' Hall]; subst. constructor; [now apply IH|].
  apply toDomainUser_fields in Hru as (_ & _ & _ & _ & _ & Hc & _).
  clear IH Hs Hs'. induction Hrest as [|r' u' rows us Hru' Hrest IH]; simpl; constructor.
  - inversion Hall; subst.
    apply toDomainUser_fields in Hru' as (_ & _ & _ & _ & _ & Hc' & _).
    unfold toUserResponseDTO, newer_or_same in *. cbn. lia.
  - apply IH. now inversion Hall.
Qed.

(** X8.  A page of [ListUsers] holds at most the effective limit of user
    objects, newest first, and each of them is an active user of the table:
    some active row has its identifier, name, creation and update time, and
    its address in normal form. *)
Theorem ListUsers_page (t : Table) (limit offset : Z) (resp : UserListResponseDTO) :
  ListUsers t limit offset = Ok resp ->
  Z.of_nat (List.length (Users resp)) <= effective_limit limit /\
  newest_first (Users resp) /\
  Forall (fun d =>
            dto_IsActive d = true /\
            exists r, In r t /\ is_active r = true /\ id r = dto_ID d /\
                      name r = dto_Name d /\ created_at r = dto_CreatedAt d /\
                      updated_at r = dto_UpdatedAt d /\
                      NewEmail (email r) = Ok (mkEmail (dto_Email d)))
         (Users resp).
Proof.
  intros H. apply ListUsers_rows_of in H as (us & -> & _ & Hrows).
  pose proof (effective_limit_range limit) as Hl.
  set (page := firstn _ _) in Hrows. split; [|split].
  - rewrite length_map, <- (Forall2_length Hrows). unfold page.
    rewrite length_firstn. lia.
  - apply (Forall2_created page us Hrows).
    unfold page. apply sorted_firstn, sorted_skipn, order_by_sorted.
  - assert (Hin : forall r, In r page -> In r t /\ is_active r = true).
    { intros r Hr. unfold page in Hr.
      apply In_firstn, In_skipn, In_order_by in Hr. now apply filter_In in Hr. }
    clearbody page. induction Hrows as [|r u rows us Hru Hrest IH]; simpl; constructor.
    + destruct (Hin r (or_introl eq_refl)) as [Hrt Hact].
      apply toDomainUser_fields in Hru as (Hi & He & Hn & _ & Ha & Hc & Hu).
      unfold toUserResponseDTO. cbn. split; [congruence|].
      exists r. repeat split; try congruence.
      rewrite He. f_equal. now destruct (Email_ u).
    + apply IH. intros r' Hr'. apply Hin. now right.
Qed.

Lemma ListUsers_page_witness :
  exists resp, ListUsers two_users 1 0 = Ok resp /\
               Z.of_nat (List.length (Users resp)) <= 1 /\ newest_first (Users resp).
Proof.
  eexists. split; [reflexivity|].
  pose proof (ListUsers_page two_users 1 0 _ eq_refl) as (Hlen & Hsorted & _).
  split; [exact Hlen | exact Hsorted].
Defined.

Lemma firstn_plus {A} (a b : nat) (l : list A) :
  firstn (a + b) l = (firstn a l ++ firstn b (skipn a l))%list.
Proof.
  revert l. induction a as [|a IH]; intros [|x l]; simpl; try reflexivity.
  - now destruct b.
  - now rewrite IH.
Qed.

Lemma skipn_plus {A} (a b : nat) (l : list A) :
  skipn (a + b) l = skipn b (skipn a l).
Proof.
  revert l. induction a as [|a IH]; intros [|x l]; simpl; try reflexivity.
  - now destruct b.
  - apply IH.
Qed.

(** X9.  For an offset below [2^31], a page holds exactly
    [min limit (max 0 (total - offset))] user objects (on the effective
    values), and [HasMore] is true exactly when active users remain beyond
    the page: when [offset] plus the number of user objects returned is below
    [Total]. *)
Theorem ListUsers_has_more (t : Table) (limit offset : Z) (resp : UserListResponseDTO) :
  offset < 2 ^ 31 ->
  ListUsers t limit offset = Ok resp ->
  Z.of_nat (List.length (Users resp)) =
    Z.min (effective_limit limit) (Z.max 0 (Total resp - effective_offset offset)) /\
  (HasMore resp = true <->
   effective_offset offset + Z.of_nat (List.length (Users resp)) < Total resp).
Proof.
  intros Hoff H. pose proof (effective_limit_range limit) as Hl.
  pose proof (effective_offset_max offset) as Ho.
  assert (Ho32 : int32 (effective_offset offset) = effective_offset offset)
    by (apply int32_small; lia).
  pose proof (ListUsers_rows_of _ _ _ _ H) as (us & Hus & _ & Hrows).
  apply ListUsers_fields in H as (_ & _ & HC & _ & Hmore). repo_unfold.
  unfold Persistence.Count, CountUsers in HC. injection HC as HC.
  assert (Hlen : Z.of_nat (List.length (Users resp)) =
                 Z.min (effective_limit limit)
                       (Z.max 0 (Total resp - effective_offset offset))).
  { rewrite Hus, length_map, <- (Forall2_length Hrows).
    rewrite length_firstn, length_skipn, length_order_by, Ho32, <- HC. lia. }
  split; [exact Hlen|].
  rewrite Hmore. unfold GoInt.add. rewrite wrap64_small
    by (unfold is_int, int_min, int_max; lia).
  rewrite Z.ltb_lt. lia.
Qed.

Lemma ListUsers_has_more_witness :
  exists resp, ListUsers two_users 1 0 = Ok resp /\
               Z.of_nat (List.length (Users resp)) = 1 /\ HasMore resp = true.
Proof.
  eexists. split; [reflexivity|].
  assert (H0 : 0 < 2 ^ 31) by reflexivity.
  pose proof (ListUsers_has_more two_users 1 0 _ H0 eq_refl) as (Hlen & Hmore).
  split; [exact Hlen | reflexivity].
Defined.

(** X10.  Consecutive pages fit together.  On one table whose active
    rows were created at distinct instants, for a page size of at most 50 and
    offsets below [2^31], the page at [offset] followed by the page at
    [offset + limit] is the page of twice the size at [offset]: no user is
    left out or listed twice between two pages. *)
Theorem ListUsers_consecutive_pages (t : Table) (limit offset : Z)
    (first second : UserListResponseDTO) :
  distinct_instants t ->
  1 <= limit <= 50 -> 0 <= offset -> offset + limit < 2 ^ 31 ->
  ListUsers t limit offset = Ok first ->
  ListUsers t limit (offset + limit) = Ok second ->
  exists both,
    ListUsers t (2 * limit) offset = Ok both /\
    Users both = (Users first ++ Users second)%list /\
    Total both = Total first.
Proof.
  intros _ Hl Ho Hol H1 H2.
  assert (El : effective_limit limit = limit).
  { unfold effective_limit. destruct (Z.leb_spec limit 0); [lia|].
    destruct (Z.ltb_spec 100 limit); lia. }
  assert (El2 : effective_limit (2 * limit) = 2 * limit).
  { unfold effective_limit. destruct (Z.leb_spec (2 * limit) 0); [lia|].
    destruct (Z.ltb_spec 100 (2 * limit)); lia. }
  assert (Eo : effective_offset offset = offset)
    by (rewrite effective_offset_max; lia).
  assert (Eo2 : effective_offset (offset + limit) = offset + limit)
    by (rewrite effective_offset_max; lia).
  revert H1 H2. unfold ListUsers. repo_unfold.
  unfold Persistence.List_, Persistence.Count, CountUsers, Postgres.ListUsers.
  rewrite El, El2, Eo, Eo2.
  rewrite !int32_small by lia.
  destruct (Z.ltb_spec limit 0); [lia|]. destruct (Z.ltb_spec (2 * limit) 0); [lia|].
  destruct (Z.ltb_spec offset 0); [lia|]. destruct (Z.ltb_spec (offset + limit) 0); [lia|].
  set (L := order_by_created_at_desc (filter is_active t)).
  destruct (map_rows 0 (firstn (Z.to_nat limit) (skipn (Z.to_nat offset) L)))
    as [us1|] eqn:E1; [|discriminate].
  destruct (map_rows 0 (firstn (Z.to_nat limit) (skipn (Z.to_nat (offset + limit)) L)))
    as [us2|] eqn:E2; [|discriminate].
  intros [= <-] [= <-].
  replace (Z.to_nat (2 * limit)) with (Z.to_nat limit + Z.to_nat limit)%nat by lia.
  rewrite firstn_plus.
  replace (Z.to_nat (offset + limit)) with (Z.to_nat offset + Z.to_nat limit)%nat in E2 by lia.
  rewrite skipn_plus in E2.
  assert (E12 : map_rows 0
                  (firstn (Z.to_nat limit) (skipn (Z.to_nat offset) L) ++
                   firstn (Z.to_nat limit)
                     (skipn (Z.to_nat limit) (skipn (Z.to_nat offset) L))) =
                Ok (us1 ++ us2)%list).
  { apply map_rows_app. exists us1, us2. now repeat split. }
  rewrite E12. eexists. split; [reflexivity|]. cbn. split; [apply map_app | reflexivity].
Qed.

Lemma ListUsers_consecutive_pages_witness :
  exists both,
    ListUsers two_users 2 0 = Ok both /\
    map dto_Name (Users both) = ["Bob"; "Alice"].
Proof.
  assert (Hl : 1 <= 1 <= 50) by lia.
  assert (Ho : 0 <= 0) by lia.
  assert (Hol : 0 + 1 < 2 ^ 31) by reflexivity.
  assert (Hd : distinct_instants two_users).
  { unfold distinct_instants. simpl. constructor; [|constructor; [|constructor]].
    - intros [H|[]]. discriminate H.
    - intros []. }
  destruct (ListUsers_consecutive_pages two_users 1 0 _ _ Hd Hl Ho Hol eq_refl eq_refl)
    as (both & Hboth & Husers & _).
  exists both. split; [exact Hboth|]. now rewrite Husers.
Defined.

(** X11.  The repository narrows the offset to 32 bits.  On a table whose
    active rows were created at distinct instants, adding [2^32] to a
    non-negative offset does not change the page: the same user objects and
    the same total come back, while the response repeats the offset it was
    given. *)
Theorem ListUsers_offset_modulo (t : Table) (limit offset : Z) (resp : UserListResponseDTO) :
  distinct_instants t ->
  0 <= offset -> offset + 2 ^ 32 <= int_max ->
  ListUsers t limit offset = Ok resp ->
  exists resp',
    ListUsers t limit (offset + 2 ^ 32) = Ok resp' /\
    Users resp' = Users resp /\ Total resp' = Total resp /\
    Limit resp' = Limit resp /\ Offset resp' = Offset resp + 2 ^ 32.
Proof.
  intros _ Ho _. unfold ListUsers. repo_unfold. unfold Persistence.List_.
  assert (E1 : effective_offset offset = offset) by (rewrite effective_offset_max; lia).
  assert (E2 : effective_offset (offset + 2 ^ 32) = offset + 2 ^ 32)
    by (rewrite effective_offset_max; lia).
  rewrite E1, E2.
  assert (E32 : int32 (offset + 2 ^ 32) = int32 offset).
  { unfold int32. replace (offset + 2 ^ 32 + 2 ^ 31) with (offset + 2 ^ 31 + 1 * 2 ^ 32) by lia.
    now rewrite Z.mod_add by lia. }
  rewrite E32.
  destruct (Postgres.ListUsers t _ (int32 offset)) as [rows|]; [|discriminate].
  destruct (map_rows 0 rows) as [us|]; [|discriminate].
  destruct (Persistence.Count t) as [total|]; [|discriminate].
  intros [= <-]. eexists. split; [reflexivity|]. cbn. repeat split.
Qed.

Lemma ListUsers_offset_modulo_witness :
  exists resp',
    ListUsers two_users 10 (1 + 2 ^ 32) = Ok resp' /\
    map dto_Name (Users resp') = ["Alice"] /\ Offset resp' = 4294967297.
Proof.
  assert (Ho : 0 <= 1) by lia.
  assert (Hmax : 1 + 2 ^ 32 <= int_max) by (unfold int_max; lia).
  assert (Hd : distinct_instants two_users).
  { unfold distinct_instants. simpl. constructor; [|constructor; [|constructor]].
    - intros [H|[]]. discriminate H.
    - intros []. }
  destruct (ListUsers_offset_modulo two_users 10 1 _ Hd Ho Hmax eq_refl)
    as (resp' & H & Husers & _ & _ & Hoff).
  exists resp'. split; [exact H|]. split; [now rewrite Husers | exact Hoff].
Defined.

End ListingFacts.

(* ------------------------------------------------------------------ *)
(** ** Rewriting a stored user *)

Module RewriteFacts.
Import GoString GoStringFacts GoErrors Persistence Domain DomainFacts CanonicalFacts.
Import Postgres TableConditions PostgresFacts RepositoryFacts.
Import Application ServiceInterface ServiceFacts TableFacts UniquenessFacts.
Import InvariantFacts Outcomes SaveFacts UpdateFacts Fixtures FixtureFacts.

(** In a table with a primary key, the row [replace_row] puts in is the one
    a lookup by that identifier finds, and lookups by other identifiers see
    what they saw before. *)
Lemma find_replace_row (i : UUID) (r : Row) (p : Row -> bool) (t : Table) :
  NoDup (map id t) -> (exists old, In old t /\ id old = i) -> id r = i ->
  find (fun x => has_id i x && p x) (replace_row i r t) =
  if p r then Some r else None.
Proof.
  intros Hnd (old & Hold & Hid) Hr. induction t as [|y t IH]; [destruct Hold|].
  simpl. inversion Hnd as [|? ? Hy Hnd']; subst.
  destruct (has_id (id old) y) eqn:E.
  - simpl. rewrite (proj2 (has_id_true _ _) Hr). simpl.
    destruct (p r); [reflexivity|].
    apply find_none_all. intros x Hx. destruct (has_id (id old) x) eqn:Ex; [|reflexivity].
    exfalso. apply has_id_true in E, Ex. apply Hy. rewrite E, <- Ex. now apply in_map.
  - simpl. rewrite E. simpl. apply IH; [assumption|].
    destruct Hold as [->|Hold]; [|assumption].
    apply not_true_iff_false in E. exfalso. apply E. now apply has_id_true.
Qed.

Lemma find_replace_row_other (i j : UUID) (r : Row) (p : Row -> bool) (t : Table) :
  id r = i -> j <> i ->
  find (fun x => has_id j x && p x) (replace_row i r t) =
  find (fun x => has_id j x && p x) t.
Proof.
  intros Hr Hji. induction t as [|y t IH]; simpl; [reflexivity|].
  destruct (has_id i y) eqn:E; simpl.
  - apply has_id_true in E.
    assert (Hy : has_id j y = false).
    { apply not_true_iff_false. intros H. apply has_id_true in H. congruence. }
    assert (Hrj : has_id j r = false).
    { apply not_true_iff_false. intros H. apply has_id_true in H. congruence. }
    now rewrite Hy, Hrj.
  - now rewrite IH.
Qed.

Lemma length_replace_row (i : UUID) (r : Row) (t : Table) :
  List.length (replace_row i r t) = List.length t.
Proof.
  induction t as [|y t IH]; simpl; [reflexivity|].
  destruct (has_id i y); simpl; [reflexivity | now rewrite IH].
Qed.

(** When [Update] returns nil, a row of the user's identifier was there and
    has been replaced by the user's fields as the columns store them, the
    creation time kept. *)
Lemma Update_success (t t' : Table) (u : User) :
  Persistence.Update t u = (t', None) ->
  exists old em nm ph,
    In old t /\ id old = ID u /\
    varchar 255 "255" (Value (Email_ u)) = Ok em /\
    varchar 100 "100" (Name u) = Ok nm /\
    varchar 255 "255" (PasswordHash u) = Ok ph /\
    t' = replace_row (ID u)
           (mkRow (ID u) em nm ph (IsActive u) (created_at old) (UpdatedAt u)) t.
Proof.
  unfold Persistence.Update, Postgres.UpdateUser.
  cbn [up_id up_email up_name up_password_hash up_is_active up_updated_at].
  destruct (find (has_id (ID u)) t) as [old|] eqn:Eold; [|discriminate].
  apply find_some in Eold as [Hin Hold]. apply has_id_true in Hold.
  destruct (varchar 255 "255" (Value (Email_ u))) as [em|e];
    [|cbv beta iota; destruct (errors_Is e pgx_ErrNoRows);
      [|destruct (Persistence.isUniqueViolation (Some e))]; discriminate].
  destruct (varchar 100 "100" (Name u)) as [nm|e];
    [|cbv beta iota; destruct (errors_Is e pgx_ErrNoRows);
      [|destruct (Persistence.isUniqueViolation (Some e))]; discriminate].
  destruct (varchar 255 "255" (PasswordHash u)) as [ph|e];
    [|cbv beta iota; destruct (errors_Is e pgx_ErrNoRows);
      [|destruct (Persistence.isUniqueViolation (Some e))]; discriminate].
  destruct (existsb _ t); [discriminate|].
  intros [= <-]. exists old, em, nm, ph. rewrite Hold. repeat split; assumption.
Qed.

(** A user read from a well-formed table: the identifier asked for, active,
    the address in normal form, name and hash within their columns. *)
Lemma FindByID_stored (t : Table) (i : UUID) (u : User) :
  well_formed t -> Persistence.FindByID t i = Ok u ->
  ID u = i /\ IsActive u = true /\
  (String.length (Name u) <= 100)%nat /\ (String.length (PasswordHash u) <= 255)%nat.
Proof.
  intros (_ & _ & Hok) Hf.
  apply FindByID_row in Hf as (row & Hrow & Hi & Hact & Hu).
  apply toDomainUser_fields in Hu as (Hid & _ & Hn & Hp & Ha & _).
  rewrite Forall_forall in Hok. destruct (Hok row Hrow) as (_ & _ & Hl2 & Hl3).
  repeat split; congruence.
Qed.

(** Rewriting a user read from a well-formed table.  When [Update] returns
    nil for a user of the same identifier whose address is in normal form
    and whose name and hash fit, a later [FindByID] returns exactly the
    fields written (and nothing when the active flag was cleared), with the
    creation time of before; every other identifier reads as before. *)
Lemma Update_stored (t t' : Table) (i : UUID) (u u' : User) :
  well_formed t -> Persistence.FindByID t i = Ok u ->
  ID u' = ID u ->
  NewEmail (Value (Email_ u')) = Ok (Email_ u') ->
  (String.length (Name u') <= 100)%nat ->
  (String.length (PasswordHash u') <= 255)%nat ->
  Persistence.Update t u' = (t', None) ->
  well_formed t' /\
  Persistence.FindByID t' i =
    (if IsActive u'
     then Ok (mkUser i (Email_ u') (Name u') (PasswordHash u') true
                     (CreatedAt u) (UpdatedAt u'))
     else Err ErrUserNotFound) /\
  (forall j, j <> i -> Persistence.FindByID t' j = Persistence.FindByID t j) /\
  List.length t' = List.length t.
Proof.
  intros Hwf Hf Hid Hcanon Hln Hlp Hup.
  assert (Hwf' : well_formed (fst (Persistence.Update t u')))
    by now apply Update_well_formed.
  rewrite Hup in Hwf'. cbn [fst] in Hwf'. split; [exact Hwf'|].
  pose proof (FindByID_row t i u Hf) as (row & Hrow & Hri & Hact & Hu).
  apply toDomainUser_fields in Hu as (Hui & _ & _ & _ & _ & Hc & _).
  apply Update_success in Hup as (old & em & nm & ph & Hold & Hoid & Hem & Hnm & Hph & ->).
  assert (old = row) by (apply (NoDup_map_eq id t); [apply Hwf| | |]; congruence).
  subst old.
  apply (varchar_no_truncation _ _ _ _ (NewEmail_TrimRight _ _ Hcanon)) in Hem as [-> _].
  rewrite (varchar_fits 100 "100" _ Hln) in Hnm. injection Hnm as <-.
  rewrite (varchar_fits 255 "255" _ Hlp) in Hph. injection Hph as <-.
  assert (Hi : ID u' = i) by congruence. rewrite Hi. split; [|split].
  - unfold Persistence.FindByID, GetUserByID.
    rewrite find_replace_row; [|apply Hwf|exists row; now split|reflexivity].
    cbn [is_active]. destruct (IsActive u'); [|reflexivity].
    unfold Persistence.toDomainUser. cbn [email id name password_hash is_active
                                                created_at updated_at].
    unfold Value in *. rewrite Hcanon. now rewrite Hc.
  - intros j Hj. unfold Persistence.FindByID, GetUserByID.
    now rewrite find_replace_row_other.
  - apply length_replace_row.
Qed.

End RewriteFacts.

(* ------------------------------------------------------------------ *)
(** ** What a successful write leaves behind *)

Module LifecycleFacts.
Import GoString GoStringFacts GoErrors Persistence Domain DomainFacts CanonicalFacts.
Import Postgres TableConditions PostgresFacts RepositoryFacts.
Import Application ServiceInterface ServiceFacts TableFacts UniquenessFacts.
Import InvariantFacts Outcomes RewriteFacts Fixtures FixtureFacts.

Section AnyBcrypt.
Context {bcrypt : Bcrypt}.

(** In the table of the model, which keeps an instant as it is written,
    the user read back is the object [UpdateUser] returned. *)
Lemma UpdateUser_read_back env (t t' : Table) (i : UUID) dto d :
  well_formed t ->
  UpdateUser env t i dto = (t', Ok d) ->
  (String.length (uu_Name dto) <= 100)%nat ->
  GetUser t' i = Ok d /\
  (exists u u',
     Persistence.FindByID t i = Ok u /\ Persistence.FindByID t' i = Ok u' /\
     PasswordHash u' = PasswordHash u /\
     d = mkUserResponseDTO i (TrimSpace (ToLower (uu_Email dto))) (uu_Name dto) true
           (CreatedAt u) (time_Now env)) /\
  (forall j, j <> i -> GetUser t' j = GetUser t j) /\
  List.length t' = List.length t.
Proof.
  intros Hwf Hu Hname. revert Hu. unfold UpdateUser, GetUser. repo_unfold.
  destruct (Persistence.FindByID t i) as [u|] eqn:Hf; [|discriminate].
  destruct (String.eqb _ _); [discriminate|].
  destruct (NewEmail (uu_Email dto)) as [ne|] eqn:He; [|discriminate].
  destruct (email_conflict t u ne); [discriminate|].
  unfold UpdateProfile. destruct (String.eqb _ _); [discriminate|].
  destruct (Persistence.Update t _) as [t'' [err|]] eqn:Hup; [discriminate|].
  intros [= <- <-].
  destruct (FindByID_stored t i u Hwf Hf) as (Hi & Hact & _ & Hlp).
  apply (Update_stored t t'' i u) in Hup as (_ & Hfind & Hother & Hlen);
    try assumption; try reflexivity;
    [|cbn; unfold Value; exact (NewEmail_idem _ _ He)].
  cbn [ID Email_ Name PasswordHash IsActive CreatedAt UpdatedAt] in Hfind.
  rewrite Hact in Hfind. rewrite Hfind. unfold toUserResponseDTO.
  cbn [ID Email_ Name PasswordHash IsActive CreatedAt UpdatedAt].
  rewrite Hi, Hact. split; [reflexivity|]. split; [|split].
  - eexists _, _. split; [reflexivity|]. split; [reflexivity|]. split; [reflexivity|].
    unfold Value. now rewrite (NewEmail_value _ _ He).
  - intros j Hj. now rewrite (Hother j Hj).
  - exact Hlen.
Qed.

(** X12.  An update can be read back.  On a well-formed table, when
    [UpdateUser] succeeds for a name of at most 100 bytes, the object it
    returns carries the new address trimmed and lower-cased, the new name,
    the active flag set, the creation time the user had before and the
    instant of the call as update time; [GetUser] with the same identifier
    then succeeds with a user of that address, name and creation time, still
    active.  The stored password hash is the one of before, every other
    identifier reads as before, and the table has as many rows as before. *)
Theorem UpdateUser_then_GetUser env (t t' : Table) (i : UUID) dto d :
  well_formed t ->
  UpdateUser env t i dto = (t', Ok d) ->
  (String.length (uu_Name dto) <= 100)%nat ->
  (exists u u' d',
     Persistence.FindByID t i = Ok u /\ Persistence.FindByID t' i = Ok u' /\
     PasswordHash u' = PasswordHash u /\
     d = mkUserResponseDTO i (TrimSpace (ToLower (uu_Email dto))) (uu_Name dto) true
           (CreatedAt u) (time_Now env) /\
     GetUser t' i = Ok d' /\
     dto_ID d' = i /\
     dto_Email d' = TrimSpace (ToLower (uu_Email dto)) /\
     dto_Name d' = uu_Name dto /\
     dto_IsActive d' = true /\
     dto_CreatedAt d' = CreatedAt u) /\
  (forall j, j <> i -> GetUser t' j = GetUser t j) /\
  List.length t' = List.length t.
Proof.
  intros Hwf Hu Hname.
  destruct (UpdateUser_read_back env t t' i dto d Hwf Hu Hname)
    as (Hg & (u & u' & Hf & Hf' & Hp & Hd) & Hother & Hlen).
  split; [|split; [exact Hother | exact Hlen]].
  exists u, u', d. split; [exact Hf|]. split; [exact Hf'|]. split; [exact Hp|].
  split; [exact Hd|]. split; [exact Hg|]. rewrite Hd. repeat split; reflexivity.
Qed.

(** X13.  After a successful [ChangePassword] the new hash is the stored
    one.  On a well-formed table, when [ChangePassword] returns nil and the
    hash made of the new password fits its column, the old password had
    verified against the stored hash, the new password has at least 8 bytes,
    the user is stored with the new hash and is otherwise as before (update
    time apart), every other identifier reads as before, and any later
    [ChangePassword] whose old password does not verify against the new hash
    returns [ErrInvalidPassword]. *)
Theorem ChangePassword_then_FindByID env (t t' : Table) (i : UUID) dto (h : string) :
  well_formed t ->
  ChangePassword env t i dto = (t', None) ->
  hashPassword env (NewPassword dto) = Ok h ->
  (String.length h <= 255)%nat ->
  exists u u',
    Persistence.FindByID t i = Ok u /\
    verifyPassword (PasswordHash u) (OldPassword dto) = None /\
    8 <= len (NewPassword dto) /\
    Persistence.FindByID t' i = Ok u' /\
    PasswordHash u' = h /\
    ID u' = i /\ Email_ u' = Email_ u /\ Name u' = Name u /\ IsActive u' = true /\
    CreatedAt u' = CreatedAt u /\
    (forall j, j <> i -> Persistence.FindByID t' j = Persistence.FindByID t j) /\
    (forall env' dto',
       verifyPassword h (OldPassword dto') <> None ->
       ChangePassword env' t' i dto' = (t', Some ErrInvalidPassword)).
Proof.
  intros Hwf Hc Hh Hlen. revert Hc. unfold ChangePassword. repo_unfold.
  destruct (Persistence.FindByID t i) as [u|] eqn:Hf; [|discriminate].
  destruct (verifyPassword _ _) eqn:Hv; [discriminate|].
  unfold validatePassword. destruct (Z.ltb_spec (len (NewPassword dto)) 8); [discriminate|].
  rewrite Hh. unfold Domain.ChangePassword. destruct (String.eqb _ _); [discriminate|].
  destruct (Persistence.Update t _) as [t'' [err|]] eqn:Hup; [discriminate|].
  intros [= <-].
  destruct (FindByID_stored t i u Hwf Hf) as (Hi & Hact & Hln & _).
  apply (Update_stored t t'' i u) in Hup as (_ & Hfind & Hother & _);
    try assumption; try reflexivity;
    [|cbn; exact (FindByID_canonical _ _ _ Hf)].
  cbn [ID Email_ Name PasswordHash IsActive CreatedAt UpdatedAt] in Hfind.
  rewrite Hact in Hfind.
  eexists u, _. split; [reflexivity|]. split; [exact Hv|]. split; [assumption|].
  split; [exact Hfind|]. cbn [ID Email_ Name PasswordHash IsActive CreatedAt].
  do 6 (split; [reflexivity|]). split; [exact Hother|].
  intros env' dto' Hbad. rewrite Hfind. cbn [PasswordHash].
  destruct (verifyPassword h (OldPassword dto')); [reflexivity | contradiction].
Qed.

End AnyBcrypt.

Lemma UpdateUser_then_GetUser_witness :
  GetUser (fst (UpdateUser env3 two_users 1%N (mkUpdateUserDTO "Alicia" " Alicia@X.com ")))
          2%N =
  GetUser two_users 2%N.
Proof.
  assert (Hne : 2%N <> 1%N) by discriminate.
  assert (Hname : (String.length "Alicia" <= 100)%nat) by (simpl; lia).
  assert (Hu : UpdateUser env3 two_users 1%N (mkUpdateUserDTO "Alicia" " Alicia@X.com ") =
               (fst (UpdateUser env3 two_users 1%N
                       (mkUpdateUserDTO "Alicia" " Alicia@X.com ")),
                Ok (mkUserResponseDTO 1%N "alicia@x.com" "Alicia" true 1000 3000)))
    by (vm_compute; reflexivity).
  exact (proj1 (proj2 (UpdateUser_then_GetUser env3 two_users _ 1%N
                         (mkUpdateUserDTO "Alicia" " Alicia@X.com ") _
                         two_users_well_formed Hu Hname)) 2%N Hne).
Defined.

Lemma ChangePassword_then_FindByID_witness :
  exists u',
    Persistence.FindByID
      (fst (ChangePassword env3 two_users 1%N
              (mkChangePasswordDTO "password-a" "password-new"))) 1%N = Ok u' /\
    PasswordHash u' = "$2a$10$password-new".
Proof.
  assert (Hlen : (String.length "$2a$10$password-new" <= 255)%nat) by (simpl; lia).
  assert (Hc : ChangePassword env3 two_users 1%N
                 (mkChangePasswordDTO "password-a" "password-new") =
               (fst (ChangePassword env3 two_users 1%N
                       (mkChangePasswordDTO "password-a" "password-new")), None))
    by (vm_compute; reflexivity).
  destruct (ChangePassword_then_FindByID env3 two_users _ 1%N
              (mkChangePasswordDTO "password-a" "password-new") "$2a$10$password-new"
              two_users_well_formed Hc eq_refl Hlen)
    as (u & u' & _ & _ & _ & Hf' & Hp & _).
  exists u'. split; [exact Hf' | exact Hp].
Defined.

End LifecycleFacts.

(* ------------------------------------------------------------------ *)
(** ** Deactivating and deleting *)

Module DeactivationFacts.
Import GoString GoStringFacts GoErrors GoInt GoIntFacts Persistence Domain DomainFacts.
Import CanonicalFacts Postgres TableConditions PostgresFacts RepositoryFacts.
Import Application ServiceInterface ServiceFacts TableFacts UniquenessFacts UpdateFacts.
Import SoftDeleteFacts PaginationFacts InvariantFacts Outcomes ListingFacts RewriteFacts.
Import Fixtures FixtureFacts.

(** Replacing the one row of an identifier by itself with the active flag
    cleared is what the [UPDATE] of [DeleteUser] does. *)
Lemma replace_row_soft_delete (i : UUID) (now : Timestamp) (row : Row) (t : Table) :
  NoDup (map id t) -> In row t -> id row = i ->
  replace_row i
    (mkRow i (email row) (name row) (password_hash row) false (created_at row) now) t =
  map (soft_delete_row i now) t.
Proof.
  intros Hnd Hrow Hid. induction t as [|y t IH]; [destruct Hrow|].
  inversion Hnd as [|? ? Hy Hnd']; subst. simpl.
  destruct (has_id (id row) y) eqn:E.
  - apply has_id_true in E.
    assert (y = row).
    { destruct Hrow as [H|H]; [assumption|]. exfalso. apply Hy. rewrite E.
      now apply in_map. }
    subst y. unfold soft_delete_row at 1. rewrite (proj2 (has_id_true _ _) eq_refl).
    f_equal. rewrite <- (map_id t) at 1. apply map_ext_in. intros x Hx. symmetry.
    apply soft_delete_row_other. intros Heq. apply Hy. rewrite <- Heq. now apply in_map.
  - unfold soft_delete_row at 1. rewrite E. f_equal. apply IH; [assumption|].
    destruct Hrow as [->|H]; [|assumption].
    apply not_true_iff_false in E. exfalso. apply E. now apply has_id_true.
Qed.

(** After the [UPDATE] of [DeleteUser], the active rows are the rows that
    were active and have another identifier. *)
Lemma filter_soft_delete (i : UUID) (now : Timestamp) (t : Table) :
  filter is_active (map (soft_delete_row i now) t) =
  filter (fun r => is_active r && negb (has_id i r)) t.
Proof.
  induction t as [|y t IH]; simpl; [reflexivity|]. rewrite IH.
  unfold soft_delete_row. destruct (has_id i y); simpl.
  - now rewrite andb_false_r.
  - now rewrite andb_true_r.
Qed.

Lemma find_soft_delete_other (i j : UUID) (now : Timestamp) (t : Table) :
  j <> i ->
  find (fun r => has_id j r && is_active r) (map (soft_delete_row i now) t) =
  find (fun r => has_id j r && is_active r) t.
Proof.
  intros Hji. induction t as [|y t IH]; simpl; [reflexivity|]. rewrite IH.
  unfold soft_delete_row. destruct (has_id i y) eqn:E; [|reflexivity].
  apply has_id_true in E.
  assert (Hj : has_id j y = false).
  { apply not_true_iff_false. intros H. apply has_id_true in H. congruence. }
  unfold has_id in *. cbn [id]. now rewrite Hj.
Qed.

(** Under the primary key, clearing the active flag of one identifier
    removes one active row when that identifier had one, and none
    otherwise. *)
Lemma length_filter_without (i : UUID) (t : Table) :
  NoDup (map id t) ->
  List.length (filter (fun r => is_active r && negb (has_id i r)) t) =
  (List.length (filter is_active t) -
   match find (fun r => has_id i r && is_active r) t with
   | Some _ => 1
   | None => 0
   end)%nat.
Proof.
  intros Hnd. induction t as [|y t IH]; simpl; [reflexivity|].
  inversion Hnd as [|? ? Hy Hnd']; subst. specialize (IH Hnd').
  destruct (has_id i y) eqn:E; destruct (is_active y) eqn:A; simpl.
  - apply has_id_true in E.
    assert (Hsame : filter (fun r => is_active r && negb (has_id i r)) t =
                    filter is_active t).
    { apply filter_ext_in. intros x Hx.
      assert (Hx' : has_id i x = false).
      { apply not_true_iff_false. intros H. apply has_id_true in H.
        apply Hy. rewrite E, <- H. now apply in_map. }
      rewrite Hx'. simpl. apply andb_true_r. }
    rewrite Hsame. lia.
  - exact IH.
  - rewrite IH. destruct (find _ t) as [x|] eqn:F; [|lia].
    apply find_some in F as [Hx Hp]. apply andb_true_iff in Hp as [_ Hp].
    assert (Hpos : (0 < List.length (filter is_active t))%nat).
    { assert (Hin : In x (filter is_active t)) by (apply filter_In; now split).
      destruct (filter is_active t); [destruct Hin | simpl; lia]. }
    lia.
  - exact IH.
Qed.

Section AnyBcrypt.
Context {bcrypt : Bcrypt}.

(** X14.  For an active user, [DeactivateUser] is [DeleteUser] with a user
    object returned.  On a well-formed table, when the identifier is that of
    an active user, [DeactivateUser] succeeds, leaves exactly the table
    [DeleteUser] leaves at the same instant, and returns the user with the
    active flag cleared and the instant of the call as update time; from then
    on [GetUser] with that identifier returns [ErrUserNotFound]. *)
Theorem DeactivateUser_is_DeleteUser env (t : Table) (i : UUID) (u : User) :
  well_formed t ->
  Persistence.FindByID t i = Ok u ->
  DeactivateUser env t i =
    (fst (DeleteUser env t i),
     Ok (mkUserResponseDTO i (Value (Email_ u)) (Name u) false (CreatedAt u)
           (time_Now env))) /\
  GetUser (fst (DeleteUser env t i)) i = Err ErrUserNotFound.
Proof.
  intros Hwf Hf.
  destruct (FindByID_well_formed t i u Hwf Hf)
    as (row & Hrow & Hid & Hi & Hem & Hph & (Hcanon & Hl1 & Hl2 & Hl3) & Huniq).
  pose proof (FindByID_row t i u Hf) as (row' & Hrow' & Hri' & _ & Hu').
  assert (row' = row) by (apply (NoDup_map_eq id t); [apply Hwf| | |]; congruence).
  subst row'. apply toDomainUser_fields in Hu' as (_ & _ & Hn & _ & _ & Hc & _).
  set (u' := Deactivate (time_Now env) u).
  assert (Hown : address_is_own t u').
  { intros r Hr Hre. cbn in Hre. rewrite Hem in Hre. rewrite (Huniq r Hr Hre). exact Hid. }
  assert (Hex : exists t', Persistence.Update t u' = (t', None))
    by (apply (Update_own_address_succeeds t u' row Hown Hrow); cbn; congruence).
  destruct Hex as [t' Hup].
  pose proof (Update_success t t' u' Hup)
    as (old & em & nm & ph & Hold & Hoid & Hvem & Hvnm & Hvph & Ht').
  assert (old = row) by (apply (NoDup_map_eq id t); [apply Hwf| | |]; cbn in Hoid; congruence).
  subst old. cbn [u' Deactivate ID Email_ Name PasswordHash IsActive CreatedAt UpdatedAt] in *.
  rewrite varchar_fits in Hvem by congruence. injection Hvem as <-.
  rewrite varchar_fits in Hvnm by congruence. injection Hvnm as <-.
  rewrite varchar_fits in Hvph by congruence. injection Hvph as <-.
  rewrite Hem, Hn, Hph, Hi in Ht'.
  rewrite replace_row_soft_delete in Ht' by (try apply Hwf; congruence).
  rewrite DeleteUser_never_fails. cbn [fst]. split.
  - unfold DeactivateUser. repo_unfold. rewrite Hf. cbv zeta. fold u'.
    rewrite Hup, Ht'. unfold toUserResponseDTO, u'. cbn. now rewrite Hi.
  - unfold GetUser. repo_unfold. rewrite FindByID_none; [reflexivity|].
    intros r Hr Hrid. apply in_map_iff in Hr as (x & <- & Hx).
    rewrite soft_delete_row_id in Hrid. now apply soft_delete_row_inactive.
Qed.

(** X15.  What [DeleteUser] does to the listing.  On a well-formed table
    on which [ListUsers] succeeds, [ListUsers] with the same arguments
    succeeds after [DeleteUser]; no user on any page has the deleted
    identifier; [Total] is one less when the identifier was that of an active
    user and the same otherwise; [GetUser] with the identifier returns
    [ErrUserNotFound] and every other identifier reads as before. *)
Theorem DeleteUser_then_ListUsers env (t : Table) (i : UUID) (limit offset : Z)
    (resp : UserListResponseDTO) :
  well_formed t ->
  ListUsers t limit offset = Ok resp ->
  exists resp',
    ListUsers (fst (DeleteUser env t i)) limit offset = Ok resp' /\
    Forall (fun d => dto_ID d <> i) (Users resp') /\
    Total resp' = (match GetUser t i with
                   | Ok _ => Total resp - 1
                   | Err _ => Total resp
                   end) /\
    GetUser (fst (DeleteUser env t i)) i = Err ErrUserNotFound /\
    (forall j, j <> i -> GetUser (fst (DeleteUser env t i)) j = GetUser t j).
Proof.
  intros Hwf H. rewrite DeleteUser_never_fails. cbn [fst].
  set (t' := map (soft_delete_row i (time_Now env)) t).
  assert (Hwf' : well_formed t').
  { pose proof (Delete_well_formed t (time_Now env) i Hwf) as Hd.
    now rewrite Delete_total in Hd. }
  pose proof (ListUsers_rows_of _ _ _ _ H) as (us & _ & Hoff & _).
  pose proof (effective_limit_range limit) as Hl.
  apply ListUsers_fields in H as (_ & _ & HC & _ & _). repo_unfold.
  unfold Persistence.Count, CountUsers in HC. injection HC as HC.
  destruct (PostgresFacts.ListUsers_succeeds t' (int32 (effective_limit limit))
              (int32 (effective_offset offset))) as [rows Hrows];
    [rewrite int32_small; lia | assumption |].
  pose proof (PostgresFacts.ListUsers_rows _ _ _ _ Hrows) as Hin.
  destruct (map_rows_succeeds rows) with (i := 0%nat) as [us' Hus'].
  { intros r Hr. destruct (Hin r Hr) as [Hr' _].
    destruct Hwf' as (_ & _ & Hok). rewrite Forall_forall in Hok.
    destruct (Hok r Hr') as (Hcanon & _). eauto. }
  eexists. split; [|split; [|split; [|split]]].
  - unfold ListUsers. repo_unfold. unfold Persistence.List_. rewrite Hrows, Hus'.
    unfold Persistence.Count, CountUsers. reflexivity.
  - cbn [Users]. rewrite Forall_map.
    apply map_rows_fields in Hus'. clear Hrows.
    induction Hus' as [|r u rows us' Hru Hrest IH]; constructor.
    + destruct (Hin r (or_introl eq_refl)) as [Hr Hact].
      apply in_map_iff in Hr as (x & <- & Hx).
      apply soft_delete_row_active in Hact as [Heq Hne].
      apply toDomainUser_fields in Hru as (Hidu & _).
      unfold toUserResponseDTO. cbn [dto_ID]. rewrite Hidu, Heq. exact Hne.
    + apply IH. intros r' Hr'. apply Hin. now right.
  - cbn [Total]. unfold t'. rewrite filter_soft_delete, length_filter_without by apply Hwf.
    unfold GetUser. repo_unfold. unfold Persistence.FindByID, GetUserByID.
    destruct (find _ t) as [x|] eqn:F.
    + apply find_some in F as [Hx Hp]. apply andb_true_iff in Hp as [_ Hp].
      destruct Hwf as (_ & _ & Hok). rewrite Forall_forall in Hok.
      destruct (Hok x Hx) as (Hcanon & _).
      unfold Persistence.toDomainUser. rewrite Hcanon.
      assert (Hpos : (0 < List.length (filter is_active t))%nat).
      { assert (Hxin : In x (filter is_active t)) by (apply filter_In; now split).
        destruct (filter is_active t); [destruct Hxin | simpl; lia]. }
      lia.
    + cbn. lia.
  - unfold GetUser. repo_unfold. rewrite FindByID_none; [reflexivity|].
    intros r Hr Hrid. apply in_map_iff in Hr as (x & <- & Hx).
    rewrite soft_delete_row_id in Hrid. now apply soft_delete_row_inactive.
  - intros j Hj. unfold GetUser. repo_unfold. unfold Persistence.FindByID, GetUserByID.
    unfold t'. now rewrite find_soft_delete_other.
Qed.

End AnyBcrypt.

Lemma DeactivateUser_is_DeleteUser_witness :
  DeactivateUser env3 two_users 1%N =
  (alice_deleted, Ok (mkUserResponseDTO 1%N "a@x.com" "Alice" false 1000 3000)).
Proof.
  exact (proj1 (DeactivateUser_is_DeleteUser env3 two_users 1%N
                  (mkUser 1%N (mkEmail "a@x.com") "Alice" "$2a$10$password-a" true 1000 1000)
                  two_users_well_formed eq_refl)).
Defined.

Lemma DeleteUser_then_ListUsers_witness :
  exists resp',
    ListUsers (fst (DeleteUser env3 two_users 1%N)) 10 0 = Ok resp' /\ Total resp' = 1.
Proof.
  destruct (DeleteUser_then_ListUsers env3 two_users 1%N 10 0 _
              two_users_well_formed eq_refl) as (resp' & H & _ & Htotal & _).
  exists resp'. split; [exact H | exact Htotal].
Defined.

End DeactivationFacts.

(* ------------------------------------------------------------------ *)
(** ** Spelling of an address at the service *)

Module SpellingFacts.
Import GoString GoStringFacts GoErrors Persistence Domain DomainFacts.
Import Application Columns Fixtures.

Section AnyRepository.
Context {R : Type} {userRepo : UserRepository R} {bcrypt : Bcrypt}.

(** X16.  The service does not tell two spellings of an address apart.
    Over any repository, for two strings of bytes below 128 that differ only
    in the case of letters and in leading and trailing white space,
    [GetUserByEmail] returns the same result for both, [UpdateUser] returns
    the same result and leaves the same store for both, and so does
    [CreateUser] when neither string is empty. *)
Theorem address_spelling_irrelevant env (r : R) (a b : string) :
  ascii_text a = true -> ascii_text b = true ->
  differ_only_in_case_and_space a b ->
  GetUserByEmail r a = GetUserByEmail r b /\
  (forall i name,
     UpdateUser env r i (mkUpdateUserDTO name a) =
     UpdateUser env r i (mkUpdateUserDTO name b)) /\
  (forall name password,
     a <> EmptyString -> b <> EmptyString ->
     CreateUser env r (mkCreateUserDTO a name password) =
     CreateUser env r (mkCreateUserDTO b name password)).
Proof.
  intros _ _ Hab.
  assert (Heq : NewEmail a = NewEmail b) by now apply NewEmail_canonical_arg, canonical_eq.
  split; [|split].
  - unfold GetUserByEmail. now rewrite Heq.
  - intros i name. unfold UpdateUser. cbn [uu_Name uu_Email]. now rewrite Heq.
  - intros name password Ha Hb. unfold CreateUser, validateCreateUserInput.
    cbn [cu_Email cu_Name cu_Password].
    destruct (String.eqb_spec a EmptyString); [contradiction|].
    destruct (String.eqb_spec b EmptyString); [contradiction|].
    now rewrite Heq.
Qed.

End AnyRepository.

Lemma address_spelling_irrelevant_witness :
  GetUserByEmail two_users "  B@X.COM " = GetUserByEmail two_users "b@x.com".
Proof.
  refine (proj1 (address_spelling_irrelevant env1 two_users "  B@X.COM " "b@x.com"
                   eq_refl eq_refl _)).
  exists "  ", "B@X.COM", " ", EmptyString, "b@x.com", EmptyString.
  repeat split; reflexivity.
Defined.

End SpellingFacts.

(* ------------------------------------------------------------------ *)
(** ** The HTTP endpoints *)

Module EndpointFacts.
Import GoString GoStringFacts GoErrors GoInt GoIntFacts Persistence Domain DomainFacts.
Import CanonicalFacts Postgres TableConditions PostgresFacts RepositoryFacts.
Import Application ServiceInterface ServiceFacts TableFacts UniquenessFacts UpdateFacts.
Import SoftDeleteFacts PaginationFacts InvariantFacts Outcomes FailureFacts Routes.
Import Fixtures FixtureFacts.

(** A success status is below 400. *)
Ltac success_status :=
  let H := fresh "H" in
  intros H; exfalso; vm_compute in H; now apply H.

Section AnyRepository.
Context {R : Type} {userRepo : UserRepository R} {bcrypt : Bcrypt}.

(** The bounds the handler of [GET /users] applies are the ones the service
    applies again. *)
Lemma ListUsers_handler_bounds (r : R) (limit offset : Z) :
  Handler.ListUsers r limit offset =
  match ListUsers r limit offset with
  | Err err => Handler.handleError err
  | Ok users =>
      Handler.mkResponse Handler.StatusOK (Handler.ListBody (Handler.toUserListResponse users))
  end.
Proof.
  unfold Handler.ListUsers. cbv zeta.
  assert (E1 : (limit <? 1) = (limit <=? 0))
    by (destruct (Z.ltb_spec limit 1); destruct (Z.leb_spec limit 0); lia).
  rewrite E1.
  change (if 100 <? (if limit <=? 0 then 10 else limit) then 100
          else if limit <=? 0 then 10 else limit) with (effective_limit limit).
  change (if offset <? 0 then 0 else offset) with (effective_offset offset).
  assert (El : effective_limit (effective_limit limit) = effective_limit limit).
  { pose proof (effective_limit_range limit) as Hl.
    set (e := effective_limit limit) in *. unfold effective_limit.
    destruct (Z.leb_spec e 0); [lia|]. destruct (Z.ltb_spec 100 e); lia. }
  assert (Eo : effective_offset (effective_offset offset) = effective_offset offset).
  { pose proof (effective_offset_max offset) as Ho.
    set (e := effective_offset offset) in *. unfold effective_offset.
    destruct (Z.ltb_spec e 0); lia. }
  unfold ListUsers. now rewrite El, Eo.
Qed.

(** X20.  A value the service turns down with a plain error is answered
    with status 500, not 400.  Over any repository, for the identifier of a
    user that is found: [PUT /users/:id] with an empty name, and
    [POST /users/:id/password] with the right old password and a new one of
    fewer than 8 bytes, are answered with the [internal_error] body and leave
    the store as it is. *)
Theorem rejected_input_is_500 env (r : R) (i : UUID) (u : User) :
  FindByID r i = Ok u ->
  (forall email,
     Handler.UpdateUser env r (Some i) (Some (Handler.mkUpdateUserRequest email EmptyString)) =
     (r, Handler.internal_error)) /\
  (forall old new,
     verifyPassword (PasswordHash u) old = None -> len new < 8 ->
     Handler.ChangePassword env r (Some i)
       (Some (Handler.mkChangePasswordRequest old new)) =
     (r, Handler.internal_error)).
Proof.
  intros Hf. split.
  - intros email. unfold Handler.UpdateUser, UpdateUser.
    cbn [Handler.ureq_Name Handler.ureq_Email uu_Name uu_Email]. now rewrite Hf.
  - intros old new Hv Hlen. unfold Handler.ChangePassword.
    cbn [Handler.req_OldPassword Handler.req_NewPassword].
    now rewrite (ChangePassword_short_new_password env r i
                   (mkChangePasswordDTO old new) u Hf Hv Hlen).
Qed.

End AnyRepository.

Section AnyBcrypt.
Context {bcrypt : Bcrypt}.

(** X17.  [GET /users/:id] on a well-formed table.  A path parameter that
    is no UUID is answered with 400; the identifier of an active row with 200
    and that row's identifier, address, name, flag and times; any other
    identifier (no row, or an inactive one) with 404.  It is never answered
    with 500. *)
Theorem GetUser_endpoint (t : Table) :
  well_formed t ->
  Handler.GetUser t None = Handler.invalid_id /\
  (forall row, In row t -> is_active row = true ->
     Handler.GetUser t (Some (id row)) =
     Handler.mkResponse Handler.StatusOK
       (Handler.UserBody
          (Handler.mkUserResponse (id row) (email row) (name row) true
                                  (created_at row) (updated_at row)))) /\
  (forall i, (forall row, In row t -> id row = i -> is_active row = false) ->
     Handler.GetUser t (Some i) =
     Handler.mkResponse Handler.StatusNotFound
       (Handler.ErrorBody (Handler.mkErrorResponse "not_found" "User not found"))).
Proof.
  intros Hwf. split; [reflexivity|]. split.
  - intros row Hrow Hact. unfold Handler.GetUser, GetUser. repo_unfold.
    unfold Persistence.FindByID, GetUserByID.
    destruct (find_exists (fun r => has_id (id row) r && is_active r) t row Hrow)
      as [x Hx].
    { rewrite Hact, andb_true_r. now apply has_id_true. }
    rewrite Hx. apply find_some in Hx as [Hxin Hp].
    apply andb_true_iff in Hp as [Hxi _]. apply has_id_true in Hxi.
    assert (x = row) by (apply (NoDup_map_eq id t); [apply Hwf| | |]; assumption).
    subst x. destruct Hwf as (_ & _ & Hok). rewrite Forall_forall in Hok.
    destruct (Hok row Hrow) as (Hcanon & _).
    unfold Persistence.toDomainUser. rewrite Hcanon.
    unfold Handler.toUserResponse, toUserResponseDTO. cbn. now rewrite Hact.
  - intros i Hnone. unfold Handler.GetUser, GetUser. repo_unfold.
    now rewrite (FindByID_none t i Hnone).
Qed.

(** X18.  [GET /users] on a well-formed table.  The handler's own bounds
    change nothing: the answer is the one for the service called with the
    query parameters as they came.  For an offset below [2^31] the answer is
    200, with a limit between 1 and 100, the offset [max 0 offset] and at
    most [limit] users; for an offset from [2^31] to below [2^32] it is 500
    with the [internal_error] body.  In neither range is it 400. *)
Theorem ListUsers_endpoint (t : Table) (limit offset : Z) :
  well_formed t ->
  Handler.ListUsers t limit offset =
    match ListUsers t limit offset with
    | Err err => Handler.handleError err
    | Ok users =>
        Handler.mkResponse Handler.StatusOK
          (Handler.ListBody (Handler.toUserListResponse users))
    end /\
  (offset < 2 ^ 31 ->
   exists l,
     Handler.ListUsers t limit offset =
       Handler.mkResponse Handler.StatusOK (Handler.ListBody l) /\
     1 <= Handler.list_Limit l <= 100 /\
     Handler.list_Offset l = Z.max 0 offset /\
     Z.of_nat (List.length (Handler.list_Users l)) <= Handler.list_Limit l) /\
  (2 ^ 31 <= offset < 2 ^ 32 ->
   Handler.ListUsers t limit offset = Handler.internal_error).
Proof.
  intros Hwf. split; [apply ListUsers_handler_bounds|]. rewrite ListUsers_handler_bounds.
  pose proof (effective_limit_range limit) as Hl.
  pose proof (effective_offset_max offset) as Ho.
  assert (Hl32 : int32 (effective_limit limit) = effective_limit limit)
    by (apply int32_small; lia).
  split.
  - intros Hoff.
    assert (Ho32 : int32 (effective_offset offset) = effective_offset offset)
      by (apply int32_small; lia).
    unfold ListUsers. repo_unfold. unfold Persistence.List_. rewrite Hl32, Ho32.
    destruct (PostgresFacts.ListUsers_succeeds t (effective_limit limit)
                (effective_offset offset)) as [rows Hrows]; [lia | lia |].
    rewrite Hrows.
    pose proof (PostgresFacts.ListUsers_rows _ _ _ _ Hrows) as Hin.
    destruct (map_rows_succeeds rows) with (i := 0%nat) as [us Hus].
    { intros r Hr. destruct (Hin r Hr) as [Hr' _].
      destruct Hwf as (_ & _ & Hok). rewrite Forall_forall in Hok.
      destruct (Hok r Hr') as (Hcanon & _). eauto. }
    rewrite Hus. unfold Persistence.Count, CountUsers. eexists. split; [reflexivity|].
    cbn [Handler.toUserListResponse Handler.list_Limit Handler.list_Offset
         Handler.list_Users Limit Offset Users].
    split; [lia|]. split; [lia|].
    rewrite !length_map.
    apply ListingFacts.map_rows_fields, Forall2_length in Hus. rewrite <- Hus.
    unfold Postgres.ListUsers in Hrows.
    destruct (_ <? 0); [discriminate|]. destruct (_ <? 0); [discriminate|].
    injection Hrows as <-. rewrite length_firstn. lia.
  - intros Hoff.
    assert (Eo : effective_offset offset = offset) by lia.
    assert (Hneg : int32 offset < 0).
    { unfold int32. replace (offset + 2 ^ 31) with (offset - 2 ^ 31 + 1 * 2 ^ 32) by lia.
      rewrite Z.mod_add by lia. rewrite Z.mod_small by lia. lia. }
    unfold ListUsers. repo_unfold. unfold Persistence.List_. rewrite Hl32, Eo.
    unfold Postgres.ListUsers.
    destruct (Z.ltb_spec (effective_limit limit) 0); [lia|].
    destruct (Z.ltb_spec (int32 offset) 0); [reflexivity | lia].
Qed.

Lemma CreateUser_error_unchanged env (t t' : Table) dto (e : error) :
  CreateUser env t dto = (t', Err e) -> t' = t.
Proof.
  unfold CreateUser. repo_unfold.
  destruct (validateCreateUserInput dto); [now intros [= <-]|].
  destruct (NewEmail _) as [em|]; [|now intros [= <-]].
  destruct (lookup_email t em) as [[x|]|]; [now intros [= <-]| |now intros [= <-]].
  destruct (hashPassword _ _) as [h|]; [|now intros [= <-]].
  destruct (NewUser _ _ _ _ _) as [u|]; [|now intros [= <-]].
  destruct (Persistence.Save t u) as [t'' [o|]] eqn:E; [|discriminate].
  apply Save_error_unchanged in E. subst. now intros [= <-].
Qed.

Lemma UpdateUser_error_unchanged env (t t' : Table) (i : UUID) dto (e : error) :
  UpdateUser env t i dto = (t', Err e) -> t' = t.
Proof.
  unfold UpdateUser. repo_unfold.
  destruct (Persistence.FindByID t i) as [u|]; [|now intros [= <-]].
  destruct (String.eqb _ _); [now intros [= <-]|].
  destruct (NewEmail _) as [ne|]; [|now intros [= <-]].
  destruct (email_conflict t u ne); [now intros [= <-]|].
  destruct (UpdateProfile _ _ _ _) as [u'|]; [|now intros [= <-]].
  destruct (Persistence.Update t u') as [t'' [o|]] eqn:E; [|discriminate].
  apply Update_error_unchanged in E. subst. now intros [= <-].
Qed.

Lemma ChangePassword_error_unchanged env (t t' : Table) (i : UUID) dto (e : error) :
  ChangePassword env t i dto = (t', Some e) -> t' = t.
Proof.
  unfold ChangePassword. repo_unfold.
  destruct (Persistence.FindByID t i) as [u|]; [|now intros [= <-]].
  destruct (verifyPassword _ _); [now intros [= <-]|].
  destruct (validatePassword _); [now intros [= <-]|].
  destruct (hashPassword _ _) as [h|]; [|now intros [= <-]].
  destruct (Domain.ChangePassword _ _ _) as [u'|]; [|now intros [= <-]].
  destruct (Persistence.Update t u') as [t'' [o|]] eqn:E; [|discriminate].
  apply Update_error_unchanged in E. subst. now intros [= <-].
Qed.

(** X19.  A request answered with an error status changes nothing.  For
    every route and every request, over the SQLC-backed repository: when the
    status of the response is 400 or more, the table after the request is the
    table before it; and the status is one of 200, 201, 204, 400, 401, 403,
    404, 409 and 500. *)
Theorem error_status_changes_nothing env (t : Table) (req : http_request) :
  (400 <= Handler.Status (snd (RegisterRoutes env t req)) ->
   fst (RegisterRoutes env t req) = t) /\
  In (Handler.Status (snd (RegisterRoutes env t req)))
     [200; 201; 204; 400; 401; 403; 404; 409; 500].
Proof.
  assert (Hstatus : forall err,
            In (Handler.Status (Handler.handleError err))
               [200; 201; 204; 400; 401; 403; 404; 409; 500]).
  { intros err. unfold Handler.handleError.
    repeat match goal with
           | |- context [if ?b then _ else _] => destruct b
           end; vm_compute; tauto. }
  assert (Hparse : forall resp,
            resp = Handler.invalid_request \/ resp = Handler.invalid_id ->
            (400 <= Handler.Status resp -> t = t) /\
            In (Handler.Status resp) [200; 201; 204; 400; 401; 403; 404; 409; 500]).
  { intros resp [->| ->]; (split; [reflexivity | vm_compute; tauto]). }
  destruct req as [[body|]|limit offset|[i|]|[i|] [body|]|[i|]|[i|] [body|]];
    cbn [RegisterRoutes].
  - unfold Handler.CreateUser.
    destruct (CreateUser env t _) as [t' [d|e]] eqn:E; cbn [fst snd].
    + split; [success_status | vm_compute; tauto].
    + split; [intros _; now apply CreateUser_error_unchanged in E | apply Hstatus].
  - apply Hparse. now left.
  - cbn [fst snd]. split; [reflexivity|]. unfold Handler.ListUsers. cbv zeta.
    destruct (ListUsers t _ _); [vm_compute; tauto | apply Hstatus].
  - cbn [fst snd]. split; [reflexivity|]. unfold Handler.GetUser.
    destruct (GetUser t i); [vm_compute; tauto | apply Hstatus].
  - apply Hparse. now right.
  - unfold Handler.UpdateUser.
    destruct (UpdateUser env t i _) as [t' [d|e]] eqn:E; cbn [fst snd].
    + split; [success_status | vm_compute; tauto].
    + split; [intros _; now apply UpdateUser_error_unchanged in E | apply Hstatus].
  - apply Hparse. now left.
  - apply Hparse. now right.
  - apply Hparse. now right.
  - unfold Handler.DeleteUser. rewrite DeleteUser_never_fails. cbn [fst snd].
    split; [success_status | vm_compute; tauto].
  - apply Hparse. now right.
  - unfold Handler.ChangePassword.
    destruct (ChangePassword env t i _) as [t' [e|]] eqn:E; cbn [fst snd].
    + split; [intros _; now apply ChangePassword_error_unchanged in E | apply Hstatus].
    + split; [success_status | vm_compute; tauto].
  - apply Hparse. now left.
  - apply Hparse. now right.
  - apply Hparse. now right.
Qed.

End AnyBcrypt.

Lemma rejected_input_is_500_witness :
  Handler.ChangePassword env3 two_users (Some 1%N)
    (Some (Handler.mkChangePasswordRequest "password-a" "short")) =
  (two_users, Handler.internal_error).
Proof.
  assert (Hlen : len "short" < 8) by reflexivity.
  exact (proj2 (rejected_input_is_500 env3 two_users 1%N
                  (mkUser 1%N (mkEmail "a@x.com") "Alice" "$2a$10$password-a" true
                          1000 1000) eq_refl)
           "password-a" "short" eq_refl Hlen).
Defined.

Lemma GetUser_endpoint_witness :
  Handler.GetUser alice_deleted (Some 1%N) =
  Handler.mkResponse Handler.StatusNotFound
    (Handler.ErrorBody (Handler.mkErrorResponse "not_found" "User not found")).
Proof.
  assert (Hwf : well_formed alice_deleted).
  { pose proof (Delete_well_formed two_users 3000 1%N two_users_well_formed) as H.
    exact H. }
  refine (proj2 (proj2 (GetUser_endpoint alice_deleted Hwf)) 1%N _).
  intros row [<-|[<-|[]]]; [reflexivity | discriminate].
Defined.

Lemma ListUsers_endpoint_witness :
  Handler.ListUsers two_users 10 2147483648 = Handler.internal_error.
Proof.
  refine (proj2 (proj2 (ListUsers_endpoint two_users 10 2147483648 two_users_well_formed)) _).
  lia.
Defined.

End EndpointFacts.

(* ------------------------------------------------------------------ *)
(** ** A deleted account keeps its address for good *)

Module RetiredFacts.
Import GoString GoStringFacts GoErrors Persistence Domain DomainFacts CanonicalFacts.
Import Postgres TableConditions PostgresFacts RepositoryFacts.
Import Application ServiceInterface ServiceFacts TableFacts UniquenessFacts.
Import SoftDeleteFacts FailureFacts EndpointFacts Fixtures.

Lemma In_replace_row_other (i : UUID) (r x : Row) (t : Table) :
  In x t -> id x <> i -> In x (replace_row i r t).
Proof.
  intros Hx Hne. induction t as [|y t IH]; [destruct Hx|]. simpl.
  destruct (has_id i y) eqn:E.
  - destruct Hx as [->|Hx]; [|now right].
    apply has_id_true in E. contradiction.
  - destruct Hx as [->|Hx]; [now left | right; now apply IH].
Qed.

(** [Update] with an address that a row of another identifier holds fails
    and leaves the table as it is. *)
Lemma Update_blocked (t : Table) (u : User) (r : Row) :
  In r t -> email r = Value (Email_ u) -> id r <> ID u ->
  TrimRight (Value (Email_ u)) = Value (Email_ u) ->
  exists err, Persistence.Update t u = (t, Some err).
Proof.
  intros Hr He Hid Ht. unfold Persistence.Update, Postgres.UpdateUser.
  cbn [up_id up_email up_name up_password_hash up_is_active up_updated_at].
  destruct (find (has_id (ID u)) t) as [old|]; [|cbn; eauto].
  destruct (varchar 255 "255" (Value (Email_ u))) as [em|e] eqn:Ev;
    [|cbv beta iota; destruct (errors_Is e pgx_ErrNoRows);
      [|destruct (isUniqueViolation (Some e))]; eauto].
  apply (varchar_no_truncation _ _ _ _ Ht) in Ev as [-> _].
  destruct (varchar 100 "100" (Name u)) as [nm|e];
    [|cbv beta iota; destruct (errors_Is e pgx_ErrNoRows);
      [|destruct (isUniqueViolation (Some e))]; eauto].
  destruct (varchar 255 "255" (PasswordHash u)) as [ph|e];
    [|cbv beta iota; destruct (errors_Is e pgx_ErrNoRows);
      [|destruct (isUniqueViolation (Some e))]; eauto].
  rewrite (existsb_true _ _ r Hr).
  - cbv beta iota. cbn. eauto.
  - rewrite (proj2 (has_email_true _ _) He). simpl. apply negb_true_iff.
    apply not_true_iff_false. intros H. apply has_id_true in H. contradiction.
Qed.

Section AnyBcrypt.
Context {bcrypt : Bcrypt}.

(** The row of a soft-deleted account, with its address, survives every
    call of the service. *)
Lemma retired_row_serve env (t : Table) req (i : UUID) (e : string) :
  soft_deleted t i ->
  (exists r, In r t /\ id r = i /\ email r = e) ->
  exists r, In r (serve env t req) /\ id r = i /\ email r = e.
Proof.
  intros Hsd (r0 & Hr0 & Hi0 & He0).
  assert (Hrw : forall t' j, rewrites t t' j ->
                             exists r, In r t' /\ id r = i /\ email r = e).
  { intros t' j [->|(u & u' & Hf & Hid & _ & ->)]; [eauto|].
    destruct Hsd as [_ Hall].
    apply FindByID_row in Hf as (r & Hr & Hj & Hact & Hu).
    apply toDomainUser_fields in Hu as (Hidu & _).
    assert (Hne : j <> i) by (intros ->; rewrite (Hall r Hr Hj) in Hact; discriminate).
    destruct (Update_table t u') as [->|(r' & -> & _)]; [eauto|].
    exists r0. split; [|now split]. apply In_replace_row_other; [assumption|congruence]. }
  destruct req as [dto| | |j dto|j|j|j|j dto| ]; cbn [serve]; eauto.
  - destruct (CreateUser_table env t dto) as [->|(u & _ & ->)]; [eauto|].
    destruct (Save_table t u) as [->|(r & -> & _)]; [eauto|].
    exists r0. split; [apply in_or_app; now left | now split].
  - apply (Hrw _ j), UpdateUser_rewrites.
  - rewrite DeleteUser_never_fails. cbn [fst].
    exists (soft_delete_row j (time_Now env) r0). split; [now apply in_map|].
    now rewrite soft_delete_row_id, soft_delete_row_email.
  - apply (Hrw _ j), ActivateUser_rewrites.
  - apply (Hrw _ j), DeactivateUser_rewrites.
  - apply (Hrw _ j), ChangePassword_rewrites.
Qed.

(** X21.  The address of a deleted account is taken for good.  Once an
    identifier is soft-deleted (it has a row and no active one) and a row of
    it holds an address, then after any run of calls of the service: the
    identifier is still soft-deleted and [GetUser] does not find it; an
    inactive row of it still holds the address; every [CreateUser] with that
    address, and every [UpdateUser] of any user to that address, returns an
    error and leaves the table as it is. *)
Theorem deleted_address_stays_taken (reqs : list (Env * request)) (t : Table)
    (i : UUID) (e : string) :
  soft_deleted t i ->
  (exists r, In r t /\ id r = i /\ email r = e) ->
  let t' := serve_all reqs t in
  soft_deleted t' i /\
  GetUser t' i = Err ErrUserNotFound /\
  (exists r, In r t' /\ id r = i /\ email r = e /\ is_active r = false) /\
  (forall env dto em,
     NewEmail (cu_Email dto) = Ok em -> value em = e ->
     exists err, CreateUser env t' dto = (t', Err err)) /\
  (forall env j dto em,
     NewEmail (uu_Email dto) = Ok em -> value em = e ->
     exists err, UpdateUser env t' j dto = (t', Err err)).
Proof.
  intros Hsd Hrow. cbv zeta.
  assert (Hinv : soft_deleted (serve_all reqs t) i /\
                 exists r, In r (serve_all reqs t) /\ id r = i /\ email r = e).
  { revert t Hsd Hrow. induction reqs as [|[env req] reqs IH]; intros t Hsd Hrow; simpl.
    - now split.
    - apply IH; [now apply soft_deleted_serve | now apply retired_row_serve]. }
  destruct Hinv as [Hsd' (r0 & Hr0 & Hi0 & He0)].
  set (t' := serve_all reqs t) in *.
  assert (Hnone : Persistence.FindByID t' i = Err ErrUserNotFound)
    by (apply FindByID_none; apply Hsd').
  split; [exact Hsd'|]. split; [|split; [|split]].
  - unfold GetUser. repo_unfold. now rewrite Hnone.
  - exists r0. repeat split; try assumption. now apply Hsd'.
  - intros env dto em Hem Hv. apply (CreateUser_blocked env t' dto em r0 Hem Hr0).
    congruence.
  - intros env j dto em Hem Hv.
    destruct (UpdateUser env t' j dto) as [t'' [d|err]] eqn:Hu.
    + exfalso. revert Hu. unfold UpdateUser. repo_unfold.
      destruct (Persistence.FindByID t' j) as [u|] eqn:Hf; [|discriminate].
      destruct (String.eqb _ _); [discriminate|]. rewrite Hem.
      destruct (email_conflict t' u em); [discriminate|].
      unfold UpdateProfile. destruct (String.eqb _ _); [discriminate|].
      set (u' := mkUser _ _ _ _ _ _ _).
      destruct (Update_blocked t' u' r0 Hr0) as [err Hup].
      * cbn. unfold Value. congruence.
      * cbn. intros Heq. rewrite Hi0 in Heq.
        apply FindByID_row in Hf as (r & Hr & Hj & Hact & Hru).
        apply toDomainUser_fields in Hru as (Hidu & _).
        destruct Hsd' as [_ Hall]. rewrite (Hall r Hr) in Hact; [discriminate|congruence].
      * cbn. exact (NewEmail_TrimRight _ _ Hem).
      * rewrite Hup. discriminate.
    + apply UpdateUser_error_unchanged in Hu as Ht. subst t''. eauto.
Qed.

End AnyBcrypt.

Lemma deleted_address_stays_taken_witness :
  exists err,
    CreateUser env3
      (serve_all [(env2, CallActivateUser 1%N);
                  (env3, CallUpdateUser 2%N (mkUpdateUserDTO "Bobby" "bob@x.com"))]
         alice_deleted)
      (mkCreateUserDTO "A@x.com" "Alice II" "password-2") =
    (serve_all [(env2, CallActivateUser 1%N);
                (env3, CallUpdateUser 2%N (mkUpdateUserDTO "Bobby" "bob@x.com"))]
       alice_deleted, Err err).
Proof.
  assert (Hsd : soft_deleted alice_deleted 1%N).
  { split.
    - eexists. split; [left; reflexivity | reflexivity].
    - intros r [<-|[<-|[]]]; [reflexivity | discriminate]. }
  assert (Hrow : exists r, In r alice_deleted /\ id r = 1%N /\ email r = "a@x.com").
  { eexists. split; [left; reflexivity | split; reflexivity]. }
  exact (proj1 (proj2 (proj2 (proj2
           (deleted_address_stays_taken
              [(env2, CallActivateUser 1%N);
               (env3, CallUpdateUser 2%N (mkUpdateUserDTO "Bobby" "bob@x.com"))]
              alice_deleted 1%N "a@x.com" Hsd Hrow))))
           env3 (mkCreateUserDTO "A@x.com" "Alice II" "password-2")
           (mkEmail "a@x.com") eq_refl eq_refl).
Defined.

End RetiredFacts.

(* ------------------------------------------------------------------ *)
(** ** The entity stays valid *)

Module EntityFacts.
Import GoString GoErrors Domain DomainFacts Entity.

Lemma NewEmail_not_empty (raw : string) (e : Email) :
  NewEmail raw = Ok e -> String.eqb (Value e) EmptyString = false.
Proof.
  unfold NewEmail. destruct (String.eqb _ EmptyString) eqn:E; [discriminate|].
  destruct (negb _); [discriminate|]. now intros [= <-].
Qed.

(** X22.  The methods of the entity keep it valid.  A user built by
    [NewUser] from an address [NewEmail] accepted passes [Validate], unless
    the identifier drawn is [uuid.Nil], which [NewUser] does not check and
    [Validate] turns down; and from a user that passes [Validate],
    [UpdateProfile] (to an address [NewEmail] accepted), [ChangePassword],
    [Activate] and [Deactivate] return, when they return a user, one that
    passes [Validate]. *)
Theorem Validate_kept (raw : string) (email : Email) :
  NewEmail raw = Ok email ->
  (forall id now name passwordHash u,
     NewUser id now email name passwordHash = Ok u ->
     (id <> uuid_Nil -> Validate u = None) /\
     (id = uuid_Nil -> Validate u = Some (errors_New "user ID cannot be nil"))) /\
  (forall now u,
     Validate u = None ->
     (forall name u', UpdateProfile now u name email = Ok u' -> Validate u' = None) /\
     (forall passwordHash u',
        ChangePassword now u passwordHash = Ok u' -> Validate u' = None) /\
     Validate (Activate now u) = None /\
     Validate (Deactivate now u) = None).
Proof.
  intros He. pose proof (NewEmail_not_empty raw email He) as Hne. split.
  - intros id now name h u. unfold NewUser.
    destruct (String.eqb name EmptyString) eqn:En; [discriminate|].
    destruct (String.eqb h EmptyString) eqn:Eh; [discriminate|].
    intros [= <-]. unfold Validate. cbn [ID Email_ Name PasswordHash]. split.
    + intros Hid. apply N.eqb_neq in Hid. now rewrite Hid, Hne, En, Eh.
    + intros ->. reflexivity.
  - intros now u. unfold Validate.
    destruct (N.eqb (ID u) uuid_Nil) eqn:Ei; [discriminate|].
    destruct (String.eqb (Value (Email_ u)) EmptyString) eqn:Ee; [discriminate|].
    destruct (String.eqb (Name u) EmptyString) eqn:En; [discriminate|].
    destruct (String.eqb (PasswordHash u) EmptyString) eqn:Eh; [discriminate|].
    intros _. split; [|split; [|split]].
    + intros name u'. unfold UpdateProfile.
      destruct (String.eqb name EmptyString) eqn:En'; [discriminate|].
      intros [= <-]. cbn [ID Email_ Name PasswordHash]. now rewrite Ei, Hne, En', Eh.
    + intros h u'. unfold ChangePassword.
      destruct (String.eqb h EmptyString) eqn:Eh'; [discriminate|].
      intros [= <-]. cbn [ID Email_ Name PasswordHash]. now rewrite Ei, Ee, En, Eh'.
    + unfold Activate. cbn [ID Email_ Name PasswordHash]. now rewrite Ei, Ee, En, Eh.
    + unfold Deactivate. cbn [ID Email_ Name PasswordHash]. now rewrite Ei, Ee, En, Eh.
Qed.

Lemma Validate_kept_witness :
  Validate (mkUser 0%N (mkEmail "a@x.com") "Alice" "$2a$10$h" true 5 5) =
  Some (errors_New "user ID cannot be nil").
Proof.
  exact (proj2 (proj1 (Validate_kept "A@x.com " (mkEmail "a@x.com") eq_refl)
                  0%N 5 "Alice" "$2a$10$h" _ eq_refl) eq_refl).
Defined.

End EntityFacts.

(* ------------------------------------------------------------------ *)
(** ** Configuration *)

Module ConfigFacts.
Import GoString GoErrors GoInt GoIntFacts Strconv Config.

Lemma getEnv_not_empty (Getenv : string -> string) (key defaultValue : string) :
  String.eqb defaultValue EmptyString = false ->
  String.eqb (getEnv Getenv key defaultValue) EmptyString = false.
Proof.
  intros Hd. unfold getEnv. cbv zeta.
  destruct (String.eqb (Getenv key) EmptyString) eqn:E; simpl; assumption.
Qed.

Lemma digit_value_range (c : ascii) : is_digit c = true -> 0 <= digit_value c <= 9.
Proof.
  unfold is_digit, byte_in, digit_value. intros H.
  apply andb_true_iff in H as [H1 H2].
  apply Nat.leb_le in H1, H2.
  change (nat_of_ascii "0") with 48%nat in H1. change (nat_of_ascii "9") with 57%nat in H2.
  unfold nat_of_ascii in H1, H2. lia.
Qed.

Lemma decimal_from_ge (s : string) (n : Z) :
  0 <= n -> all_digits s = true -> n <= decimal_from n s.
Proof.
  revert n. induction s as [|c s IH]; intros n Hn Hs; simpl; [lia|].
  simpl in Hs. apply andb_true_iff in Hs as [Hc Hs].
  pose proof (digit_value_range c Hc).
  assert (Hn1 : 0 <= n * 10 + digit_value c) by lia.
  pose proof (IH (n * 10 + digit_value c) Hn1 Hs). lia.
Qed.

(** On digits, the loop of [ParseUint] computes the positional value, and
    fails exactly when that value is above [1<<32 - 1]. *)
Lemma parse_digits_value (s : string) (n : Z) :
  0 <= n <= 2 ^ 32 - 1 -> all_digits s = true ->
  parse_digits n s =
  if decimal_from n s <=? 2 ^ 32 - 1 then Parsed (decimal_from n s) else Failed ErrRange.
Proof.
  revert n. induction s as [|c s IH]; intros n Hn Hs; cbn [parse_digits decimal_from].
  - destruct (Z.leb_spec n (2 ^ 32 - 1)); [reflexivity | lia].
  - simpl in Hs. apply andb_true_iff in Hs as [Hc Hs]. rewrite Hc.
    pose proof (digit_value_range c Hc) as Hd.
    destruct (Z.ltb_spec (2 ^ 32 - 1) (n * 10 + digit_value c)) as [Hbig|Hfit].
    + assert (Hn1 : 0 <= n * 10 + digit_value c) by lia.
      pose proof (decimal_from_ge s (n * 10 + digit_value c) Hn1 Hs) as Hge.
      destruct (Z.leb_spec (decimal_from (n * 10 + digit_value c) s) (2 ^ 32 - 1));
        [lia | reflexivity].
    + apply IH; [lia | assumption].
Qed.

(** The loop accepts nothing but digits. *)
Lemma parse_digits_digits (s : string) (n un : Z) :
  parse_digits n s = Parsed un -> all_digits s = true.
Proof.
  revert n. induction s as [|c s IH]; intros n; simpl; [reflexivity|].
  destruct (is_digit c); [|discriminate].
  destruct (_ <? _); [discriminate|]. apply IH.
Qed.

Lemma digit_no_sign (c : ascii) :
  is_digit c = true -> Ascii.eqb c "+" = false /\ Ascii.eqb c "-" = false.
Proof.
  intros H. split.
  - destruct (Ascii.eqb_spec c "+"); [subst; discriminate | reflexivity].
  - destruct (Ascii.eqb_spec c "-"); [subst; discriminate | reflexivity].
Qed.

Lemma ParseUint_digits (digits : string) :
  all_digits digits = true -> digits <> EmptyString ->
  ParseUint_10_32 digits =
  if decimal_value digits <=? 2 ^ 32 - 1 then Parsed (decimal_value digits)
  else Failed ErrRange.
Proof.
  intros Hd Hne. unfold ParseUint_10_32.
  destruct (String.eqb_spec digits EmptyString); [contradiction|].
  apply parse_digits_value; [lia | assumption].
Qed.

Section Environment.
Variable Getenv : string -> string.
Variable ParseDuration : string -> result Z.

(** X23.  [Load] cannot fail.  Whatever the environment holds and however
    durations parse, [Load] returns a configuration, and that configuration
    passes [Validate]: every required field has a default that is not empty,
    and a variable set to the empty string counts as not set (with no
    [APP_ENV] the configuration is a development one). *)
Theorem Load_never_fails :
  exists cfg,
    Load Getenv ParseDuration = Ok cfg /\
    Validate cfg = None /\
    (Getenv "DB_HOST" = EmptyString -> Host (Database cfg) = "localhost") /\
    (Getenv "DB_HOST" <> EmptyString -> Host (Database cfg) = Getenv "DB_HOST") /\
    (Getenv "APP_ENV" = EmptyString -> IsDevelopment cfg = true).
Proof.
  unfold Load. cbv zeta.
  set (cfg := mkConfig _ _ _).
  assert (Hv : Validate cfg = None).
  { unfold Validate, cfg. cbn [Database App Host Port User DBName App_Port].
    now rewrite !getEnv_not_empty by reflexivity. }
  rewrite Hv. exists cfg. split; [reflexivity|]. split; [exact Hv|].
  unfold cfg, IsDevelopment. cbn [Database App Host Environment]. unfold getEnv. cbv zeta.
  split; [|split].
  - now intros ->.
  - intros H. destruct (String.eqb_spec (Getenv "DB_HOST") EmptyString);
      [contradiction | reflexivity].
  - now intros ->.
Qed.

(** X24.  [getEnvAsInt32] reads a decimal number and falls back
    otherwise.  For a default within [int32] the result is within [int32].
    When the variable holds decimal digits, with or without a leading [+],
    the result is their positional value if that is below [2^31], and the
    default if not; with a leading [-] it is minus that value if the value is
    at most [2^31].  When the variable holds anything else (nothing, a sign
    alone, a blank or any other byte) the result is the default. *)
Theorem getEnvAsInt32_decimal (key : string) (defaultValue : Z) :
  - 2 ^ 31 <= defaultValue < 2 ^ 31 ->
  - 2 ^ 31 <= getEnvAsInt32 Getenv key defaultValue < 2 ^ 31 /\
  (forall digits,
     all_digits digits = true -> digits <> EmptyString ->
     (Getenv key = digits \/ Getenv key = String "+" digits ->
      getEnvAsInt32 Getenv key defaultValue =
      if decimal_value digits <? 2 ^ 31 then decimal_value digits else defaultValue) /\
     (Getenv key = String "-" digits ->
      getEnvAsInt32 Getenv key defaultValue =
      if decimal_value digits <=? 2 ^ 31 then - decimal_value digits else defaultValue)) /\
  ((forall digits,
      all_digits digits = true -> digits <> EmptyString ->
      Getenv key <> digits /\ Getenv key <> String "+" digits /\
      Getenv key <> String "-" digits) ->
   getEnvAsInt32 Getenv key defaultValue = defaultValue).
Proof.
  intros Hd.
  assert (Hpos : forall digits, all_digits digits = true -> 0 <= decimal_value digits).
  { intros digits H. now apply (decimal_from_ge digits 0). }
  assert (Hplain : forall digits rest c,
            all_digits digits = true -> digits <> EmptyString ->
            (Ascii.eqb c "+" = true /\ rest = digits \/
             Ascii.eqb c "+" = false /\ Ascii.eqb c "-" = false /\ String c rest = digits) ->
            Getenv key = String c rest ->
            getEnvAsInt32 Getenv key defaultValue =
            if decimal_value digits <? 2 ^ 31 then decimal_value digits else defaultValue).
  { intros digits rest c Hdig Hne Hc Hv. unfold getEnvAsInt32. cbv zeta. rewrite Hv.
    cbn [String.eqb]. unfold ParseInt_10_32. cbv zeta.
    assert (Hs : (if Ascii.eqb c "+" || Ascii.eqb c "-" then rest else String c rest) = digits
                 /\ Ascii.eqb c "-" = false).
    { destruct Hc as [[Hp ->]|(Hp & Hm & <-)].
      - rewrite Hp. split; [reflexivity|].
        apply Ascii.eqb_eq in Hp. now subst c.
      - now rewrite Hp, Hm. }
    destruct Hs as [-> ->]. rewrite (ParseUint_digits digits Hdig Hne).
    pose proof (Hpos digits Hdig).
    destruct (Z.leb_spec (decimal_value digits) (2 ^ 32 - 1));
      destruct (Z.ltb_spec (decimal_value digits) (2 ^ 31)); try lia; try reflexivity.
    - cbn [negb andb]. destruct (Z.leb_spec (2 ^ 31) (decimal_value digits)); [lia|].
      apply int32_small. lia.
    - cbn [negb andb]. destruct (Z.leb_spec (2 ^ 31) (decimal_value digits)); [|lia].
      reflexivity. }
  split; [|split].
  - unfold getEnvAsInt32. cbv zeta.
    destruct (String.eqb _ _); [assumption|].
    destruct (ParseInt_10_32 _); [|assumption].
    unfold int32. pose proof (Z.mod_pos_bound (n + 2 ^ 31) (2 ^ 32)). lia.
  - intros digits Hdig Hne. split.
    + intros [Hv|Hv].
      * destruct digits as [|c rest]; [contradiction|].
        pose proof Hdig as Hdig0.
        simpl in Hdig. apply andb_true_iff in Hdig as [Hc Hrest].
        destruct (digit_no_sign c Hc) as [Hp Hm].
        exact (Hplain (String c rest) rest c Hdig0 Hne
                 (or_intror (conj Hp (conj Hm eq_refl))) Hv).
      * exact (Hplain digits digits "+"%char Hdig Hne
                 (or_introl (conj eq_refl eq_refl)) Hv).
    + intros Hv. unfold getEnvAsInt32. cbv zeta. rewrite Hv.
      cbn [String.eqb]. unfold ParseInt_10_32. cbv zeta.
      change (Ascii.eqb "-" "+") with false. change (Ascii.eqb "-" "-") with true.
      cbn [orb negb andb]. rewrite (ParseUint_digits digits Hdig Hne).
      pose proof (Hpos digits Hdig).
      destruct (Z.leb_spec (decimal_value digits) (2 ^ 32 - 1));
        destruct (Z.leb_spec (decimal_value digits) (2 ^ 31)); try lia; try reflexivity.
      * destruct (Z.ltb_spec (2 ^ 31) (decimal_value digits)); [lia|].
        apply int32_small. lia.
      * destruct (Z.ltb_spec (2 ^ 31) (decimal_value digits)); [reflexivity | lia].
  - intros Hnot. unfold getEnvAsInt32. cbv zeta.
    destruct (String.eqb _ _); [reflexivity|].
    destruct (ParseInt_10_32 (Getenv key)) as [n|] eqn:Hp; [exfalso | reflexivity].
    revert Hp. unfold ParseInt_10_32.
    destruct (Getenv key) as [|c rest] eqn:Hv; [discriminate|]. cbv zeta.
    destruct (ParseUint_10_32 _) as [un|] eqn:Hu; [|discriminate]. intros _.
    unfold ParseUint_10_32 in Hu.
    destruct (String.eqb_spec
                (if Ascii.eqb c "+" || Ascii.eqb c "-" then rest else String c rest)
                EmptyString) as [|Hne]; [discriminate|].
    apply parse_digits_digits in Hu.
    destruct (Hnot _ Hu Hne) as (H1 & H2 & H3).
    destruct (Ascii.eqb_spec c "+") as [->|Hcp].
    + now apply H2.
    + destruct (Ascii.eqb_spec c "-") as [->|Hcm]; [now apply H3 | now apply H1].
Qed.

End Environment.

Lemma getEnvAsInt32_decimal_witness :
  getEnvAsInt32 (fun _ => "2147483648") "DB_MAX_CONNS" 25 = 25.
Proof.
  assert (Hd : - 2 ^ 31 <= 25 < 2 ^ 31) by lia.
  assert (Hne : "2147483648" <> EmptyString) by discriminate.
  exact (proj1 (proj1 (proj2 (getEnvAsInt32_decimal (fun _ => "2147483648")
                                "DB_MAX_CONNS" 25 Hd))
                  "2147483648" eq_refl Hne) (or_introl eq_refl)).
Defined.

End ConfigFacts.

(* ------------------------------------------------------------------ *)
(** ** Every stored user is a valid entity *)

Module StoredFacts.
Import GoString GoStringFacts GoErrors Persistence Domain DomainFacts CanonicalFacts.
Import Postgres TableConditions PostgresFacts RepositoryFacts.
Import Application ServiceInterface ServiceFacts TableFacts UniquenessFacts.
Import SoftDeleteFacts InvariantFacts SaveFacts FailureFacts RewriteFacts.
Import Entity EntityFacts StoredRows Fixtures.

(** A column never turns a text that is not empty into the empty one. *)
Lemma varchar_not_empty (n : nat) (label s s' : string) :
  varchar (S n) label s = Ok s' -> s <> EmptyString -> s' <> EmptyString.
Proof.
  unfold varchar. destruct (_ <=? _)%nat; [now intros [= <-]|].
  destruct (all_blank _); [|discriminate]. intros [= <-] Hs.
  destruct s as [|c r]; [contradiction | discriminate].
Qed.

Lemma row_valid_Validate (r : Row) (u : User) :
  row_valid r -> Persistence.toDomainUser r = Ok u -> Validate u = None.
Proof.
  intros (Hi & Hn & Hp) Hu.
  apply toDomainUser_fields in Hu as (Hid & He & Hname & Hph & _).
  unfold Validate. rewrite Hid, Hname, Hph, (NewEmail_not_empty _ _ He).
  apply N.eqb_neq in Hi. rewrite Hi.
  destruct (String.eqb_spec (name r) EmptyString); [contradiction|].
  destruct (String.eqb_spec (password_hash r) EmptyString); [contradiction|].
  reflexivity.
Qed.

Lemma Save_valid (t : Table) (u : User) :
  Forall row_valid t ->
  ID u <> uuid_Nil -> Name u <> EmptyString -> PasswordHash u <> EmptyString ->
  Forall row_valid (fst (Persistence.Save t u)).
Proof.
  intros Ht Hi Hn Hp.
  destruct (Persistence.Save t u) as [t' [e|]] eqn:Hs; cbn [fst].
  - apply Save_error_unchanged in Hs. now subst.
  - apply Save_success in Hs as (em & nm & ph & _ & Hnm & Hph & -> & _).
    apply Forall_app. split; [assumption|]. constructor; [|constructor].
    repeat split; cbn [id name password_hash]; [assumption| |].
    + exact (varchar_not_empty _ _ _ _ Hnm Hn).
    + exact (varchar_not_empty _ _ _ _ Hph Hp).
Qed.

Lemma Update_valid (t : Table) (u : User) :
  Forall row_valid t ->
  ID u <> uuid_Nil -> Name u <> EmptyString -> PasswordHash u <> EmptyString ->
  Forall row_valid (fst (Persistence.Update t u)).
Proof.
  intros Ht Hi Hn Hp.
  destruct (Persistence.Update t u) as [t' [e|]] eqn:Hs; cbn [fst].
  - apply Update_error_unchanged in Hs. now subst.
  - apply Update_success in Hs as (old & em & nm & ph & _ & _ & _ & Hnm & Hph & ->).
    apply Forall_replace_row; [|assumption].
    repeat split; cbn [id name password_hash]; [assumption| |].
    + exact (varchar_not_empty _ _ _ _ Hnm Hn).
    + exact (varchar_not_empty _ _ _ _ Hph Hp).
Qed.

Lemma FindByID_valid (t : Table) (i : UUID) (u : User) :
  Forall row_valid t -> Persistence.FindByID t i = Ok u ->
  ID u <> uuid_Nil /\ Name u <> EmptyString /\ PasswordHash u <> EmptyString.
Proof.
  intros Ht Hf. apply FindByID_row in Hf as (r & Hr & _ & _ & Hu).
  rewrite Forall_forall in Ht. destruct (Ht r Hr) as (Hi & Hn & Hp).
  apply toDomainUser_fields in Hu as (Hid & _ & Hname & Hph & _).
  repeat split; congruence.
Qed.

Section AnyBcrypt.
Context {bcrypt : Bcrypt}.

(** Each call of the service keeps the rows valid, as long as the
    identifier it draws is not [uuid.Nil]. *)
Lemma row_valid_serve env (t : Table) req :
  uuid_New env <> uuid_Nil -> Forall row_valid t -> Forall row_valid (serve env t req).
Proof.
  intros Hnew Ht.
  destruct req as [dto| | |j dto|j|j|j|j dto| ]; cbn [serve]; try assumption.
  - unfold CreateUser. repo_unfold.
    destruct (validateCreateUserInput dto); [assumption|].
    destruct (NewEmail _) as [em|]; [|assumption].
    destruct (lookup_email t em) as [[x|]|]; [assumption| |assumption].
    destruct (hashPassword _ _) as [h|]; [|assumption].
    unfold NewUser.
    destruct (String.eqb_spec (cu_Name dto) EmptyString); [assumption|].
    destruct (String.eqb_spec h EmptyString); [assumption|].
    set (u := mkUser _ _ _ _ _ _ _).
    pose proof (Save_valid t u Ht Hnew) as Hs. cbn [u Name PasswordHash] in Hs.
    specialize (Hs ltac:(assumption) ltac:(assumption)).
    destruct (Persistence.Save t u) as [t' [e|]]; exact Hs.
  - unfold UpdateUser. repo_unfold.
    destruct (Persistence.FindByID t j) as [u|] eqn:Hf; [|assumption].
    destruct (String.eqb_spec (uu_Name dto) EmptyString); [assumption|].
    destruct (NewEmail _) as [ne|]; [|assumption].
    destruct (email_conflict t u ne); [assumption|].
    unfold UpdateProfile.
    destruct (String.eqb_spec (uu_Name dto) EmptyString); [contradiction|].
    destruct (FindByID_valid t j u Ht Hf) as (Hi & _ & Hp).
    set (u' := mkUser _ _ _ _ _ _ _).
    pose proof (Update_valid t u' Ht Hi) as Hs. cbn [u' Name PasswordHash] in Hs.
    specialize (Hs ltac:(assumption) Hp).
    destruct (Persistence.Update t u') as [t' [e|]]; exact Hs.
  - rewrite DeleteUser_never_fails. cbn [fst]. rewrite Forall_forall in *.
    intros r Hr. apply in_map_iff in Hr as (x & <- & Hx).
    destruct (Ht x Hx) as (Hi & Hn & Hp). unfold soft_delete_row.
    destruct (has_id j x); [|now repeat split]. now repeat split.
  - unfold ActivateUser. repo_unfold.
    destruct (Persistence.FindByID t j) as [u|] eqn:Hf; [|assumption].
    destruct (FindByID_valid t j u Ht Hf) as (Hi & Hn & Hp). cbv zeta.
    pose proof (Update_valid t (Activate (time_Now env) u) Ht Hi Hn Hp) as Hs.
    destruct (Persistence.Update t _) as [t' [e|]]; exact Hs.
  - unfold DeactivateUser. repo_unfold.
    destruct (Persistence.FindByID t j) as [u|] eqn:Hf; [|assumption].
    destruct (FindByID_valid t j u Ht Hf) as (Hi & Hn & Hp). cbv zeta.
    pose proof (Update_valid t (Deactivate (time_Now env) u) Ht Hi Hn Hp) as Hs.
    destruct (Persistence.Update t _) as [t' [e|]]; exact Hs.
  - unfold ChangePassword. repo_unfold.
    destruct (Persistence.FindByID t j) as [u|] eqn:Hf; [|assumption].
    destruct (verifyPassword _ _); [assumption|].
    destruct (validatePassword _); [assumption|].
    destruct (hashPassword _ _) as [h|]; [|assumption].
    unfold Domain.ChangePassword.
    destruct (String.eqb_spec h EmptyString); [assumption|].
    destruct (FindByID_valid t j u Ht Hf) as (Hi & Hn & _).
    set (u' := mkUser _ _ _ _ _ _ _).
    pose proof (Update_valid t u' Ht Hi Hn) as Hs. cbn [u' PasswordHash] in Hs.
    specialize (Hs ltac:(assumption)).
    destruct (Persistence.Update t u') as [t' [e|]]; exact Hs.
Qed.

(** X25.  Every stored user is a valid entity.  In a table reached from
    the empty one by calls of the service, none of which drew [uuid.Nil] as
    an identifier, every row that maps to a user maps to one that passes
    [Validate]; so does every user [FindByID] returns. *)
Theorem stored_users_pass_Validate (reqs : list (Env * request)) :
  Forall (fun er => uuid_New (fst er) <> uuid_Nil) reqs ->
  (forall r u, In r (serve_all reqs []) -> Persistence.toDomainUser r = Ok u ->
               Validate u = None) /\
  (forall i u, Persistence.FindByID (serve_all reqs []) i = Ok u -> Validate u = None).
Proof.
  intros Hreqs.
  assert (Hinv : forall t, Forall row_valid t -> Forall row_valid (serve_all reqs t)).
  { induction Hreqs as [|[env req] reqs Hnew _ IH]; intros t Ht; simpl; [assumption|].
    apply IH. now apply row_valid_serve. }
  specialize (Hinv [] (Forall_nil _)). rewrite Forall_forall in Hinv. split.
  - intros r u Hr Hu. exact (row_valid_Validate r u (Hinv r Hr) Hu).
  - intros i u Hf. apply FindByID_row in Hf as (r & Hr & _ & _ & Hu).
    exact (row_valid_Validate r u (Hinv r Hr) Hu).
Qed.

End AnyBcrypt.

Lemma stored_users_pass_Validate_witness :
  Validate (mkUser 1%N (mkEmail "a2@x.com") "Alicia" "$2a$10$password-a" true 1000 2000) =
  None.
Proof.
  assert (Hreqs : Forall (fun er : Env * request => uuid_New (fst er) <> uuid_Nil)
                    [(env1, CallCreateUser alice);
                     (env2, CallUpdateUser 1%N (mkUpdateUserDTO "Alicia" "a2@x.com"))])
    by (repeat constructor; discriminate).
  exact (proj2 (stored_users_pass_Validate
                  [(env1, CallCreateUser alice);
                   (env2, CallUpdateUser 1%N (mkUpdateUserDTO "Alicia" "a2@x.com"))] Hreqs)
           1%N _ eq_refl).
Defined.

End StoredFacts.

(* ------------------------------------------------------------------ *)
(** ** Looking a user up by identifier and by address *)

Module LookupFacts.
Import GoString GoStringFacts GoErrors Persistence Domain DomainFacts CanonicalFacts.
Import Postgres TableConditions PostgresFacts RepositoryFacts.
Import Application TableFacts UniquenessFacts Fixtures FixtureFacts.

(** X26.  The two lookups agree.  On a well-formed table, the user
    [GetUserByEmail] returns for an address is the user [GetUser] returns for
    that user's identifier, and its address is the one asked for, trimmed and
    lower-cased; and the user [GetUser] returns for an identifier is the user
    [GetUserByEmail] returns for that user's address. *)
Theorem lookups_agree (t : Table) :
  well_formed t ->
  (forall raw d,
     GetUserByEmail t raw = Ok d ->
     GetUser t (dto_ID d) = Ok d /\ dto_Email d = TrimSpace (ToLower raw)) /\
  (forall i d,
     GetUser t i = Ok d ->
     GetUserByEmail t (dto_Email d) = Ok d /\ dto_ID d = i).
Proof.
  intros (Hids & Hems & Hok). rewrite Forall_forall in Hok. split.
  - intros raw d. unfold GetUserByEmail, GetUser. repo_unfold.
    destruct (NewEmail raw) as [e|] eqn:He; [|discriminate].
    unfold Persistence.FindByEmail, Postgres.GetUserByEmail.
    destruct (find _ t) as [r|] eqn:F; [|discriminate].
    apply find_some in F as [Hr Hp]. apply andb_true_iff in Hp as [Hre Hact].
    apply has_email_true in Hre.
    destruct (Persistence.toDomainUser r) as [u|] eqn:Hu; [|discriminate].
    intros [= <-]. pose proof (toDomainUser_fields r u Hu) as (Hid & Hemail & _).
    assert (HID : dto_ID (toUserResponseDTO u) = ID u) by reflexivity.
    assert (HEM : dto_Email (toUserResponseDTO u) = Value (Email_ u)) by reflexivity.
    rewrite HID, HEM. split.
    + unfold Persistence.FindByID, GetUserByID.
      destruct (find_exists (fun x => has_id (ID u) x && is_active x) t r Hr) as [x Hx].
      { rewrite Hact, andb_true_r. now apply has_id_true. }
      rewrite Hx. apply find_some in Hx as [Hxin Hxp].
      apply andb_true_iff in Hxp as [Hxi _]. apply has_id_true in Hxi.
      assert (x = r) by (apply (NoDup_map_eq id t); congruence). subst x.
      now rewrite Hu.
    + destruct (Hok r Hr) as (Hcanon & _). rewrite Hcanon in Hemail.
      injection Hemail as <-. unfold Value in *. cbn [value].
      rewrite Hre. exact (NewEmail_value _ _ He).
  - intros i d. unfold GetUserByEmail, GetUser. repo_unfold.
    unfold Persistence.FindByID, GetUserByID.
    destruct (find _ t) as [r|] eqn:F; [|discriminate].
    apply find_some in F as [Hr Hp]. apply andb_true_iff in Hp as [Hri Hact].
    apply has_id_true in Hri.
    destruct (Persistence.toDomainUser r) as [u|] eqn:Hu; [|discriminate].
    intros [= <-]. pose proof (toDomainUser_fields r u Hu) as (Hid & Hemail & _).
    destruct (Hok r Hr) as (Hcanon & _). rewrite Hcanon in Hemail.
    injection Hemail as Hemail.
    assert (HID : dto_ID (toUserResponseDTO u) = ID u) by reflexivity.
    assert (HEM : dto_Email (toUserResponseDTO u) = Value (Email_ u)) by reflexivity.
    rewrite HID, HEM.
    split; [|congruence]. rewrite <- Hemail. unfold Value. cbn [value]. rewrite Hcanon.
    unfold Persistence.FindByEmail, Postgres.GetUserByEmail, Value. cbn [value].
    destruct (find_exists (fun x => has_email (email r) x && is_active x) t r Hr)
      as [x Hx].
    { rewrite Hact, andb_true_r. now apply has_email_true. }
    rewrite Hx. apply find_some in Hx as [Hxin Hxp].
    apply andb_true_iff in Hxp as [Hxe _]. apply has_email_true in Hxe.
    assert (x = r) by (apply (NoDup_map_eq email t); congruence). subst x.
    now rewrite Hu.
Qed.

Lemma lookups_agree_witness :
  GetUser two_users 2%N = Ok (mkUserResponseDTO 2%N "b@x.com" "Bob" true 2000 2000).
Proof.
  exact (proj1 (proj1 (lookups_agree two_users two_users_well_formed) " B@x.com "
                  (mkUserResponseDTO 2%N "b@x.com" "Bob" true 2000 2000) eq_refl)).
Defined.

End LookupFacts.

(* ------------------------------------------------------------------ *)
(** ** A name longer than its column *)

Module ColumnFacts.
Import GoString GoStringFacts GoErrors Persistence Domain DomainFacts CanonicalFacts.
Import Postgres TableConditions PostgresFacts RepositoryFacts.
Import Application ServiceFacts TableFacts UniquenessFacts RegistrationFacts.
Import Columns Fixtures.

Section AnyBcrypt.
Context {bcrypt : Bcrypt}.

(** The steps of [CreateUser] up to [Save], for an input that passes them. *)
Lemma CreateUser_reaches_Save env (t : Table) dto (e : Email) (h : string) :
  validateCreateUserInput dto = None ->
  NewEmail (cu_Email dto) = Ok e ->
  (forall r, In r t -> email r = value e -> is_active r = false) ->
  hashPassword env (cu_Password dto) = Ok h -> h <> EmptyString ->
  CreateUser env t dto =
  let user := mkUser (uuid_New env) e (cu_Name dto) h true (time_Now env) (time_Now env) in
  match Persistence.Save t user with
  | (t', Some err) => (t', Err (fmt_Errorf "failed to save user: " err ""))
  | (t', None) => (t', Ok (toUserResponseDTO user))
  end.
Proof.
  intros Hv He Hfree Hh Hne. unfold CreateUser, lookup_email. repo_unfold.
  rewrite Hv, He, (FindByEmail_none t e Hfree). cbn [errors_Is negb]. rewrite Hh.
  unfold NewUser. apply validateCreateUserInput_None in Hv as (_ & Hn & _).
  destruct (String.eqb_spec (cu_Name dto) EmptyString); [contradiction|].
  destruct (String.eqb_spec h EmptyString); [contradiction|]. reflexivity.
Qed.

(** X27.  A name that is too long is answered with 500.  The limit of 100
    on the name is not checked before the table is: for a [POST /users] body
    that passes the service's checks, whose address no active user holds and
    whose name, of ASCII bytes, has more than 100 of them with something
    other than spaces beyond the 100th, the handler answers with status 500
    and the [internal_error] body, and the table is left as it is. *)
Theorem overlong_name_is_500 env (t : Table) req (e : Email) (h : string) :
  validateCreateUserInput
    (mkCreateUserDTO (Handler.req_Email req) (Handler.req_Name req)
                     (Handler.req_Password req)) = None ->
  NewEmail (Handler.req_Email req) = Ok e ->
  (String.length (value e) <= 255)%nat ->
  (forall r, In r t -> email r = value e -> is_active r = false) ->
  hashPassword env (Handler.req_Password req) = Ok h -> h <> EmptyString ->
  ascii_text (Handler.req_Name req) = true ->
  (100 < String.length (Handler.req_Name req))%nat ->
  all_blank (drop 100 (Handler.req_Name req)) = false ->
  Handler.CreateUser env t (Some req) = (t, Handler.internal_error).
Proof.
  intros Hv He Hle Hfree Hh Hne _ Hlong Hexcess. unfold Handler.CreateUser. cbv zeta.
  rewrite (CreateUser_reaches_Save env t _ e h Hv He Hfree Hh Hne). cbv zeta.
  unfold Persistence.Save, Postgres.CreateUser.
  cbn [id email name password_hash is_active created_at updated_at
       ID Email_ Name PasswordHash IsActive CreatedAt UpdatedAt cu_Name].
  unfold Value. rewrite (varchar_fits 255 "255" _ Hle).
  unfold varchar at 1. destruct (Nat.leb_spec (String.length (Handler.req_Name req)) 100);
    [lia|].
  rewrite Hexcess. reflexivity.
Qed.


End AnyBcrypt.

Lemma overlong_name_is_500_witness :
  Handler.CreateUser env1 ([] : Table)
    (Some (Handler.mkCreateUserRequest "a@x.com" name_101 "password-a")) =
  ([], Handler.internal_error).
Proof.
  assert (Hne : "$2a$10$password-a" <> EmptyString) by discriminate.
  assert (Hle : (String.length "a@x.com" <= 255)%nat) by (simpl; lia).
  assert (Hlong : (100 < String.length name_101)%nat) by (vm_compute; lia).
  refine (overlong_name_is_500 env1 [] (Handler.mkCreateUserRequest "a@x.com" name_101
                                          "password-a")
            (mkEmail "a@x.com") "$2a$10$password-a" eq_refl eq_refl Hle _ eq_refl Hne
            eq_refl Hlong eq_refl).
  intros r [].
Defined.


End ColumnFacts.

(* ------------------------------------------------------------------ *)
(** ** Case and white space in an address *)

Module CaseFacts.
Import GoString GoStringFacts Regexp RegexpSemantics RegexpFacts GoErrors Domain.
Import DomainFacts AddressFacts Columns UnicodeCase.




End CaseFacts.

(* ------------------------------------------------------------------ *)
(** ** What the use cases return does not depend on the stored hashes *)

Module HashSecrecyFacts.
Import GoString GoErrors GoInt Persistence Domain Postgres Application Fixtures.
Import Confidentiality HashSecrecy CanonicalFacts TableFacts InvariantFacts.
Import ConfidentialityFacts.

Lemma same_public_user_response (u1 u2 : User) :
  same_public_user u1 u2 -> toUserResponseDTO u1 = toUserResponseDTO u2.
Proof.
  intros (Hi & He & Hn & Ha & Hc & Hu). unfold toUserResponseDTO. congruence.
Qed.

Lemma existsb_same_public (p : Row -> bool) (t1 t2 : Table) :
  (forall r1 r2, same_public r1 r2 -> p r1 = p r2) ->
  same_public_table t1 t2 -> existsb p t1 = existsb p t2.
Proof.
  intros Hp. induction 1 as [|r1 r2 t1 t2 Hr Ht IH]; simpl; [reflexivity|].
  now rewrite (Hp r1 r2 Hr), IH.
Qed.

Lemma find_alike (p : Row -> bool) (t1 t2 : Table) :
  (forall r1 r2, same_public r1 r2 -> p r1 = p r2) ->
  same_public_table t1 t2 ->
  (exists r1 r2, find p t1 = Some r1 /\ find p t2 = Some r2 /\
                 same_public r1 r2 /\ In r1 t1 /\ In r2 t2) \/
  (find p t1 = None /\ find p t2 = None).
Proof.
  intros Hp. induction 1 as [|r1 r2 t1 t2 Hr Ht IH]; simpl; [now right|].
  rewrite (Hp r1 r2 Hr). destruct (p r2).
  - left. exists r1, r2. simpl. tauto.
  - destruct IH as [(x1 & x2 & E1 & E2 & Hx & H1 & H2)|[E1 E2]]; [left|now right].
    exists x1, x2. simpl. tauto.
Qed.

Lemma replace_row_same_public (i : UUID) (r1 r2 : Row) (t1 t2 : Table) :
  same_public r1 r2 -> same_public_table t1 t2 ->
  same_public_table (replace_row i r1 t1) (replace_row i r2 t2).
Proof.
  intros Hr. induction 1 as [|x1 x2 t1 t2 Hx Ht IH]; simpl; [constructor|].
  unfold has_id. replace (id x1) with (id x2) by (symmetry; apply Hx).
  destruct (N.eqb (id x2) i); constructor; assumption.
Qed.

Lemma toDomainUser_alike (r1 r2 : Row) :
  same_public r1 r2 ->
  (exists u1 u2, Persistence.toDomainUser r1 = Ok u1 /\
                 Persistence.toDomainUser r2 = Ok u2 /\ same_public_user u1 u2 /\
                 PasswordHash u1 = password_hash r1 /\
                 PasswordHash u2 = password_hash r2) \/
  (exists e, Persistence.toDomainUser r1 = Err e /\ Persistence.toDomainUser r2 = Err e).
Proof.
  intros (Hi & He & Hn & Ha & Hc & Hu). unfold Persistence.toDomainUser.
  rewrite He. destruct (NewEmail (email r2)) as [em|e].
  - left. eexists _, _. split; [reflexivity|]. split; [reflexivity|].
    unfold same_public_user. cbn. tauto.
  - right. eexists. split; reflexivity.
Qed.

(** What a lookup yields on two tables that differ only in hashes: two users
    that differ only in the hash, each with a hash of its table, or the same
    error. *)
Lemma lookup_alike (p : Row -> bool) (t1 t2 : Table) (wrap : error -> error) :
  (forall r1 r2, same_public r1 r2 -> p r1 = p r2) ->
  same_public_table t1 t2 ->
  let look t := match find p t with
                | Some r => Persistence.toDomainUser r
                | None => Err (wrap pgx_ErrNoRows)
                end in
  (exists u1 u2, look t1 = Ok u1 /\ look t2 = Ok u2 /\ same_public_user u1 u2 /\
                 (hashes_fit t1 -> hash_fits (PasswordHash u1)) /\
                 (hashes_fit t2 -> hash_fits (PasswordHash u2))) \/
  (exists e, look t1 = Err e /\ look t2 = Err e).
Proof.
  intros Hp Ht look. unfold look.
  destruct (find_alike p t1 t2 Hp Ht) as [(r1 & r2 & E1 & E2 & Hr & H1 & H2)|[E1 E2]];
    rewrite E1, E2; [|right; eexists; split; reflexivity].
  destruct (toDomainUser_alike r1 r2 Hr) as [(u1 & u2 & D1 & D2 & Hu & P1 & P2)|(e & D1 & D2)];
    [left | right; exists e; now split].
  exists u1, u2. split; [assumption|]. split; [assumption|]. split; [assumption|]. split.
  - intros Hf. rewrite P1. exact (proj1 (Forall_forall _ _) Hf r1 H1).
  - intros Hf. rewrite P2. exact (proj1 (Forall_forall _ _) Hf r2 H2).
Qed.

Lemma FindByID_alike (t1 t2 : Table) (i : UUID) :
  same_public_table t1 t2 ->
  (exists u1 u2, Persistence.FindByID t1 i = Ok u1 /\ Persistence.FindByID t2 i = Ok u2 /\
                 same_public_user u1 u2 /\
                 (hashes_fit t1 -> hash_fits (PasswordHash u1)) /\
                 (hashes_fit t2 -> hash_fits (PasswordHash u2))) \/
  (exists e, Persistence.FindByID t1 i = Err e /\ Persistence.FindByID t2 i = Err e).
Proof.
  intros Ht.
  assert (Hp : forall r1 r2, same_public r1 r2 ->
                 has_id i r1 && is_active r1 = has_id i r2 && is_active r2).
  { intros x y (Hi & _ & _ & Ha & _). unfold has_id. congruence. }
  pose proof (lookup_alike _ t1 t2 (fun _ => ErrUserNotFound) Hp Ht) as H.
  cbv zeta in H. revert H. unfold Persistence.FindByID, Postgres.GetUserByID.
  destruct (find _ t1), (find _ t2); intros H; exact H.
Qed.

Lemma FindByEmail_alike (t1 t2 : Table) (em : Email) :
  same_public_table t1 t2 ->
  (exists u1 u2, Persistence.FindByEmail t1 em = Ok u1 /\
                 Persistence.FindByEmail t2 em = Ok u2 /\ same_public_user u1 u2) \/
  (exists e, Persistence.FindByEmail t1 em = Err e /\ Persistence.FindByEmail t2 em = Err e).
Proof.
  intros Ht.
  assert (Hp : forall r1 r2, same_public r1 r2 ->
                 has_email (Value em) r1 && is_active r1 =
                 has_email (Value em) r2 && is_active r2).
  { intros x y (_ & He & _ & Ha & _). unfold has_email. congruence. }
  pose proof (lookup_alike _ t1 t2 (fun _ => ErrUserNotFound) Hp Ht) as H.
  cbv zeta in H. revert H. unfold Persistence.FindByEmail, Postgres.GetUserByEmail.
  destruct (find _ t1), (find _ t2); intros H;
    (destruct H as [(u1 & u2 & E1 & E2 & Hu & _)|H]; [left; exists u1, u2; auto | right; exact H]).
Qed.

Lemma Save_alike (t1 t2 : Table) (u1 u2 : User) :
  same_public_table t1 t2 -> same_public_user u1 u2 ->
  hash_fits (PasswordHash u1) -> hash_fits (PasswordHash u2) ->
  snd (Persistence.Save t1 u1) = snd (Persistence.Save t2 u2) /\
  same_public_table (fst (Persistence.Save t1 u1)) (fst (Persistence.Save t2 u2)).
Proof.
  intros Ht (Hi & He & Hn & Ha & Hc & Hu) H1 H2.
  unfold Persistence.Save, Postgres.CreateUser.
  cbn [id email name password_hash is_active created_at updated_at].
  rewrite (varchar_fits 255 "255" _ H1), (varchar_fits 255 "255" _ H2).
  rewrite <- Hi, <- He, <- Hn, <- Ha, <- Hc, <- Hu.
  destruct (varchar 255 "255" (Value (Email_ u1))) as [em|e];
    [|destruct (isUniqueViolation _); cbn [fst snd]; split; (reflexivity || assumption)].
  destruct (varchar 100 "100" (Name u1)) as [nm|e];
    [|destruct (isUniqueViolation _); cbn [fst snd]; split; (reflexivity || assumption)].
  rewrite (existsb_same_public (has_id (ID u1)) t1 t2)
    by (assumption || (intros x y Hxy; unfold has_id; now rewrite (proj1 Hxy))).
  destruct (existsb (has_id (ID u1)) t2);
    [destruct (isUniqueViolation _); cbn [fst snd]; split; (reflexivity || assumption)|].
  rewrite (existsb_same_public (has_email em) t1 t2)
    by (assumption || (intros x y Hxy; unfold has_email; now rewrite (proj1 (proj2 Hxy)))).
  destruct (existsb (has_email em) t2);
    [destruct (isUniqueViolation _); cbn [fst snd]; split; (reflexivity || assumption)|].
  cbn [fst snd]. split; [reflexivity|].
  apply Forall2_app; [assumption|]. constructor; [|constructor].
  unfold same_public. cbn. tauto.
Qed.

Lemma Update_alike (t1 t2 : Table) (u1 u2 : User) :
  same_public_table t1 t2 -> same_public_user u1 u2 ->
  hash_fits (PasswordHash u1) -> hash_fits (PasswordHash u2) ->
  snd (Persistence.Update t1 u1) = snd (Persistence.Update t2 u2) /\
  same_public_table (fst (Persistence.Update t1 u1)) (fst (Persistence.Update t2 u2)).
Proof.
  intros Ht (Hi & He & Hn & Ha & Hc & Hu) H1 H2.
  unfold Persistence.Update, Postgres.UpdateUser.
  cbn [up_id up_email up_name up_password_hash up_is_active up_updated_at].
  rewrite (varchar_fits 255 "255" _ H1), (varchar_fits 255 "255" _ H2).
  rewrite <- Hi, <- He, <- Hn, <- Ha, <- Hu.
  assert (Hid : forall x y, same_public x y -> has_id (ID u1) x = has_id (ID u1) y).
  { intros x y Hxy. unfold has_id. now rewrite (proj1 Hxy). }
  destruct (find_alike (has_id (ID u1)) t1 t2 Hid Ht)
    as [(r1 & r2 & E1 & E2 & Hr & _)|[E1 E2]]; rewrite E1, E2;
    [|destruct (errors_Is _ _); [|destruct (isUniqueViolation _)];
      cbn [fst snd]; split; (reflexivity || assumption)].
  destruct (varchar 255 "255" (Value (Email_ u1))) as [em|e];
    [|destruct (errors_Is _ _); [|destruct (isUniqueViolation _)];
      cbn [fst snd]; split; (reflexivity || assumption)].
  destruct (varchar 100 "100" (Name u1)) as [nm|e];
    [|destruct (errors_Is _ _); [|destruct (isUniqueViolation _)];
      cbn [fst snd]; split; (reflexivity || assumption)].
  rewrite (existsb_same_public (fun r => has_email em r && negb (has_id (ID u1) r)) t1 t2)
    by (assumption ||
        (intros x y Hxy; unfold has_email; rewrite (Hid x y Hxy);
         now rewrite (proj1 (proj2 Hxy)))).
  destruct (existsb _ t2);
    [destruct (errors_Is _ _); [|destruct (isUniqueViolation _)];
      cbn [fst snd]; split; (reflexivity || assumption)|].
  cbn [fst snd]. split; [reflexivity|].
  apply replace_row_same_public; [|assumption].
  destruct Hr as (Ri & _ & _ & _ & Rc & _). unfold same_public. cbn. tauto.
Qed.

Lemma Save_hashes_fit (t : Table) (u : User) :
  hashes_fit t -> hashes_fit (fst (Persistence.Save t u)).
Proof.
  intros Hf. unfold Persistence.Save, Postgres.CreateUser.
  cbn [id email name password_hash is_active created_at updated_at].
  destruct (varchar 255 "255" (Value (Email_ u))) as [em|e];
    [|destruct (isUniqueViolation _); exact Hf].
  destruct (varchar 100 "100" (Name u)) as [nm|e];
    [|destruct (isUniqueViolation _); exact Hf].
  destruct (varchar 255 "255" (PasswordHash u)) as [ph|e] eqn:Eph;
    [|destruct (isUniqueViolation _); exact Hf].
  destruct (existsb (has_id (ID u)) t); [destruct (isUniqueViolation _); exact Hf|].
  destruct (existsb (has_email em) t); [destruct (isUniqueViolation _); exact Hf|].
  cbn [fst]. apply Forall_app. split; [exact Hf|]. constructor; [|constructor].
  cbn. exact (varchar_length _ _ _ _ Eph).
Qed.

Lemma Update_hashes_fit (t : Table) (u : User) :
  hashes_fit t -> hashes_fit (fst (Persistence.Update t u)).
Proof.
  intros Hf. unfold Persistence.Update, Postgres.UpdateUser.
  cbn [up_id up_email up_name up_password_hash up_is_active up_updated_at].
  destruct (find (has_id (ID u)) t) as [old|];
    [|destruct (errors_Is _ _); [|destruct (isUniqueViolation _)]; exact Hf].
  destruct (varchar 255 "255" (Value (Email_ u))) as [em|e];
    [|destruct (errors_Is _ _); [|destruct (isUniqueViolation _)]; exact Hf].
  destruct (varchar 100 "100" (Name u)) as [nm|e];
    [|destruct (errors_Is _ _); [|destruct (isUniqueViolation _)]; exact Hf].
  destruct (varchar 255 "255" (PasswordHash u)) as [ph|e] eqn:Eph;
    [|destruct (errors_Is _ _); [|destruct (isUniqueViolation _)]; exact Hf].
  destruct (existsb _ t);
    [destruct (errors_Is _ _); [|destruct (isUniqueViolation _)]; exact Hf|].
  cbn [fst]. apply Forall_replace_row; [|exact Hf].
  cbn. exact (varchar_length _ _ _ _ Eph).
Qed.

(** [Update] of two users that differ only in the hash, on two tables that
    differ only in hashes. *)
Lemma Update_step (t1 t2 : Table) (u1 u2 : User) :
  alike t1 t2 -> same_public_user u1 u2 ->
  hash_fits (PasswordHash u1) -> hash_fits (PasswordHash u2) ->
  snd (Persistence.Update t1 u1) = snd (Persistence.Update t2 u2) /\
  alike (fst (Persistence.Update t1 u1)) (fst (Persistence.Update t2 u2)).
Proof.
  intros (Ht & F1 & F2) Hu H1 H2.
  destruct (Update_alike t1 t2 u1 u2 Ht Hu H1 H2) as [Hs Hp].
  split; [exact Hs|]. split; [exact Hp|]. split; now apply Update_hashes_fit.
Qed.

Lemma lookup_email_alike (t1 t2 : Table) (em : Email) :
  same_public_table t1 t2 ->
  (exists u1 u2, lookup_email t1 em = Ok (Some u1) /\ lookup_email t2 em = Ok (Some u2) /\
                 same_public_user u1 u2) \/
  (lookup_email t1 em = Ok None /\ lookup_email t2 em = Ok None) \/
  (exists e, lookup_email t1 em = Err e /\ lookup_email t2 em = Err e).
Proof.
  intros Ht. unfold lookup_email. repo_unfold.
  destruct (FindByEmail_alike t1 t2 em Ht) as [(u1 & u2 & E1 & E2 & Hu)|(e & E1 & E2)];
    rewrite E1, E2.
  - left. exists u1, u2. auto.
  - right. destruct (errors_Is e ErrUserNotFound); cbn [negb].
    + left. now split.
    + right. eexists. split; reflexivity.
Qed.

Lemma email_conflict_alike (t1 t2 : Table) (u1 u2 : User) (em : Email) :
  same_public_table t1 t2 -> same_public_user u1 u2 ->
  email_conflict t1 u1 em = email_conflict t2 u2 em.
Proof.
  intros Ht (Hi & He & _). unfold email_conflict. rewrite <- He, <- Hi.
  destruct (negb _); [|reflexivity].
  destruct (lookup_email_alike t1 t2 em Ht)
    as [(x1 & x2 & E1 & E2 & Hx)|[[E1 E2]|(e & E1 & E2)]]; rewrite E1, E2;
    [|reflexivity|reflexivity].
  now rewrite (proj1 Hx).
Qed.

Section AnyBcrypt.
Context {bcrypt : Bcrypt}.

Lemma GetUser_alike (t1 t2 : Table) (i : UUID) :
  same_public_table t1 t2 -> GetUser t1 i = GetUser t2 i.
Proof.
  intros Ht. unfold GetUser. repo_unfold.
  destruct (FindByID_alike t1 t2 i Ht) as [(u1 & u2 & E1 & E2 & Hu & _)|(e & E1 & E2)];
    rewrite E1, E2; [|reflexivity].
  f_equal. now apply same_public_user_response.
Qed.

Lemma GetUserByEmail_alike (t1 t2 : Table) (s : string) :
  same_public_table t1 t2 -> GetUserByEmail t1 s = GetUserByEmail t2 s.
Proof.
  intros Ht. unfold GetUserByEmail. repo_unfold.
  destruct (NewEmail s) as [em|e]; [|reflexivity].
  destruct (FindByEmail_alike t1 t2 em Ht) as [(u1 & u2 & E1 & E2 & Hu)|(e & E1 & E2)];
    rewrite E1, E2; [|reflexivity].
  f_equal. now apply same_public_user_response.
Qed.

Lemma ListUsers_alike (t1 t2 : Table) (limit offset : Z) :
  same_public_table t1 t2 -> ListUsers t1 limit offset = ListUsers t2 limit offset.
Proof.
  intros Ht. unfold ListUsers. repo_unfold.
  unfold Persistence.List_, Persistence.Count, CountUsers.
  rewrite (length_same_public _ _ (filter_same_public _ _ Ht)).
  unfold Postgres.ListUsers.
  destruct (_ <? 0); [reflexivity|]. destruct (_ <? 0); [reflexivity|].
  match goal with
  | |- context [Persistence.map_rows 0 (firstn ?n (skipn ?m _))] =>
      pose proof (map_rows_same_public _ _
                    (firstn_same_public n _ _
                       (skipn_same_public m _ _
                          (order_same_public _ _ (filter_same_public _ _ Ht)))) 0%nat) as Hm
  end.
  destruct (Persistence.map_rows 0 _), (Persistence.map_rows 0 _);
    try contradiction; [|now subst].
  now rewrite Hm.
Qed.

Lemma CreateUser_alike (env1 env2 : Env) (t1 t2 : Table) (dto : CreateUserDTO) :
  alike t1 t2 -> same_draw env1 env2 ->
  hashes_alike (hashPassword env1 (cu_Password dto)) (hashPassword env2 (cu_Password dto)) ->
  snd (CreateUser env1 t1 dto) = snd (CreateUser env2 t2 dto) /\
  alike (fst (CreateUser env1 t1 dto)) (fst (CreateUser env2 t2 dto)).
Proof.
  intros Hal [Hid Hnow] Hh. pose proof Hal as (Ht & F1 & F2).
  unfold CreateUser. repo_unfold.
  destruct (validateCreateUserInput dto); [now split|].
  destruct (NewEmail (cu_Email dto)) as [em|e]; [|now split].
  destruct (lookup_email_alike t1 t2 em Ht)
    as [(x1 & x2 & E1 & E2 & Hx)|[[E1 E2]|(e & E1 & E2)]]; rewrite E1, E2;
    [now split| |now split].
  unfold hashes_alike in Hh.
  destruct (hashPassword env1 (cu_Password dto)) as [h1|e1],
           (hashPassword env2 (cu_Password dto)) as [h2|e2];
    try contradiction; [|subst e2; now split].
  destruct Hh as [[N1 L1] [N2 L2]].
  unfold NewUser. rewrite <- Hid, <- Hnow.
  destruct (String.eqb (cu_Name dto) EmptyString); [now split|].
  apply String.eqb_neq in N1, N2. rewrite N1, N2.
  match goal with
  | |- context [Persistence.Save t1 ?a] =>
      match goal with
      | |- context [Persistence.Save t2 ?b] =>
          assert (Hu : same_public_user a b) by (unfold same_public_user; cbn; tauto);
          destruct (Save_alike t1 t2 a b Ht Hu L1 L2) as [Hs Hp];
          pose proof (Save_hashes_fit t1 a F1) as G1;
          pose proof (Save_hashes_fit t2 b F2) as G2;
          destruct (Persistence.Save t1 a) as [t1' [s1|]],
                   (Persistence.Save t2 b) as [t2' [s2|]]
      end
  end; cbn [fst snd] in *; try discriminate.
  - injection Hs as ->. split; [reflexivity|]. now repeat split.
  - split; [reflexivity | now repeat split].
Qed.

(** The three use cases that read a user, change it and write it back. *)
Lemma UpdateUser_alike (env : Env) (t1 t2 : Table) (i : UUID) (dto : UpdateUserDTO) :
  alike t1 t2 ->
  snd (UpdateUser env t1 i dto) = snd (UpdateUser env t2 i dto) /\
  alike (fst (UpdateUser env t1 i dto)) (fst (UpdateUser env t2 i dto)).
Proof.
  intros Hal. pose proof Hal as (Ht & F1 & F2).
  unfold UpdateUser. repo_unfold.
  destruct (FindByID_alike t1 t2 i Ht)
    as [(u1 & u2 & E1 & E2 & Hu & L1 & L2)|(e & E1 & E2)]; rewrite E1, E2; [|now split].
  destruct (String.eqb (uu_Name dto) EmptyString) eqn:En; [now split|].
  destruct (NewEmail (uu_Email dto)) as [em|e]; [|now split].
  rewrite (email_conflict_alike t1 t2 u1 u2 em Ht Hu).
  destruct (email_conflict t2 u2 em); [now split|].
  unfold UpdateProfile. rewrite En.
  pose proof Hu as (Hi & He & Hn & Ha & Hc & Hx).
  match goal with
  | |- context [Persistence.Update t1 ?a] =>
      match goal with
      | |- context [Persistence.Update t2 ?b] =>
          assert (Hab : same_public_user a b) by (unfold same_public_user; cbn; tauto);
          destruct (Update_step t1 t2 a b Hal Hab (L1 F1) (L2 F2)) as [Hs Hr];
          pose proof (same_public_user_response a b Hab) as Hd;
          destruct (Persistence.Update t1 a) as [t1' [s1|]],
                   (Persistence.Update t2 b) as [t2' [s2|]]
      end
  end; cbn [fst snd] in *; try discriminate.
  - injection Hs as ->. now split.
  - split; [now f_equal | assumption].
Qed.

Lemma ActivateUser_alike (env : Env) (t1 t2 : Table) (i : UUID) :
  alike t1 t2 ->
  snd (ActivateUser env t1 i) = snd (ActivateUser env t2 i) /\
  alike (fst (ActivateUser env t1 i)) (fst (ActivateUser env t2 i)).
Proof.
  intros Hal. pose proof Hal as (Ht & F1 & F2).
  unfold ActivateUser. repo_unfold.
  destruct (FindByID_alike t1 t2 i Ht)
    as [(u1 & u2 & E1 & E2 & Hu & L1 & L2)|(e & E1 & E2)]; rewrite E1, E2; [|now split].
  pose proof Hu as (Hi & He & Hn & Ha & Hc & Hx).
  assert (Hab : same_public_user (Activate (time_Now env) u1) (Activate (time_Now env) u2))
    by (unfold same_public_user; cbn; tauto).
  destruct (Update_step t1 t2 _ _ Hal Hab (L1 F1) (L2 F2)) as [Hs Hr].
  pose proof (same_public_user_response _ _ Hab) as Hd.
  cbv zeta.
  destruct (Persistence.Update t1 _) as [t1' [s1|]],
           (Persistence.Update t2 _) as [t2' [s2|]];
    cbn [fst snd] in *; try discriminate.
  - injection Hs as ->. now split.
  - split; [now f_equal | assumption].
Qed.

Lemma DeactivateUser_alike (env : Env) (t1 t2 : Table) (i : UUID) :
  alike t1 t2 ->
  snd (DeactivateUser env t1 i) = snd (DeactivateUser env t2 i) /\
  alike (fst (DeactivateUser env t1 i)) (fst (DeactivateUser env t2 i)).
Proof.
  intros Hal. pose proof Hal as (Ht & F1 & F2).
  unfold DeactivateUser. repo_unfold.
  destruct (FindByID_alike t1 t2 i Ht)
    as [(u1 & u2 & E1 & E2 & Hu & L1 & L2)|(e & E1 & E2)]; rewrite E1, E2; [|now split].
  pose proof Hu as (Hi & He & Hn & Ha & Hc & Hx).
  assert (Hab : same_public_user (Deactivate (time_Now env) u1)
                                 (Deactivate (time_Now env) u2))
    by (unfold same_public_user; cbn; tauto).
  destruct (Update_step t1 t2 _ _ Hal Hab (L1 F1) (L2 F2)) as [Hs Hr].
  pose proof (same_public_user_response _ _ Hab) as Hd.
  cbv zeta.
  destruct (Persistence.Update t1 _) as [t1' [s1|]],
           (Persistence.Update t2 _) as [t2' [s2|]];
    cbn [fst snd] in *; try discriminate.
  - injection Hs as ->. now split.
  - split; [now f_equal | assumption].
Qed.

(** C9.  The response mapping reads every field of the user but
    [PasswordHash]: two users that differ only in that field are mapped to
    the same response, which holds the six fields id, email, name,
    is_active, created_at and updated_at.  And so for what the seven use
    cases that answer with users return.  Take two tables that differ only
    in the stored hashes (each of at most 255 bytes, the width of the
    column).  [GetUser], [GetUserByEmail] and [ListUsers] return the same on
    both.  [UpdateUser], [ActivateUser] and [DeactivateUser], given the same
    input and instant, return the same on both and leave two tables that
    again differ only in hashes.  So does [CreateUser], given the same
    input, identifier and instant, also when bcrypt draws differently in the
    two calls, as long as it fails alike or yields two hashes that are not
    empty and of at most 255 bytes. *)
Theorem response_omits_password_hash :
  (forall u1 u2 : User,
     same_public_user u1 u2 -> toUserResponseDTO u1 = toUserResponseDTO u2) /\
  (forall u : User,
     toUserResponseDTO u =
     mkUserResponseDTO (ID u) (Value (Email_ u)) (Name u) (IsActive u)
                       (CreatedAt u) (UpdatedAt u)) /\
  (forall t1 t2 : Table,
     alike t1 t2 ->
     (forall i, GetUser t1 i = GetUser t2 i) /\
     (forall s, GetUserByEmail t1 s = GetUserByEmail t2 s) /\
     (forall limit offset, ListUsers t1 limit offset = ListUsers t2 limit offset) /\
     (forall env1 env2 dto,
        same_draw env1 env2 ->
        hashes_alike (hashPassword env1 (cu_Password dto))
                     (hashPassword env2 (cu_Password dto)) ->
        snd (CreateUser env1 t1 dto) = snd (CreateUser env2 t2 dto) /\
        alike (fst (CreateUser env1 t1 dto)) (fst (CreateUser env2 t2 dto))) /\
     (forall env i dto,
        snd (UpdateUser env t1 i dto) = snd (UpdateUser env t2 i dto) /\
        alike (fst (UpdateUser env t1 i dto)) (fst (UpdateUser env t2 i dto))) /\
     (forall env i,
        snd (ActivateUser env t1 i) = snd (ActivateUser env t2 i) /\
        alike (fst (ActivateUser env t1 i)) (fst (ActivateUser env t2 i))) /\
     (forall env i,
        snd (DeactivateUser env t1 i) = snd (DeactivateUser env t2 i) /\
        alike (fst (DeactivateUser env t1 i)) (fst (DeactivateUser env t2 i)))).
Proof.
  split; [exact same_public_user_response|]. split; [reflexivity|].
  intros t1 t2 Hal. pose proof Hal as (Ht & _ & _).
  split; [intros i; now apply GetUser_alike|].
  split; [intros s; now apply GetUserByEmail_alike|].
  split; [intros limit offset; now apply ListUsers_alike|].
  split; [intros env1 env2 dto Hd Hh; now apply CreateUser_alike|].
  split; [intros env i dto; now apply UpdateUser_alike|].
  split; [intros env i; now apply ActivateUser_alike|].
  intros env i. now apply DeactivateUser_alike.
Qed.

End AnyBcrypt.

(** Alice and Bob under two sets of hashes, and Carol registering with two
    draws of bcrypt. *)
Lemma response_omits_password_hash_witness :
  alike two_users two_users_rehashed /\
  GetUser two_users 2%N = GetUser two_users_rehashed 2%N /\
  ListUsers two_users 10 0 = ListUsers two_users_rehashed 10 0 /\
  snd (CreateUser (bcrypt := salted_bcrypt) env3 two_users carol) =
  snd (CreateUser (bcrypt := salted_bcrypt) env3_resalted two_users_rehashed carol) /\
  snd (DeactivateUser env3 two_users 1%N) =
  snd (DeactivateUser env3 two_users_rehashed 1%N).
Proof.
  assert (Hal : alike two_users two_users_rehashed).
  { split; [|split].
    - repeat (apply Forall2_cons; [unfold same_public; cbn; tauto|]). apply Forall2_nil.
    - repeat (apply Forall_cons; [unfold hash_fits; cbn; lia|]). apply Forall_nil.
    - repeat (apply Forall_cons; [unfold hash_fits; cbn; lia|]). apply Forall_nil. }
  destruct (response_omits_password_hash (bcrypt := salted_bcrypt)) as (_ & _ & H).
  destruct (H two_users two_users_rehashed Hal)
    as (Hget & _ & Hlist & Hcreate & _ & _ & Hdeact).
  split; [exact Hal|]. split; [apply Hget|]. split; [apply Hlist|]. split.
  - apply Hcreate; [split; reflexivity|].
    split; (split; [discriminate | unfold hash_fits; cbn; lia]).
  - apply Hdeact.
Defined.

End HashSecrecyFacts.
